(** * DPReceive: the receive path of the BadVPN client data plane

    A shallow embedding of [client/DPReceive.c].  Objects the C code reaches
    through pointers (devices, peers, receivers) live in a store indexed by
    address; every function is a computation over that store which also
    records, in order, the calls it makes to its collaborators.

    The last part of the definitions, and of the theorems, embeds the
    wpa_supplicant backend of NCD
    ([ncd/modules/net_backend_wpa_supplicant.c]) in the same style. *)

From Stdlib Require Import ZArith Lia.
From Stdlib Require Import Strings.Byte Strings.Ascii.
From stdpp Require Import gmap list strings.

Open Scope Z_scope.

(** ** Machine-level data *)

(** Addresses of heap objects.  A nullable C pointer is an [option ptr]. *)
Abbreviation ptr := positive (only parsing).

(** [peerid_t] is [uint16_t]; values are kept in [Z]. *)
Abbreviation peerid_t := Z (only parsing).

Definition byte_val (b : byte) : Z := Z.of_N (Byte.to_N b).

(** Byte order of the machine the client is built for. *)
Inductive byte_order := LittleEndian | BigEndian.

(** Reading a [uint16_t] lvalue whose two bytes in memory are [b0] (lower
    address) and [b1]. *)
Definition host16 (host : byte_order) (b0 b1 : byte) : Z :=
  match host with
  | LittleEndian => Z.lor (byte_val b0) (Z.shiftl (byte_val b1) 8)
  | BigEndian => Z.lor (Z.shiftl (byte_val b0) 8) (byte_val b1)
  end.

(** Modelled from the spec: [misc/byteorder.h] is not part of the sources.
    "Wire header, little-endian fields": [ltoh16] converts a little-endian
    16-bit value to host order, which is the identity on a little-endian
    machine and a swap of the two bytes on a big-endian one; [ltoh8] is the
    identity. *)
Definition reverse16 (x : Z) : Z :=
  Z.lor (Z.shiftl (Z.land x 255) 8) (Z.land (Z.shiftr x 8) 255).

Definition ltoh16 (host : byte_order) (x : Z) : Z :=
  match host with
  | LittleEndian => x
  | BigEndian => reverse16 x
  end.

Definition ltoh8 (x : Z) : Z := x.

(** Modelled from the spec: [protocol/dataproto.h] is not part of the
    sources.  The packed header is flags (8 bits), from_id (16 bits),
    num_peer_ids (16 bits); a destination ID is 16 bits; bit 0 of the flags
    says that the sender is receiving keepalives. *)
Definition sizeof_dataproto_header : Z := 5.
Definition sizeof_peerid_t : Z := 2.
Definition DATAPROTO_FLAGS_RECEIVING_KEEPALIVES : Z := 1.
Definition DATAPROTO_MAX_OVERHEAD : Z := sizeof_dataproto_header + sizeof_peerid_t.
Definition INT_MAX : Z := 2147483647.

(** ** Objects *)

(** [DPReceiveDevice].  Modelled from the spec: [LinkedList2] is not part of
    the sources; [peers_list] is the sequence of the linked peers in list
    order ("register: append; unregister: remove by identity; find: scan").
    The debug object and the relay router of the device are not fields: the
    first is the presence of the device in the store, the second is named by
    the address of the device. *)
Module Device.
Record t := mk {
  device_mtu : Z;
  output_func : ptr;
  output_func_user : ptr;
  reactor : ptr;
  relay_flow_buffer_size : Z;
  relay_flow_inactivity_time : Z;
  packet_mtu : Z;
  have_peer_id : Z;
  peer_id : peerid_t;
  peers_list : list ptr;
}.
End Device.

(** [DPReceivePeer].  [dp_sink] is [None] for a null pointer; the relay
    source and the relay sink of the peer are named by its address. *)
Module Peer.
Record t := mk {
  device : ptr;
  peer_id : peerid_t;
  decider_peer : ptr;
  is_relay_client : Z;
  dp_sink : option ptr;
  d_receivers_ctr : Z;
}.
End Peer.

(** [DPReceiveReceiver].  The receive interface [recv_if] is named by the
    address of the receiver. *)
Module Receiver.
Record t := mk {
  peer : option ptr;
  device : ptr;
}.
End Receiver.

(** The store: the live objects of each kind, by address.  An object is in
    the store from its [_Init] to its [_Free] (this is what [DebugObject]
    tracks). *)
Record world := World {
  devices : gmap positive Device.t;
  peers : gmap positive Peer.t;
  receivers : gmap positive Receiver.t;
}.

(** ** Calls to collaborators *)

Inductive blog_level := BLOG_ERROR | BLOG_WARNING | BLOG_NOTICE | BLOG_INFO | BLOG_DEBUG.

(** One constructor per function called, [find_peer] included, so that a
    trace also tells which lookups were made.  An argument that in C is the
    address of a member ([&o->recv_if], [&device->relay_router],
    [&peer->relay_source], [&peer->relay_sink]) is given as the address of
    the object that contains it. *)
Inductive event :=
| E_BLog (level : blog_level) (fmt : string) (args : list Z)
| E_find_peer (device : ptr) (id : peerid_t)
| E_DataProtoSink_Received (sink : ptr) (receiving_keepalives : Z)
| E_FrameDeciderPeer_Analyze (decider_peer : ptr) (data : list byte)
| E_PacketPassInterface_Done (receiver : ptr)
| E_output_func (func user : ptr) (data : list byte)
| E_DPRelayRouter_SubmitFrame (router_of_device source_of_peer sink_of_peer : ptr)
    (data : list byte) (buffer_size inactivity_time : Z)
| E_DPRelayRouter_Init (router_of_device : ptr) (frame_mtu : Z) (reactor : ptr)
| E_DPRelayRouter_Free (router_of_device : ptr)
| E_DPRelaySource_Init (source_of_peer router_of_device : ptr) (id : peerid_t) (reactor : ptr)
| E_DPRelaySource_Free (source_of_peer : ptr)
| E_DPRelaySink_Init (sink_of_peer : ptr) (id : peerid_t)
| E_DPRelaySink_Free (sink_of_peer : ptr)
| E_DPRelaySink_Attach (sink_of_peer dp_sink : ptr)
| E_DPRelaySink_Detach (sink_of_peer : ptr)
| E_PacketPassInterface_Init (receiver : ptr) (mtu : Z)
| E_PacketPassInterface_Free (receiver : ptr).

(** ** Computations *)

(** A computation either faults (a failed [ASSERT], or the use of an
    invalid or uninitialised pointer) or returns a value, the new store and
    the calls it made. *)
Inductive outcome (A : Type) :=
| Fault
| Ok (a : A) (w : world) (tr : list event).
Arguments Fault {A}.
Arguments Ok {A} a w tr.

Definition M (A : Type) : Type := world -> outcome A.

Definition ret {A} (a : A) : M A := fun w => Ok a w [].

Definition bind {A B} (m : M A) (k : A -> M B) : M B :=
  fun w =>
    match m w with
    | Fault => Fault
    | Ok a w1 tr1 =>
        match k a w1 with
        | Fault => Fault
        | Ok b w2 tr2 => Ok b w2 (tr1 ++ tr2)
        end
    end.

Notation "'let*' x ':=' m 'in' k" := (bind m (fun x => k))
  (at level 10, x name, m at level 100, k at level 200).
Notation "m '>>' k" := (bind m (fun _ => k))
  (at level 90, right associativity).

Definition fault {A} : M A := fun _ => Fault.
Definition call (e : event) : M unit := fun w => Ok tt w [e].
Definition ASSERT (b : bool) : M unit := if b then ret tt else fault.
Definition BLog (level : blog_level) (fmt : string) (args : list Z) : M unit :=
  call (E_BLog level fmt args).

Definition from_option {A} (o : option A) : M A :=
  match o with Some a => ret a | None => fault end.

Definition get_device (p : ptr) : M Device.t := fun w => from_option (devices w !! p) w.
Definition get_peer (p : ptr) : M Peer.t := fun w => from_option (peers w !! p) w.
Definition get_receiver (p : ptr) : M Receiver.t := fun w => from_option (receivers w !! p) w.

Definition set_device (p : ptr) (d : Device.t) : M unit :=
  fun w => Ok tt (World (<[p := d]> (devices w)) (peers w) (receivers w)) [].
Definition set_peer (p : ptr) (x : Peer.t) : M unit :=
  fun w => Ok tt (World (devices w) (<[p := x]> (peers w)) (receivers w)) [].
Definition set_receiver (p : ptr) (r : Receiver.t) : M unit :=
  fun w => Ok tt (World (devices w) (peers w) (<[p := r]> (receivers w))) [].
Definition free_device (p : ptr) : M unit :=
  fun w => Ok tt (World (delete p (devices w)) (peers w) (receivers w)) [].
Definition free_peer (p : ptr) : M unit :=
  fun w => Ok tt (World (devices w) (delete p (peers w)) (receivers w)) [].
Definition free_receiver (p : ptr) : M unit :=
  fun w => Ok tt (World (devices w) (peers w) (delete p (receivers w))) [].

(** Reads from the packet buffer; reading past its end is a fault. *)
Definition load8 (data : list byte) (off : nat) : M Z :=
  from_option (byte_val <$> data !! off).

Definition load16 (host : byte_order) (data : list byte) (off : nat) : M Z :=
  from_option (b0 ← data !! off; b1 ← data !! S off; Some (host16 host b0 b1)).

(** ** The receive path *)

(** The loop of [find_peer] (DPReceive.c:38-46): walk the list from [nodes]
    on and return the first node whose peer has the ID. *)
Fixpoint find_peer_from (nodes : list ptr) (id : peerid_t) : M (option ptr) :=
  match nodes with
  | [] => ret None
  | node :: rest =>
      let* p := get_peer node in
      if Peer.peer_id p =? id then ret (Some node)
      else find_peer_from rest id
  end.

Definition find_peer (o : ptr) (id : peerid_t) : M (option ptr) :=
  call (E_find_peer o id) >>
  let* d := get_device o in
  find_peer_from (Device.peers_list d) id.

(** The local variables of [receiver_recv_handler_send] that are still
    used after the label [out]. *)
Record locals := Locals {
  data : list byte;
  local : Z;
  src_peer : option ptr;
  relay_dest_peer : option ptr;
}.

Definition data_len (data : list byte) : Z := Z.of_nat (length data).

Section Handler.
Variable host : byte_order.

(** From "check remaining data" to the label [out] (DPReceive.c:93-146).
    [to_id] is [None] while the variable is uninitialised; a [goto out]
    leaves with the locals as they are at that point. *)
Definition route (peer_ptr : ptr) (peer : Peer.t) (device_ptr : ptr) (device : Device.t)
    (flags : Z) (from_id : peerid_t) (num_ids : Z) (to_id : option Z)
    (data : list byte) : M locals :=
  let goto_out (src_peer : option ptr) := ret (Locals data 0 src_peer None) in
  if data_len data >? Device.device_mtu device then
    BLog BLOG_WARNING "frame too large" [] >> goto_out None
  else
    (match Peer.dp_sink peer with
     | Some sink =>
         call (E_DataProtoSink_Received sink
                 (if Z.land flags DATAPROTO_FLAGS_RECEIVING_KEEPALIVES =? 0 then 0 else 1))
     | None => ret tt
     end) >>
    if num_ids =? 1 then
      let* found := find_peer device_ptr from_id in
      match found with
      | None =>
          BLog BLOG_INFO "source peer %d not known" [from_id] >> goto_out None
      | Some src =>
          let* to_id := from_option to_id in
          if negb (Device.have_peer_id device =? 0) && (to_id =? Device.peer_id device) then
            let* sp := get_peer src in
            call (E_FrameDeciderPeer_Analyze (Peer.decider_peer sp) data) >>
            ret (Locals data 1 (Some src) None)
          else
            if Peer.is_relay_client peer =? 0 then
              BLog BLOG_WARNING "relaying not allowed" [] >> goto_out (Some src)
            else if negb (Pos.eqb src peer_ptr) then
              BLog BLOG_WARNING "relay source must be the sending peer" [] >>
              goto_out (Some src)
            else
              let* dest_peer := find_peer device_ptr to_id in
              match dest_peer with
              | None =>
                  BLog BLOG_INFO "relay destination peer not known" [] >>
                  goto_out (Some src)
              | Some dest =>
                  if Pos.eqb dest src then
                    BLog BLOG_WARNING "relay destination cannot be the source" [] >>
                    goto_out (Some src)
                  else
                    ret (Locals data 0 (Some src) (Some dest))
              end
      end
    else
      goto_out None.

(** From "check header" to "check remaining data" (DPReceive.c:65-91), then
    [route].  The header is packed: flags at offset 0, from_id at 1,
    num_peer_ids at 3.  [data_len] is never negative, so its comparisons with
    a [sizeof] are comparisons of integers.  The destination ID is assigned
    as it is read from the buffer. *)
Definition check_and_route (peer_ptr : ptr) (peer : Peer.t) (device_ptr : ptr)
    (device : Device.t) (packet : list byte) : M locals :=
  let data := packet in
  if data_len data <? sizeof_dataproto_header then
    BLog BLOG_WARNING "no dataproto header" [] >> ret (Locals data 0 None None)
  else
    let* header_flags := load8 data 0 in
    let* header_from_id := load16 host data 1 in
    let* header_num_peer_ids := load16 host data 3 in
    let data := drop 5 data in
    let flags := ltoh8 header_flags in
    let from_id := ltoh16 host header_from_id in
    let num_ids := ltoh16 host header_num_peer_ids in
    if negb ((num_ids =? 0) || (num_ids =? 1)) then
      BLog BLOG_WARNING "wrong number of destinations" [] >> ret (Locals data 0 None None)
    else if num_ids =? 1 then
      if data_len data <? sizeof_peerid_t then
        BLog BLOG_WARNING "missing destination" [] >> ret (Locals data 0 None None)
      else
        let* to_id := load16 host data 0 in
        let data := drop 2 data in
        route peer_ptr peer device_ptr device flags from_id num_ids (Some to_id) data
    else
      route peer_ptr peer device_ptr device flags from_id num_ids None data.

(** The code after the label [out] (DPReceive.c:148-160). *)
Definition out (o : ptr) (r : Receiver.t) (device_ptr : ptr) (device : Device.t)
    (l : locals) : M unit :=
  call (E_PacketPassInterface_Done o) >>
  (if negb (local l =? 0) then
     let* odev := get_device (Receiver.device r) in
     call (E_output_func (Device.output_func odev) (Device.output_func_user odev) (data l))
   else ret tt) >>
  match relay_dest_peer l with
  | Some dest =>
      let* src := from_option (src_peer l) in
      call (E_DPRelayRouter_SubmitFrame device_ptr src dest (data l)
              (Device.relay_flow_buffer_size device)
              (Device.relay_flow_inactivity_time device))
  | None => ret tt
  end.

(** DPReceive.c:49-161. *)
Definition receiver_recv_handler_send (o : ptr) (packet : list byte) : M unit :=
  let* r := get_receiver o in
  let* peer_ptr := from_option (Receiver.peer r) in
  let* peer := get_peer peer_ptr in
  let device_ptr := Peer.device peer in
  let* device := get_device device_ptr in
  let packet_len := data_len packet in
  ASSERT (0 <=? packet_len) >>
  ASSERT (packet_len <=? Device.packet_mtu device) >>
  let* l := check_and_route peer_ptr peer device_ptr device packet in
  out o r device_ptr device l.
End Handler.

(** ** Construction and destruction *)

(** [router_init_ok] is the result of [DPRelayRouter_Init], which is outside
    this module.  The field [peer_id] is left uninitialised by the C code; it
    is not read while [have_peer_id] is 0. *)
Definition DPReceiveDevice_Init (router_init_ok : bool) (o : ptr) (device_mtu : Z)
    (output_func output_func_user reactor : ptr)
    (relay_flow_buffer_size relay_flow_inactivity_time : Z) : M Z :=
  ASSERT (0 <=? device_mtu) >>
  ASSERT (device_mtu <=? INT_MAX - DATAPROTO_MAX_OVERHEAD) >>
  ASSERT (0 <? relay_flow_buffer_size) >>
  let packet_mtu := DATAPROTO_MAX_OVERHEAD + device_mtu in
  call (E_DPRelayRouter_Init o device_mtu reactor) >>
  if router_init_ok then
    set_device o
      (Device.mk device_mtu output_func output_func_user reactor
         relay_flow_buffer_size relay_flow_inactivity_time packet_mtu 0 0 []) >>
    ret 1
  else
    BLog BLOG_ERROR "DPRelayRouter_Init failed" [] >> ret 0.

Definition DPReceiveDevice_Free (o : ptr) : M unit :=
  let* d := get_device o in
  ASSERT (bool_decide (Device.peers_list d = [])) >>
  free_device o >>
  call (E_DPRelayRouter_Free o).

Definition with_peer_id (d : Device.t) (have : Z) (id : peerid_t) : Device.t :=
  Device.mk (Device.device_mtu d) (Device.output_func d) (Device.output_func_user d)
    (Device.reactor d) (Device.relay_flow_buffer_size d)
    (Device.relay_flow_inactivity_time d) (Device.packet_mtu d) have id
    (Device.peers_list d).

Definition with_peers_list (d : Device.t) (l : list ptr) : Device.t :=
  Device.mk (Device.device_mtu d) (Device.output_func d) (Device.output_func_user d)
    (Device.reactor d) (Device.relay_flow_buffer_size d)
    (Device.relay_flow_inactivity_time d) (Device.packet_mtu d)
    (Device.have_peer_id d) (Device.peer_id d) l.

Definition with_dp_sink (p : Peer.t) (s : option ptr) : Peer.t :=
  Peer.mk (Peer.device p) (Peer.peer_id p) (Peer.decider_peer p)
    (Peer.is_relay_client p) s (Peer.d_receivers_ctr p).

Definition with_receivers_ctr (p : Peer.t) (n : Z) : Peer.t :=
  Peer.mk (Peer.device p) (Peer.peer_id p) (Peer.decider_peer p)
    (Peer.is_relay_client p) (Peer.dp_sink p) n.

Definition DPReceiveDevice_SetPeerID (o : ptr) (peer_id : peerid_t) : M unit :=
  let* d := get_device o in
  set_device o (with_peer_id d 1 peer_id).

(** [o] is storage provided by the caller for the new peer. *)
Definition DPReceivePeer_Init (o : ptr) (device : ptr) (peer_id : peerid_t)
    (decider_peer : ptr) (is_relay_client : Z) : M unit :=
  let* d := get_device device in
  ASSERT ((is_relay_client =? 0) || (is_relay_client =? 1)) >>
  call (E_DPRelaySource_Init o device peer_id (Device.reactor d)) >>
  call (E_DPRelaySink_Init o peer_id) >>
  set_peer o (Peer.mk device peer_id decider_peer is_relay_client None 0) >>
  set_device device (with_peers_list d (Device.peers_list d ++ [o])).

Definition DPReceivePeer_Free (o : ptr) : M unit :=
  let* p := get_peer o in
  ASSERT (Peer.d_receivers_ctr p =? 0) >>
  ASSERT (bool_decide (Peer.dp_sink p = None)) >>
  let* d := get_device (Peer.device p) in
  set_device (Peer.device p)
    (with_peers_list d (filter (fun q => q <> o) (Device.peers_list d))) >>
  free_peer o >>
  call (E_DPRelaySink_Free o) >>
  call (E_DPRelaySource_Free o).

Definition DPReceivePeer_AttachSink (o : ptr) (dp_sink : option ptr) : M unit :=
  let* p := get_peer o in
  ASSERT (bool_decide (Peer.dp_sink p = None)) >>
  let* s := from_option dp_sink in
  call (E_DPRelaySink_Attach o s) >>
  set_peer o (with_dp_sink p (Some s)).

Definition DPReceivePeer_DetachSink (o : ptr) : M unit :=
  let* p := get_peer o in
  ASSERT (bool_decide (Peer.dp_sink p <> None)) >>
  call (E_DPRelaySink_Detach o) >>
  set_peer o (with_dp_sink p None).

Definition DPReceiveReceiver_Init (o : ptr) (peer : ptr) : M unit :=
  let* p := get_peer peer in
  let device := Peer.device p in
  let* d := get_device device in
  set_receiver o (Receiver.mk (Some peer) device) >>
  call (E_PacketPassInterface_Init o (Device.packet_mtu d)) >>
  set_peer peer (with_receivers_ctr p (Peer.d_receivers_ctr p + 1)).

Definition DPReceiveReceiver_Free (o : ptr) : M unit :=
  let* r := get_receiver o in
  let* peer := from_option (Receiver.peer r) in
  let* p := get_peer peer in
  free_receiver o >>
  set_peer peer (with_receivers_ctr p (Peer.d_receivers_ctr p - 1)) >>
  call (E_PacketPassInterface_Free o).

(** ** A small configuration, built with the functions above

    One device at address 1 with device MTU 4 and own ID 7; the peers 10
    (ID 1, relay client, sink 50 attached), 11 (ID 2) and 12 (ID 3), in this
    order; a receiver at address 20 for the peer 10 and one at 21 for the
    peer 11. *)
Definition setup : M unit :=
  DPReceiveDevice_Init true 1 4 100 101 102 8 3000 >>
  DPReceiveDevice_SetPeerID 1 7 >>
  DPReceivePeer_Init 10 1 1 60 1 >>
  DPReceivePeer_Init 11 1 2 61 0 >>
  DPReceivePeer_Init 12 1 3 62 0 >>
  DPReceivePeer_AttachSink 10 (Some 50%positive) >>
  DPReceiveReceiver_Init 20 10 >>
  DPReceiveReceiver_Init 21 11.

Definition world0 : world := World ∅ ∅ ∅.

Definition world_of {A} (r : outcome A) : world :=
  match r with Ok _ w _ => w | Fault => world0 end.

Definition w_demo : world := world_of (setup world0).

(** ** The wire format, in the words of the specification *)

(** A little-endian 16-bit field whose bytes on the wire are [b0], [b1]. *)
Definition le16 (b0 b1 : byte) : Z := byte_val b0 + 256 * byte_val b1.

(** ** Preconditions of the receive handler

    What [receiver_recv_handler_send] relies on: [o] is a live receiver whose
    peer and device are live, as [DPReceiveReceiver_Init] left them; the
    nodes of the peers list are live peers; and the caller respects the MTU
    of the receive interface. *)
Record handler_pre (w : world) (o : ptr) (packet : list byte)
    (r : Receiver.t) (peer_ptr : ptr) (peer : Peer.t) (device : Device.t) : Prop := {
  pre_receiver : receivers w !! o = Some r;
  pre_peer_ptr : Receiver.peer r = Some peer_ptr;
  pre_peer : peers w !! peer_ptr = Some peer;
  pre_device : devices w !! Peer.device peer = Some device;
  pre_same_device : Receiver.device r = Peer.device peer;
  pre_registry : Forall (fun node => is_Some (peers w !! node)) (Device.peers_list device);
  pre_len : data_len packet <= Device.packet_mtu device;
}.

(** What the scan of [find_peer] over [nodes] may return for [id]: the first
    node whose peer has this ID, or nothing when there is none. *)
Definition found (w : world) (nodes : list ptr) (id : peerid_t) (res : option ptr) : Prop :=
  match res with
  | Some node =>
      exists before after p,
        nodes = before ++ node :: after /\
        peers w !! node = Some p /\ Peer.peer_id p = id /\
        forall m q, m ∈ before -> peers w !! m = Some q -> Peer.peer_id q <> id
  | None =>
      forall m q, m ∈ nodes -> peers w !! m = Some q -> Peer.peer_id q <> id
  end.

(** "Peer IDs unique per device". *)
Definition unique_ids (w : world) (nodes : list ptr) : Prop :=
  forall a b pa pb,
    a ∈ nodes -> b ∈ nodes ->
    peers w !! a = Some pa -> peers w !! b = Some pb ->
    Peer.peer_id pa = Peer.peer_id pb -> a = b.

(** Total correctness of a computation that leaves the store alone: it does
    not fault, the store is unchanged, and result and calls satisfy [P]. *)
Definition spec {A} (m : M A) (w : world) (P : A -> list event -> Prop) : Prop :=
  match m w with
  | Ok a w' tr => w' = w /\ P a tr
  | Fault => False
  end.

(** A computation that never writes to the store. *)
Definition read_only {A} (m : M A) : Prop :=
  forall w a w' tr, m w = Ok a w' tr -> w' = w.

(** ** Classification of calls *)

Definition is_Done (e : event) : bool :=
  match e with E_PacketPassInterface_Done _ => true | _ => false end.
Definition is_output (e : event) : bool :=
  match e with E_output_func _ _ _ => true | _ => false end.
Definition is_submit (e : event) : bool :=
  match e with E_DPRelayRouter_SubmitFrame _ _ _ _ _ _ => true | _ => false end.
Definition is_received (e : event) : bool :=
  match e with E_DataProtoSink_Received _ _ => true | _ => false end.
Definition is_analyze (e : event) : bool :=
  match e with E_FrameDeciderPeer_Analyze _ _ => true | _ => false end.
Definition same_level (a b : blog_level) : bool :=
  match a, b with
  | BLOG_ERROR, BLOG_ERROR | BLOG_WARNING, BLOG_WARNING | BLOG_NOTICE, BLOG_NOTICE
  | BLOG_INFO, BLOG_INFO | BLOG_DEBUG, BLOG_DEBUG => true
  | _, _ => false
  end.
Definition is_log (level : blog_level) (e : event) : bool :=
  match e with
  | E_BLog l _ _ => same_level l level
  | _ => false
  end.

Definition count (f : event -> bool) (tr : list event) : nat :=
  length (List.filter f tr).

(** The argument of [DataProtoSink_Received]: bit 0 of the flags byte. *)
Definition receiving_keepalives (flags : byte) : Z :=
  if Z.testbit (byte_val flags) 0 then 1 else 0.

(** The notification of the sink attached to [peer], if any. *)
Definition notification (peer : Peer.t) (flags : byte) : list event :=
  match Peer.dp_sink peer with
  | Some sink => [E_DataProtoSink_Received sink (receiving_keepalives flags)]
  | None => []
  end.

(** Steps 2 to 5 of the routing decision, in the words of the
    specification: the header is present, the destination count is 0 or 1,
    the destination ID is present when the count is 1, and what remains is
    no longer than the device MTU. *)
Definition passes_steps_2_to_5 (device_mtu : Z) (packet : list byte) : bool :=
  match packet with
  | _ :: _ :: _ :: n0 :: n1 :: rest =>
      if le16 n0 n1 =? 0 then data_len rest <=? device_mtu
      else if le16 n0 n1 =? 1 then
        (2 <=? data_len rest) && (data_len rest - 2 <=? device_mtu)
      else false
  | _ => false
  end.

(** Every relay submission names two different peers. *)
Definition submit_ok (e : event) : bool :=
  match e with
  | E_DPRelayRouter_SubmitFrame _ s d _ _ _ => negb (Pos.eqb s d)
  | _ => true
  end.

(** Calls that may come before the release of the slot, and after it. *)
Definition before_release (e : event) : bool :=
  match e with
  | E_BLog _ _ _ | E_find_peer _ _
  | E_DataProtoSink_Received _ _ | E_FrameDeciderPeer_Analyze _ _ => true
  | _ => false
  end.
Definition after_release (e : event) : bool :=
  is_output e || is_submit e.

(** The calls the receive handler can make at all. *)
Definition handler_call (e : event) : bool :=
  before_release e || is_Done e || after_release e.

(** What the code before the label [out] leaves in the local variables:
    [local] is a flag, and a relay destination comes with a different,
    initialised source. *)
Definition locals_ok (l : locals) : Prop :=
  (local l = 0 \/ local l = 1) /\
  (local l = 1 -> relay_dest_peer l = None) /\
  match relay_dest_peer l with
  | Some d => exists s, src_peer l = Some s /\ s <> d
  | None => True
  end.

(** ** The objects of the small configuration *)

Definition dev_demo : Device.t := Device.mk 4 100 101 102 8 3000 11 1 7 [10; 11; 12]%positive.
Definition peer10 : Peer.t := Peer.mk 1 1 60 1 (Some 50%positive) 1.
Definition peer11 : Peer.t := Peer.mk 1 2 61 0 None 1.
Definition r20 : Receiver.t := Receiver.mk (Some 10%positive) 1.
Definition r21 : Receiver.t := Receiver.mk (Some 11%positive) 1.

(** Frames: from peer 1 to the device (ID 7); from peer 1 to peer 2; from
    peer 1 to itself; without destination; from the unknown peer 9; from
    peer 1 and from peer 2 to the unknown peer 9. *)
Definition pk_local : list byte := [x01; x01; x00; x01; x00; x07; x00; xaa; xbb].
Definition pk_relay : list byte := [x00; x01; x00; x01; x00; x02; x00; xcc].
Definition pk_self_relay : list byte := [x00; x01; x00; x01; x00; x01; x00; xcc].
Definition pk_no_dest : list byte := [x01; x01; x00; x00; x00; xaa].
Definition pk_unknown_src : list byte := [x00; x09; x00; x01; x00; x07; x00].
Definition pk_unknown_dst : list byte := [x00; x01; x00; x01; x00; x09; x00].
Definition pk_unknown_dst_from_2 : list byte := [x00; x02; x00; x01; x00; x09; x00].

(** ** The outcomes of the receive handler

    The traces a call of [receiver_recv_handler_send] on [packet] can have,
    one constructor per way through the function.  [hd x00 packet] is the
    flags byte and [drop 7 packet] is what follows the header and the
    destination ID. *)
Definition malformed_reasons : list string :=
  ["no dataproto header"; "wrong number of destinations"; "missing destination";
   "frame too large"].

Inductive handled (w : world) (o peer_ptr : ptr) (peer : Peer.t) (device : Device.t)
    (packet : list byte) : list event -> Prop :=
| Handled_malformed (reason : string) :
    reason ∈ malformed_reasons ->
    handled w o peer_ptr peer device packet
      [E_BLog BLOG_WARNING reason []; E_PacketPassInterface_Done o]
| Handled_no_destination :
    handled w o peer_ptr peer device packet
      (notification peer (hd x00 packet) ++ [E_PacketPassInterface_Done o])
| Handled_unknown_source (from_id : Z) :
    handled w o peer_ptr peer device packet
      (notification peer (hd x00 packet) ++
       [E_find_peer (Peer.device peer) from_id;
        E_BLog BLOG_INFO "source peer %d not known" [from_id];
        E_PacketPassInterface_Done o])
| Handled_delivered (from_id : Z) (src : ptr) (sp : Peer.t) :
    peers w !! src = Some sp ->
    Peer.peer_id sp = from_id ->
    Device.have_peer_id device <> 0 ->
    data_len (drop 7 packet) <= Device.device_mtu device ->
    handled w o peer_ptr peer device packet
      (notification peer (hd x00 packet) ++
       [E_find_peer (Peer.device peer) from_id;
        E_FrameDeciderPeer_Analyze (Peer.decider_peer sp) (drop 7 packet);
        E_PacketPassInterface_Done o;
        E_output_func (Device.output_func device) (Device.output_func_user device)
          (drop 7 packet)])
| Handled_relaying_not_allowed (from_id : Z) :
    Peer.is_relay_client peer = 0 ->
    handled w o peer_ptr peer device packet
      (notification peer (hd x00 packet) ++
       [E_find_peer (Peer.device peer) from_id;
        E_BLog BLOG_WARNING "relaying not allowed" [];
        E_PacketPassInterface_Done o])
| Handled_foreign_source (from_id : Z) (src : ptr) (sp : Peer.t) :
    Peer.is_relay_client peer <> 0 ->
    peers w !! src = Some sp ->
    Peer.peer_id sp = from_id ->
    src <> peer_ptr ->
    handled w o peer_ptr peer device packet
      (notification peer (hd x00 packet) ++
       [E_find_peer (Peer.device peer) from_id;
        E_BLog BLOG_WARNING "relay source must be the sending peer" [];
        E_PacketPassInterface_Done o])
| Handled_unknown_destination (from_id to_id : Z) :
    Peer.is_relay_client peer <> 0 ->
    handled w o peer_ptr peer device packet
      (notification peer (hd x00 packet) ++
       [E_find_peer (Peer.device peer) from_id;
        E_find_peer (Peer.device peer) to_id;
        E_BLog BLOG_INFO "relay destination peer not known" [];
        E_PacketPassInterface_Done o])
| Handled_relay_to_source (from_id to_id : Z) :
    Peer.is_relay_client peer <> 0 ->
    handled w o peer_ptr peer device packet
      (notification peer (hd x00 packet) ++
       [E_find_peer (Peer.device peer) from_id;
        E_find_peer (Peer.device peer) to_id;
        E_BLog BLOG_WARNING "relay destination cannot be the source" [];
        E_PacketPassInterface_Done o])
| Handled_relayed (from_id to_id : Z) (dest : ptr) (dp : Peer.t) :
    Peer.is_relay_client peer <> 0 ->
    Peer.peer_id peer = from_id ->
    peers w !! dest = Some dp ->
    Peer.peer_id dp = to_id ->
    dest <> peer_ptr ->
    data_len (drop 7 packet) <= Device.device_mtu device ->
    handled w o peer_ptr peer device packet
      (notification peer (hd x00 packet) ++
       [E_find_peer (Peer.device peer) from_id;
        E_find_peer (Peer.device peer) to_id;
        E_PacketPassInterface_Done o;
        E_DPRelayRouter_SubmitFrame (Peer.device peer) peer_ptr dest (drop 7 packet)
          (Device.relay_flow_buffer_size device)
          (Device.relay_flow_inactivity_time device)]).

Definition is_blog (e : event) : bool :=
  match e with E_BLog _ _ _ => true | _ => false end.
Definition is_find_peer (e : event) : bool :=
  match e with E_find_peer _ _ => true | _ => false end.

(** The bytes an event hands to the analyzer, the output function or the
    relay router. *)
Definition payload_of (e : event) : option (list byte) :=
  match e with
  | E_FrameDeciderPeer_Analyze _ d | E_output_func _ _ d
  | E_DPRelayRouter_SubmitFrame _ _ _ d _ _ => Some d
  | _ => None
  end.

(** ** A second configuration and more frames

    A device at address 1 with device MTU 4 and no own ID, and one peer at
    address 10 (ID 1, not a relay client, no sink) with a receiver at
    address 20. *)
Definition setup_plain : M unit :=
  DPReceiveDevice_Init true 1 4 100 101 102 8 3000 >>
  DPReceivePeer_Init 10 1 1 60 0 >>
  DPReceiveReceiver_Init 20 10.

Definition w_plain : world := world_of (setup_plain world0).
Definition dev_plain : Device.t := Device.mk 4 100 101 102 8 3000 11 0 0 [10%positive].
Definition peer_plain : Peer.t := Peer.mk 1 1 60 0 None 1.

(** Frames: two bytes only; destination count 2; destination count 1 without
    destination ID; no destination and five bytes of payload; from peer 2 to
    peer 3. *)
Definition pk_short : list byte := [x00; x01].
Definition pk_bad_count : list byte := [x00; x01; x00; x02; x00; x07; x00].
Definition pk_no_dest_id : list byte := [x00; x01; x00; x01; x00; x07].
Definition pk_too_large : list byte := [x00; x01; x00; x00; x00; xaa; xbb; xcc; xdd; xee].
Definition pk_from_2_to_3 : list byte := [x00; x02; x00; x01; x00; x03; x00].

(** ** The life of the objects

    The calls a user of the module can make.  The storage of a new object is
    provided by the caller, who must not pass the address of a live object
    of the same kind ([storage_free]). *)
Inductive api :=
| Api_DeviceInit (router_init_ok : bool) (o : ptr) (device_mtu : Z)
    (output_func output_func_user reactor : ptr)
    (relay_flow_buffer_size relay_flow_inactivity_time : Z)
| Api_DeviceFree (o : ptr)
| Api_SetPeerID (o : ptr) (peer_id : Z)
| Api_PeerInit (o device : ptr) (peer_id : Z) (decider_peer : ptr) (is_relay_client : Z)
| Api_PeerFree (o : ptr)
| Api_AttachSink (o : ptr) (dp_sink : option ptr)
| Api_DetachSink (o : ptr)
| Api_ReceiverInit (o peer : ptr)
| Api_ReceiverFree (o : ptr)
| Api_Receive (host : byte_order) (o : ptr) (packet : list byte).

Definition unused {A} (m : gmap positive A) (o : ptr) : bool :=
  match m !! o with Some _ => false | None => true end.

Definition storage_free (c : api) (w : world) : bool :=
  match c with
  | Api_DeviceInit _ o _ _ _ _ _ _ => unused (devices w) o
  | Api_PeerInit o _ _ _ _ => unused (peers w) o
  | Api_ReceiverInit o _ => unused (receivers w) o
  | _ => true
  end.

(** The store after a computation, if it did not fault. *)
Definition after {A} (m : M A) (w : world) : option world :=
  match m w with Ok _ w' _ => Some w' | Fault => None end.

Definition run_api (c : api) (w : world) : option world :=
  if storage_free c w then
    match c with
    | Api_DeviceInit ok o mtu f u re size time =>
        after (DPReceiveDevice_Init ok o mtu f u re size time) w
    | Api_DeviceFree o => after (DPReceiveDevice_Free o) w
    | Api_SetPeerID o id => after (DPReceiveDevice_SetPeerID o id) w
    | Api_PeerInit o dev id dec rc => after (DPReceivePeer_Init o dev id dec rc) w
    | Api_PeerFree o => after (DPReceivePeer_Free o) w
    | Api_AttachSink o s => after (DPReceivePeer_AttachSink o s) w
    | Api_DetachSink o => after (DPReceivePeer_DetachSink o) w
    | Api_ReceiverInit o peer => after (DPReceiveReceiver_Init o peer) w
    | Api_ReceiverFree o => after (DPReceiveReceiver_Free o) w
    | Api_Receive host o packet => after (receiver_recv_handler_send host o packet) w
    end
  else None.

Fixpoint run_apis (cs : list api) (w : world) : option world :=
  match cs with
  | [] => Some w
  | c :: cs =>
      match run_api c w with
      | Some w' => run_apis cs w'
      | None => None
      end
  end.

(** The stores that a sequence of calls without fault can build from
    nothing. *)
Definition reachable (w : world) : Prop :=
  exists cs, run_apis cs world0 = Some w.

(** The receivers of the peer at [pp]. *)
Definition refs (w : world) (pp : ptr) : gmap positive Receiver.t :=
  filter (fun kr => Receiver.peer (snd kr) = Some pp) (receivers w).

Definition device_ok (d : Device.t) : Prop :=
  0 <= Device.device_mtu d <= INT_MAX - DATAPROTO_MAX_OVERHEAD /\
  Device.packet_mtu d = DATAPROTO_MAX_OVERHEAD + Device.device_mtu d /\
  0 < Device.relay_flow_buffer_size d /\
  (Device.have_peer_id d = 0 \/ Device.have_peer_id d = 1) /\
  NoDup (Device.peers_list d).

(** What the functions of the module keep true of the store. *)
Record inv (w : world) : Prop := {
  inv_device : forall dev d, devices w !! dev = Some d -> device_ok d;
  inv_registry : forall dev d node,
    devices w !! dev = Some d -> node ∈ Device.peers_list d ->
    exists p, peers w !! node = Some p /\ Peer.device p = dev;
  inv_peer : forall node p,
    peers w !! node = Some p ->
    (Peer.is_relay_client p = 0 \/ Peer.is_relay_client p = 1) /\
    exists d, devices w !! Peer.device p = Some d /\ node ∈ Device.peers_list d;
  inv_counter : forall node p,
    peers w !! node = Some p ->
    Peer.d_receivers_ctr p = Z.of_nat (size (refs w node));
  inv_receiver : forall o r,
    receivers w !! o = Some r ->
    exists pp p,
      Receiver.peer r = Some pp /\ peers w !! pp = Some p /\
      Receiver.device r = Peer.device p;
}.

(** The calls that build the first configuration, and its third peer. *)
Definition demo_calls : list api :=
  [Api_DeviceInit true 1 4 100 101 102 8 3000;
   Api_SetPeerID 1 7;
   Api_PeerInit 10 1 1 60 1;
   Api_PeerInit 11 1 2 61 0;
   Api_PeerInit 12 1 3 62 0;
   Api_AttachSink 10 (Some 50%positive);
   Api_ReceiverInit 20 10;
   Api_ReceiverInit 21 11].

Definition peer12 : Peer.t := Peer.mk 1 3 62 0 None 0.

(** * The wpa_supplicant backend of NCD

    A shallow embedding of [ncd/modules/net_backend_wpa_supplicant.c]: the
    parsing of the lines the daemon prints, and the handlers that keep the
    state of the module instance.  A line is a list of characters. *)
Module Wpa.

Definition MAX_LINE_LEN : Z := 512.
Definition EVENT_STRING_CONNECTED : string := "CTRL-EVENT-CONNECTED".
Definition EVENT_STRING_DISCONNECTED : string := "CTRL-EVENT-DISCONNECTED".

(** ** Parsing *)

(** [*out = v; return 1;] in [parse_hex_digit]: the function succeeds with
    the value [v] written through [out]. *)
Definition out_return (v : Z) : option Z := Some v.

(** [parse_hex_digit] (lines 92-114): the value written to [*out], or [None]
    where the C function returns 0. *)
Definition parse_hex_digit (d : ascii) : option Z :=
  match d with
  | "0" => out_return 0
  | "1" => out_return 1
  | "2" => out_return 2
  | "3" => out_return 3
  | "4" => out_return 4
  | "5" => out_return 5
  | "6" => out_return 6
  | "7" => out_return 7
  | "8" => out_return 8
  | "9" => out_return 9
  | "A" | "a" => out_return 10
  | "B" | "b" => out_return 11
  | "C" | "c" => out_return 12
  | "D" | "d" => out_return 13
  | "E" | "e" => out_return 14
  | "F" | "f" => out_return 15
  | _ => None
  end%char.

(** The loop over the six bytes of the BSSID in [parse_trying] (lines
    127-144), with [k] iterations to go ([i = 6 - k]): two hexadecimal digits
    per byte, stored as [uint8_t], and a colon after each byte but the last.
    The result is the bytes stored and the data that follow. *)
Fixpoint parse_bssid (k : nat) (data : list ascii) : option (list Z * list ascii) :=
  match k with
  | O => Some ([], data)
  | S k' =>
      match data with
      | c1 :: c2 :: data =>
          match parse_hex_digit c1, parse_hex_digit c2 with
          | Some d1, Some d2 =>
              let out := Z.lor (Z.shiftl d1 4) d2 mod 256 in
              match k' with
              | O => Some ([out], data)
              | S _ =>
                  match data with
                  | ":"%char :: data =>
                      match parse_bssid k' data with
                      | Some (bssid, data) => Some (out :: bssid, data)
                      | None => None
                      end
                  | _ => None
                  end
              end
          | _, _ => None
          end
      | _ => None
      end
  end.

(** The search for the last quote (lines 152-162 and 181-191): [i] runs from
    the length of the data down to 1, and the result is the index [i - 1] of
    the first quote met, or [None] when [q] stays [NULL]. *)
Fixpoint last_quote (i : nat) (data : list ascii) : option nat :=
  match i with
  | O => None
  | S j =>
      match data !! j with
      | Some c => if Ascii.eqb c "'" then Some j else last_quote j data
      | None => None
      end
  end.

Section Parsing.
(** [data_begins_with] is declared in [misc/string_begins_with.h], which is
    not among the sources; the functions that call it take it as a
    parameter.  It is given the data and a string and returns a number that
    the callers test against 0 and skip. *)
Variable data_begins_with : list ascii -> string -> nat.

(** [parse_trying] (lines 116-168), for a line such as
    [Trying to associate with AB:CD:EF:01:23:45 (SSID='Some SSID' freq=2462 MHz)]:
    the BSSID and the SSID. *)
Definition parse_trying (data : list ascii) : option (list Z * list ascii) :=
  match data_begins_with data "Trying to associate with " with
  | O => None
  | p =>
      let data := drop p data in
      match parse_bssid 6 data with
      | None => None
      | Some (bssid, data) =>
          match data_begins_with data " (SSID='" with
          | O => None
          | p =>
              let data := drop p data in
              match last_quote (length data) data with
              | None => None
              | Some q => Some (bssid, take q data)
              end
          end
      end
  end.

(** [parse_trying_nobssid] (lines 170-197), for a line such as
    [Trying to associate with SSID 'Some SSID']: the SSID. *)
Definition parse_trying_nobssid (data : list ascii) : option (list ascii) :=
  match data_begins_with data "Trying to associate with SSID '" with
  | O => None
  | p =>
      let data := drop p data in
      match last_quote (length data) data with
      | None => None
      | Some q => Some (take q data)
      end
  end.
End Parsing.

(** ** The module instance *)

(** The fields of [struct instance] that the handlers read and write.
    [info_ssid] is the string that the allocated buffer holds, [None] for
    [NULL]. *)
Record instance := {
  dying : Z;
  up : Z;
  have_pipe : Z;
  have_info : Z;
  info_have_bssid : Z;
  info_bssid : list Z;
  info_ssid : option (list ascii);
}.

(** The calls to the collaborators: the module framework, the process and
    its pipe, the allocator.  [E_BAllocSize] also records whether the
    allocator returned a buffer. *)
Inductive event :=
| E_ModuleLog (level : blog_level) (msg : string)
| E_BInputProcess_Terminate
| E_PacketPassInterface_Done
| E_PacketPassInterface_Free
| E_LineBuffer_Free
| E_BInputProcess_Free
| E_free
| E_NCDModuleInst_Backend_SetError
| E_NCDModuleInst_Backend_Dead
| E_BAllocSize (size : Z) (result : bool)
| E_BFree
| E_NCDModuleInst_Backend_Up
| E_NCDModuleInst_Backend_Down
| E_NCDValue_InitString (str : list ascii).

(** A handler is a computation on the instance that records its calls;
    [None] is a failed assertion. *)
Definition W (A : Type) : Type := instance -> option (A * instance * list event).

#[export] Instance W_ret : MRet W := fun A a o => Some (a, o, []).
#[export] Instance W_bind : MBind W := fun A B k m o =>
  match m o with
  | None => None
  | Some (a, o1, tr1) =>
      match k a o1 with
      | None => None
      | Some (b, o2, tr2) => Some (b, o2, tr1 ++ tr2)
      end
  end.

Definition ASSERT (c : bool) : W unit := fun o => if c then Some (tt, o, []) else None.
Definition call (e : event) : W unit := fun o => Some (tt, o, [e]).
Definition get {A : Type} (f : instance -> A) : W A := fun o => Some (f o, o, []).
Definition set (f : instance -> instance) : W unit := fun o => Some (tt, f o, []).
Definition ModuleLog (level : blog_level) (msg : string) : W unit :=
  call (E_ModuleLog level msg).

Definition with_dying (v : Z) (o : instance) : instance :=
  {| dying := v; up := up o; have_pipe := have_pipe o; have_info := have_info o;
     info_have_bssid := info_have_bssid o; info_bssid := info_bssid o;
     info_ssid := info_ssid o |}.
Definition with_up (v : Z) (o : instance) : instance :=
  {| dying := dying o; up := v; have_pipe := have_pipe o; have_info := have_info o;
     info_have_bssid := info_have_bssid o; info_bssid := info_bssid o;
     info_ssid := info_ssid o |}.
Definition with_have_pipe (v : Z) (o : instance) : instance :=
  {| dying := dying o; up := up o; have_pipe := v; have_info := have_info o;
     info_have_bssid := info_have_bssid o; info_bssid := info_bssid o;
     info_ssid := info_ssid o |}.
Definition with_have_info (v : Z) (o : instance) : instance :=
  {| dying := dying o; up := up o; have_pipe := have_pipe o; have_info := v;
     info_have_bssid := info_have_bssid o; info_bssid := info_bssid o;
     info_ssid := info_ssid o |}.
Definition with_info_have_bssid (v : Z) (o : instance) : instance :=
  {| dying := dying o; up := up o; have_pipe := have_pipe o; have_info := have_info o;
     info_have_bssid := v; info_bssid := info_bssid o;
     info_ssid := info_ssid o |}.
Definition with_info_bssid (v : list Z) (o : instance) : instance :=
  {| dying := dying o; up := up o; have_pipe := have_pipe o; have_info := have_info o;
     info_have_bssid := info_have_bssid o; info_bssid := v;
     info_ssid := info_ssid o |}.
Definition with_info_ssid (v : option (list ascii)) (o : instance) : instance :=
  {| dying := dying o; up := up o; have_pipe := have_pipe o; have_info := have_info o;
     info_have_bssid := info_have_bssid o; info_bssid := info_bssid o;
     info_ssid := v |}.

(** [init_info] (lines 250-272).  [alloc_ok] tells whether [BAllocSize]
    returns a buffer.  The result is the [int] returned. *)
Definition init_info (alloc_ok : bool) (have_bssid : Z) (bssid : list Z)
    (ssid : list ascii) : W Z :=
  h ← get have_info;
  ASSERT (h =? 0);;
  set (with_info_have_bssid have_bssid);;
  (if have_bssid =? 0 then mret tt else set (with_info_bssid (take 6 bssid)));;
  call (E_BAllocSize (Z.of_nat (length ssid) + 1) alloc_ok);;
  if alloc_ok then
    set (with_info_ssid (Some ssid));;
    set (with_have_info 1);;
    mret 1
  else
    set (with_info_ssid None);;
    ModuleLog BLOG_ERROR "BAllocSize failed";;
    mret 0.

(** [free_info] (lines 274-283). *)
Definition free_info : W unit :=
  h ← get have_info;
  ASSERT (negb (h =? 0));;
  call E_BFree;;
  set (with_have_info 0).

(** [process_error] (lines 285-288). *)
Definition process_error : W unit := call E_BInputProcess_Terminate.

(** [process_handler_closed] (lines 303-321). *)
Definition process_handler_closed (is_error : Z) : W unit :=
  p ← get have_pipe;
  ASSERT (negb (p =? 0));;
  (if is_error =? 0 then ModuleLog BLOG_INFO "pipe closed"
   else ModuleLog BLOG_ERROR "pipe error");;
  call E_LineBuffer_Free;;
  call E_PacketPassInterface_Free;;
  set (with_have_pipe 0).

Section Handlers.
Variable data_begins_with : list ascii -> string -> nat.

(** [process_pipe_handler_send] (lines 323-382), called with one line of the
    output of the daemon. *)
Definition process_pipe_handler_send (alloc_ok : bool) (data : list ascii) : W unit :=
  p ← get have_pipe;
  ASSERT (negb (p =? 0));;
  ASSERT (0 <? Z.of_nat (length data));;
  call E_PacketPassInterface_Done;;
  d ← get dying;
  if negb (d =? 0) then mret tt else
  let trying :=
    match parse_trying data_begins_with data with
    | Some (bssid, ssid) => Some (1, bssid, ssid)
    | None =>
        match parse_trying_nobssid data_begins_with data with
        | Some ssid => Some (0, [], ssid)
        | None => None
        end
    end in
  match trying with
  | Some (have_bssid, bssid, ssid) =>
      ModuleLog BLOG_INFO "trying event";;
      u ← get up;
      if negb (u =? 0) then
        ModuleLog BLOG_ERROR "trying unexpected!";;
        process_error
      else
        h ← get have_info;
        (if negb (h =? 0) then free_info else mret tt);;
        r ← init_info alloc_ok have_bssid bssid ssid;
        if r =? 0 then
          ModuleLog BLOG_ERROR "init_info failed";;
          process_error
        else mret tt
  | None =>
      if negb (Nat.eqb (data_begins_with data EVENT_STRING_CONNECTED) 0) then
        ModuleLog BLOG_INFO "connected event";;
        u ← get up;
        h ← get have_info;
        if negb (u =? 0) || (h =? 0) then
          ModuleLog BLOG_ERROR "connected unexpected!";;
          process_error
        else
          set (with_up 1);;
          call E_NCDModuleInst_Backend_Up
      else if negb (Nat.eqb (data_begins_with data EVENT_STRING_DISCONNECTED) 0) then
        ModuleLog BLOG_INFO "disconnected event";;
        h ← get have_info;
        (if negb (h =? 0) then free_info else mret tt);;
        u ← get up;
        if negb (u =? 0) then
          set (with_up 0);;
          call E_NCDModuleInst_Backend_Down
        else mret tt
      else mret tt
  end.
End Handlers.

(** [instance_free] (lines 477-501). *)
Definition instance_free : W unit :=
  h ← get have_info;
  (if negb (h =? 0) then free_info else mret tt);;
  p ← get have_pipe;
  (if negb (p =? 0) then call E_LineBuffer_Free;; call E_PacketPassInterface_Free
   else mret tt);;
  call E_BInputProcess_Free;;
  call E_free;;
  call E_NCDModuleInst_Backend_Dead.

(** [process_handler_terminated] (lines 290-301). *)
Definition process_handler_terminated (normally : Z) (normally_exit_status : Z) : W unit :=
  d ← get dying;
  ModuleLog (if negb (d =? 0) then BLOG_INFO else BLOG_ERROR) "process terminated";;
  (if d =? 0 then call E_NCDModuleInst_Backend_SetError else mret tt);;
  instance_free.

(** [func_die] (lines 503-513). *)
Definition func_die : W unit :=
  d ← get dying;
  ASSERT (d =? 0);;
  call E_BInputProcess_Terminate;;
  set (with_dying 1).

(** What [sprintf] prints for the conversion [%02X] of a [uint8_t]: two
    capital hexadecimal digits. *)
Definition hex_digit (v : Z) : ascii :=
  match v with
  | 0 => "0" | 1 => "1" | 2 => "2" | 3 => "3" | 4 => "4" | 5 => "5" | 6 => "6"
  | 7 => "7" | 8 => "8" | 9 => "9" | 10 => "A" | 11 => "B" | 12 => "C"
  | 13 => "D" | 14 => "E" | _ => "F"
  end%char.
Definition print_02X (b : Z) : list ascii := [hex_digit (b / 16); hex_digit (b mod 16)].

(** The string that [func_getvar] prints into [str] for the BSSID [id]
    (line 529). *)
Definition print_bssid (id : list Z) : list ascii :=
  print_02X (id !!! 0%nat) ++ ":"%char :: print_02X (id !!! 1%nat) ++ ":"%char ::
  print_02X (id !!! 2%nat) ++ ":"%char :: print_02X (id !!! 3%nat) ++ ":"%char ::
  print_02X (id !!! 4%nat) ++ ":"%char :: print_02X (id !!! 5%nat).

(** The C string that starts at the first character of [s]: what precedes
    the first NUL. *)
Fixpoint c_string (s : list ascii) : list ascii :=
  match s with
  | [] => []
  | c :: s => if Ascii.eqb c zero then [] else c :: c_string s
  end.

(** [func_getvar] (lines 515-549).  [init_ok] tells whether
    [NCDValue_InitString] succeeds; the result is the string stored in
    [out], or [None] where the C function returns 0. *)
Definition func_getvar (init_ok : bool) (name : string) : W (option (list ascii)) :=
  u ← get up;
  ASSERT (negb (u =? 0));;
  h ← get have_info;
  ASSERT (negb (h =? 0));;
  if String.eqb name "bssid" then
    hb ← get info_have_bssid;
    id ← get info_bssid;
    let str := if hb =? 0 then String.list_ascii_of_string "none" else print_bssid id in
    call (E_NCDValue_InitString str);;
    if init_ok then mret (Some str)
    else ModuleLog BLOG_ERROR "NCDValue_InitString failed";; mret None
  else if String.eqb name "ssid" then
    s ← get info_ssid;
    match s with
    | None => (fun _ => None) : W (option (list ascii))
    | Some s =>
        call (E_NCDValue_InitString (c_string s));;
        if init_ok then mret (Some (c_string s))
        else ModuleLog BLOG_ERROR "NCDValue_InitString failed";; mret None
    end
  else mret None.


(** ** Runs and what the properties speak of *)

(** What the callers of [data_begins_with] rely on: the result is the length
    of the string when the data begin with it, and 0 when they do not. *)
Definition begins_with_contract (f : list ascii -> string -> nat) : Prop :=
  forall data s,
    f data s = if decide (String.list_ascii_of_string s `prefix_of` data)
               then String.length s else 0%nat.

(** A function that meets the contract. *)
Definition prefix_length (data : list ascii) (s : string) : nat :=
  if decide (String.list_ascii_of_string s `prefix_of` data)
  then String.length s else 0%nat.

(** The line handler called on every line of a list, each with the outcome
    of the allocation it may make. *)
Fixpoint process_lines (f : list ascii -> string -> nat)
    (lines : list (bool * list ascii)) : W unit :=
  match lines with
  | [] => mret tt
  | (alloc_ok, data) :: lines =>
      process_pipe_handler_send f alloc_ok data;; process_lines f lines
  end.

(** The instance as the framework and the allocator see it. *)
Definition is_up (o : instance) : bool := negb (up o =? 0).
Definition buffers_of (o : instance) : nat := if have_info o =? 0 then 0%nat else 1%nat.

(** The state of the module in the framework after a trace: [Backend_Up]
    is only legal when the module is down and [Backend_Down] when it is up. *)
Fixpoint framework_up (u : bool) (tr : list event) : option bool :=
  match tr with
  | [] => Some u
  | E_NCDModuleInst_Backend_Up :: tr => if u then None else framework_up true tr
  | E_NCDModuleInst_Backend_Down :: tr => if u then framework_up false tr else None
  | _ :: tr => framework_up u tr
  end.

(** The number of buffers allocated and not freed after a trace, starting
    from [n]; [None] when [BFree] is called with no buffer left. *)
Fixpoint buffers (n : nat) (tr : list event) : option nat :=
  match tr with
  | [] => Some n
  | E_BAllocSize _ true :: tr => buffers (S n) tr
  | E_BFree :: tr => match n with O => None | S n => buffers n tr end
  | _ :: tr => buffers n tr
  end.

(** The invariant of the instance: a module that is up has its information,
    and the information comes with its string. *)
Definition inst_ok (o : instance) : Prop :=
  (up o <> 0 -> have_info o <> 0) /\ (have_info o <> 0 -> is_Some (info_ssid o)).

(** The two forms of the line that announces an association, and a line
    that reports it. *)
Definition trying_line (id : list Z) (ssid tail : list ascii) : list ascii :=
  String.list_ascii_of_string "Trying to associate with " ++ print_bssid id ++
  String.list_ascii_of_string " (SSID='" ++ ssid ++ "'"%char :: tail.
Definition trying_nobssid_line (ssid tail : list ascii) : list ascii :=
  String.list_ascii_of_string "Trying to associate with SSID '" ++
  ssid ++ "'"%char :: tail.
Definition connected_line (tail : list ascii) : list ascii :=
  String.list_ascii_of_string EVENT_STRING_CONNECTED ++ tail.

(** The calls made for such a line followed by a line that reports the
    association, on an instance that is down. *)
Definition association_trace (o : instance) (ssid : list ascii) : list event :=
  [E_PacketPassInterface_Done; E_ModuleLog BLOG_INFO "trying event"] ++
  (if have_info o =? 0 then [] else [E_BFree]) ++
  [E_BAllocSize (Z.of_nat (length ssid) + 1) true;
   E_PacketPassInterface_Done; E_ModuleLog BLOG_INFO "connected event";
   E_NCDModuleInst_Backend_Up].

(** An instance as [func_new] leaves it, and lines of the daemon. *)
Definition o_new : instance :=
  {| dying := 0; up := 0; have_pipe := 1; have_info := 0; info_have_bssid := 0;
     info_bssid := [0; 0; 0; 0; 0; 0]; info_ssid := None |}.
Definition line_trying : list ascii :=
  String.list_ascii_of_string
    "Trying to associate with 01:B2:C3:04:E5:F6 (SSID='Some SSID' freq=2462 MHz)".
Definition line_trying_nobssid : list ascii :=
  String.list_ascii_of_string "Trying to associate with SSID 'Some SSID'".
Definition line_connected : list ascii :=
  String.list_ascii_of_string "CTRL-EVENT-CONNECTED - Connection to 01:b2:c3:04:e5:f6 completed".
Definition id_demo : list Z := [1; 178; 195; 4; 229; 246].
Definition ssid_demo : list ascii := String.list_ascii_of_string "Joe's net".
Definition tail_demo : list ascii := String.list_ascii_of_string " freq=2462 MHz)".
Definition line_disconnected : list ascii :=
  String.list_ascii_of_string "CTRL-EVENT-DISCONNECTED bssid=01:b2:c3:04:e5:f6 reason=3".

End Wpa.

(** * Byte order *)

Lemma byte_val_range (b : byte) : 0 <= byte_val b < 256.
Proof.
  unfold byte_val. pose proof (Byte.to_N_bounded b). lia.
Qed.

Lemma lor_shiftl_8 (lo hi : Z) :
  0 <= lo < 256 -> 0 <= hi -> Z.lor lo (Z.shiftl hi 8) = lo + 256 * hi.
Proof.
  intros Hlo Hhi.
  assert (Hdisj : Z.land lo (Z.shiftl hi 8) = 0).
  { apply Z.bits_inj'. intros n Hn.
    rewrite Z.land_spec, Z.bits_0.
    destruct (Z.lt_ge_cases n 8) as [Hlt | Hge].
    - rewrite Z.shiftl_spec_low by lia. apply andb_false_r.
    - destruct (Z.eq_dec lo 0) as [-> | Hnz].
      + now rewrite Z.bits_0.
      + rewrite (Z.bits_above_log2 lo n); [reflexivity | lia |].
        assert (Z.log2 lo < 8) by (apply Z.log2_lt_pow2; lia). lia. }
  rewrite <- Z.lxor_lor by exact Hdisj.
  rewrite <- Z.add_nocarry_lxor by exact Hdisj.
  rewrite Z.shiftl_mul_pow2 by lia. change (2 ^ 8) with 256. lia.
Qed.

Lemma host16_little (b0 b1 : byte) : host16 LittleEndian b0 b1 = le16 b0 b1.
Proof.
  unfold host16, le16. pose proof (byte_val_range b0). pose proof (byte_val_range b1).
  now apply lor_shiftl_8.
Qed.

Lemma host16_big (b0 b1 : byte) : host16 BigEndian b0 b1 = le16 b1 b0.
Proof.
  unfold host16, le16. pose proof (byte_val_range b0). pose proof (byte_val_range b1).
  rewrite Z.lor_comm. now apply lor_shiftl_8.
Qed.

Lemma reverse16_le16 (b0 b1 : byte) : reverse16 (le16 b1 b0) = le16 b0 b1.
Proof.
  pose proof (byte_val_range b0) as H0. pose proof (byte_val_range b1) as H1.
  unfold reverse16.
  change 255 with (Z.ones 8).
  rewrite !Z.land_ones, Z.shiftr_div_pow2 by lia.
  change (2 ^ 8) with 256. unfold le16.
  replace (byte_val b1 + 256 * byte_val b0) with (byte_val b1 + byte_val b0 * 256) by lia.
  rewrite Z.div_add, Z.mod_add by lia.
  rewrite (Z.div_small (byte_val b1)), (Z.mod_small (byte_val b1)) by lia.
  rewrite (Z.mod_small (0 + byte_val b0)) by lia.
  rewrite Z.lor_comm, lor_shiftl_8 by lia. lia.
Qed.

(** A field read through [ltoh16] has its little-endian value whatever the
    byte order of the machine. *)
Lemma ltoh16_host16 (host : byte_order) (b0 b1 : byte) :
  ltoh16 host (host16 host b0 b1) = le16 b0 b1.
Proof.
  destruct host; unfold ltoh16.
  - apply host16_little.
  - rewrite host16_big. apply reverse16_le16.
Qed.

(** * Running computations *)

Section Spec.
Context {A B : Type}.
Implicit Types (w : world) (tr : list event).

Lemma spec_ret (a : A) w (P : A -> list event -> Prop) :
  P a [] -> spec (ret a) w P.
Proof. intros H. unfold spec, ret. auto. Qed.

Lemma spec_bind (m : M A) (k : A -> M B) w (P : B -> list event -> Prop) :
  spec m w (fun a tr1 => spec (k a) w (fun b tr2 => P b (tr1 ++ tr2))) ->
  spec (bind m k) w P.
Proof.
  unfold spec, bind. destruct (m w) as [|a w1 tr1]; [tauto|].
  intros [-> H]. destruct (k a w) as [|b w2 tr2]; [tauto|]. exact H.
Qed.

Lemma spec_run (m : M A) w a tr (P : A -> list event -> Prop) :
  m w = Ok a w tr -> P a tr -> spec m w P.
Proof. intros Hm H. unfold spec. rewrite Hm. auto. Qed.

Lemma spec_from_option (o : option A) a w (P : A -> list event -> Prop) :
  o = Some a -> P a [] -> spec (from_option o) w P.
Proof. intros -> H. now apply spec_ret. Qed.

Lemma spec_elim (m : M A) w (P : A -> list event -> Prop) :
  spec m w P -> exists a tr, m w = Ok a w tr /\ P a tr.
Proof.
  unfold spec. destruct (m w) as [|a w' tr]; [tauto|].
  intros [-> H]. eauto.
Qed.

Lemma spec_mono (m : M A) w (P Q : A -> list event -> Prop) :
  (forall a tr, P a tr -> Q a tr) -> spec m w P -> spec m w Q.
Proof.
  unfold spec. destruct (m w); [tauto|]. intros HPQ [? ?]. auto.
Qed.
End Spec.

Lemma spec_call (e : event) w (P : unit -> list event -> Prop) :
  P tt [e] -> spec (call e) w P.
Proof. intros H. unfold spec, call. auto. Qed.

Lemma spec_BLog level fmt args w (P : unit -> list event -> Prop) :
  P tt [E_BLog level fmt args] -> spec (BLog level fmt args) w P.
Proof. apply spec_call. Qed.

Lemma spec_ASSERT (b : bool) w (P : unit -> list event -> Prop) :
  b = true -> P tt [] -> spec (ASSERT b) w P.
Proof. intros -> H. now apply spec_ret. Qed.

Lemma spec_get_device p d w (P : Device.t -> list event -> Prop) :
  devices w !! p = Some d -> P d [] -> spec (get_device p) w P.
Proof. intros Hd H. unfold spec, get_device. rewrite Hd. simpl. auto. Qed.

Lemma spec_get_peer p x w (P : Peer.t -> list event -> Prop) :
  peers w !! p = Some x -> P x [] -> spec (get_peer p) w P.
Proof. intros Hp H. unfold spec, get_peer. rewrite Hp. simpl. auto. Qed.

Lemma spec_get_receiver p r w (P : Receiver.t -> list event -> Prop) :
  receivers w !! p = Some r -> P r [] -> spec (get_receiver p) w P.
Proof. intros Hr H. unfold spec, get_receiver. rewrite Hr. simpl. auto. Qed.

Lemma spec_load8 (b : byte) (rest : list byte) w (P : Z -> list event -> Prop) :
  P (byte_val b) [] -> spec (load8 (b :: rest) 0) w P.
Proof. intros H. unfold load8. simpl. now apply spec_ret. Qed.

(** * The scan of the peers list *)

Lemma find_peer_from_spec (w : world) (nodes : list ptr) (id : Z) :
  Forall (fun node => is_Some (peers w !! node)) nodes ->
  spec (find_peer_from nodes id) w (fun res tr => tr = [] /\ found w nodes id res).
Proof.
  induction nodes as [|node rest IH]; intros Hvalid.
  - apply spec_ret. split; [reflexivity|]. intros m q Hm. inversion Hm.
  - inversion Hvalid as [|? ? [p Hp] Hrest]; subst.
    simpl. apply spec_bind. eapply spec_get_peer; [exact Hp|].
    destruct (Z.eqb_spec (Peer.peer_id p) id) as [Heq | Hne].
    + apply spec_ret. split; [reflexivity|].
      exists [], rest, p. repeat split; auto.
      intros m q Hm. inversion Hm.
    + eapply spec_mono; [|apply IH; exact Hrest].
      intros res tr [-> Hfound]. split; [reflexivity|].
      destruct res as [n|]; simpl in *.
      * destruct Hfound as (before & after & q & -> & Hq & Hid & Hfirst).
        exists (node :: before), after, q. repeat split; auto.
        intros m q' Hm Hq'. apply elem_of_cons in Hm as [-> | Hm].
        -- rewrite Hp in Hq'. injection Hq' as <-. exact Hne.
        -- eauto.
      * intros m q Hm Hq. apply elem_of_cons in Hm as [-> | Hm].
        -- rewrite Hp in Hq. injection Hq as <-. exact Hne.
        -- eauto.
Qed.

Lemma find_peer_spec (w : world) (dev : ptr) (d : Device.t) (id : Z) :
  devices w !! dev = Some d ->
  Forall (fun node => is_Some (peers w !! node)) (Device.peers_list d) ->
  spec (find_peer dev id) w
    (fun res tr => tr = [E_find_peer dev id] /\ found w (Device.peers_list d) id res).
Proof.
  intros Hd Hvalid. unfold find_peer.
  apply spec_bind, spec_call.
  apply spec_bind. eapply spec_get_device; [exact Hd|].
  eapply spec_mono; [|apply find_peer_from_spec; exact Hvalid].
  intros res tr [-> Hf]. auto.
Qed.

(** * Symbolic execution of the handler *)

Lemma spec_load16 (host : byte_order) (data : list byte) (off : nat) (b0 b1 : byte) w
    (P : Z -> list event -> Prop) :
  data !! off = Some b0 -> data !! S off = Some b1 ->
  P (host16 host b0 b1) [] -> spec (load16 host data off) w P.
Proof.
  intros H0 H1 H. unfold load16. rewrite H0, H1. simpl. now apply spec_ret.
Qed.

Lemma spec_find_peer (w : world) (dev : ptr) (d : Device.t) (id : Z)
    (P : option ptr -> list event -> Prop) :
  devices w !! dev = Some d ->
  Forall (fun node => is_Some (peers w !! node)) (Device.peers_list d) ->
  (forall node p,
      found w (Device.peers_list d) id (Some node) ->
      peers w !! node = Some p -> Peer.peer_id p = id ->
      P (Some node) [E_find_peer dev id]) ->
  (found w (Device.peers_list d) id None -> P None [E_find_peer dev id]) ->
  spec (find_peer dev id) w P.
Proof.
  intros Hd Hvalid Hsome Hnone.
  eapply spec_mono; [|eapply find_peer_spec; eauto].
  intros [node|] tr [-> Hf]; [|auto].
  pose proof Hf as (before & after & p & _ & Hp & Hid & _). eauto.
Qed.

Lemma data_len_nil : data_len [] = 0.
Proof. reflexivity. Qed.

Lemma data_len_cons (b : byte) (l : list byte) : data_len (b :: l) = 1 + data_len l.
Proof. unfold data_len. simpl length. lia. Qed.

Lemma data_len_nonneg (l : list byte) : 0 <= data_len l.
Proof. unfold data_len. lia. Qed.

Ltac norm_len :=
  repeat rewrite data_len_cons in *; repeat rewrite data_len_nil in *;
  repeat match goal with
         | |- context [data_len ?l] =>
             lazymatch goal with
             | _ : 0 <= data_len l |- _ => fail
             | _ => pose proof (data_len_nonneg l)
             end
         | _ : context [data_len ?l] |- _ =>
             lazymatch goal with
             | _ : 0 <= data_len l |- _ => fail
             | _ => pose proof (data_len_nonneg l)
             end
         end.

Ltac len_lia :=
  norm_len;
  unfold sizeof_dataproto_header, sizeof_peerid_t in *;
  lia.

Ltac absurd_len := exfalso; (congruence || len_lia).

Ltac case_cond c :=
  lazymatch c with
  | (if ?c' then _ else _) => case_cond c'
  | negb ?c' => case_cond c'
  | andb ?c1 _ => case_cond c1
  | orb ?c1 _ => case_cond c1
  | Z.ltb ?a ?b => destruct (Z.ltb_spec a b)
  | Z.leb ?a ?b => destruct (Z.leb_spec a b)
  | Z.gtb ?a ?b => rewrite (Z.gtb_ltb a b); destruct (Z.ltb_spec b a)
  | Z.eqb ?a ?b => destruct (Z.eqb_spec a b)
  | Pos.eqb ?a ?b => destruct (Pos.eqb_spec a b)
  | _ => destruct c eqn:?
  end;
  cbn [negb andb orb].

Ltac step :=
  lazymatch goal with
  | |- spec (let _ := _ in _) _ _ => cbv zeta
  | |- spec (bind _ _) _ _ => apply spec_bind
  | |- spec (ret _) _ _ => apply spec_ret
  | |- spec (call _) _ _ => apply spec_call
  | |- spec (BLog _ _ _) _ _ => apply spec_BLog
  | |- spec (ASSERT _) _ _ => apply spec_ASSERT; [apply Z.leb_le; len_lia|]
  | |- spec (from_option _) _ _ =>
      eapply spec_from_option; [first [eassumption | reflexivity]|]
  | |- spec (get_receiver _) _ _ => eapply spec_get_receiver; [eassumption|]
  | |- spec (get_device _) _ _ => eapply spec_get_device; [eassumption|]
  | |- spec (get_peer _) _ _ => eapply spec_get_peer; [eassumption|]
  | |- spec (load8 _ _) _ _ => apply spec_load8
  | |- spec (load16 _ _ _) _ _ => eapply spec_load16; [reflexivity|reflexivity|]
  | |- spec (find_peer _ _) _ _ =>
      first
        [ eapply spec_run; [eassumption|]
        | eapply spec_find_peer; [eassumption|eassumption|intros ? ? ? ? ?|intros ?] ]
  | |- spec (if ?c then _ else _) _ _ => case_cond c
  | |- spec (match ?x with _ => _ end) _ _ => destruct x eqn:?
  end;
  cbn [drop skipn data local src_peer relay_dest_peer];
  rewrite ?skipn_O, ?ltoh16_host16;
  try match goal with
      | H : Receiver.device ?r = _ |- context [Receiver.device ?r] => rewrite H
      end;
  try absurd_len.

Lemma land_1_testbit (x : Z) :
  (if Z.land x DATAPROTO_FLAGS_RECEIVING_KEEPALIVES =? 0 then 0 else 1)
  = (if Z.testbit x 0 then 1 else 0).
Proof.
  unfold DATAPROTO_FLAGS_RECEIVING_KEEPALIVES.
  change 1 with (Z.ones 1) at 1. rewrite Z.land_ones by lia.
  rewrite Z.bit0_eqb. change (2 ^ 1) with 2.
  pose proof (Z.mod_pos_bound x 2 ltac:(lia)).
  destruct (Z.eqb_spec (x mod 2) 0), (Z.eqb_spec (x mod 2) 1); lia.
Qed.

Lemma found_run (w : world) (nodes : list ptr) (id : Z) (res : option ptr) :
  Forall (fun node => is_Some (peers w !! node)) nodes ->
  found w nodes id res ->
  find_peer_from nodes id w = Ok res w [].
Proof.
  induction nodes as [|n rest IH]; intros Hv Hf.
  - destruct res as [m|]; [|reflexivity].
    destruct Hf as (b & a & p & Heq & _). destruct b; discriminate.
  - inversion Hv as [|? ? [p Hp] Hrest]; subst.
    simpl. unfold bind, get_peer. rewrite Hp. simpl.
    destruct (Z.eqb_spec (Peer.peer_id p) id) as [Heq | Hne].
    + destruct res as [m|].
      * destruct Hf as (b & a & q & Hl & Hq & Hid & Hfirst).
        destruct b as [|x b]; simpl in Hl; injection Hl as Hx Hl; subst.
        -- reflexivity.
        -- exfalso. eapply (Hfirst x p); [apply list_elem_of_here|exact Hp|exact Heq].
      * exfalso. eapply (Hf n p); [apply list_elem_of_here|exact Hp|exact Heq].
    + rewrite (IH Hrest); [reflexivity|].
      destruct res as [m|].
      * destruct Hf as (b & a & q & Hl & Hq & Hid & Hfirst).
        destruct b as [|x b]; simpl in Hl; injection Hl as Hx Hl; subst.
        -- rewrite Hp in Hq. injection Hq as <-. contradiction.
        -- exists b, a, q. repeat split; auto.
           intros m' q' Hm'. apply Hfirst. now apply list_elem_of_further.
      * intros m q Hm. apply Hf. now apply list_elem_of_further.
Qed.

Lemma found_inj (w : world) (nodes : list ptr) (id : Z) (r1 r2 : option ptr) :
  Forall (fun node => is_Some (peers w !! node)) nodes ->
  found w nodes id r1 -> found w nodes id r2 -> r1 = r2.
Proof.
  intros Hv H1 H2.
  pose proof (found_run w nodes id r1 Hv H1) as E1.
  pose proof (found_run w nodes id r2 Hv H2) as E2.
  congruence.
Qed.

Lemma found_elem (w : world) (nodes : list ptr) (id : Z) (node : ptr) :
  found w nodes id (Some node) -> node ∈ nodes.
Proof.
  intros (b & a & p & -> & _). apply elem_of_app. right. apply list_elem_of_here.
Qed.

(** With unique IDs, looking up the ID of a registered peer finds it. *)
Lemma found_unique (w : world) (nodes : list ptr) (id : Z) (x : ptr) (px : Peer.t)
    (res : option ptr) :
  unique_ids w nodes -> x ∈ nodes -> peers w !! x = Some px -> Peer.peer_id px = id ->
  found w nodes id res -> res = Some x.
Proof.
  intros Huniq Hx Hpx Hid Hf. destruct res as [m|].
  - pose proof (found_elem _ _ _ _ Hf) as Hm.
    destruct Hf as (b & a & q & _ & Hq & Hqid & _).
    f_equal. apply (Huniq m x q px); auto. congruence.
  - exfalso. exact (Hf x px Hx Hpx Hid).
Qed.

(** * The small configuration *)

Lemma demo_pre_20 (packet : list byte) :
  data_len packet <= 11 -> handler_pre w_demo 20 packet r20 10 peer10 dev_demo.
Proof.
  intros Hlen. split; try (vm_compute; reflexivity).
  - repeat constructor; eexists; vm_compute; reflexivity.
  - exact Hlen.
Qed.

Lemma demo_pre_21 (packet : list byte) :
  data_len packet <= 11 -> handler_pre w_demo 21 packet r21 11 peer11 dev_demo.
Proof.
  intros Hlen. split; try (vm_compute; reflexivity).
  - repeat constructor; eexists; vm_compute; reflexivity.
  - exact Hlen.
Qed.

Lemma demo_unique_ids : unique_ids w_demo (Device.peers_list dev_demo).
Proof.
  intros a b pa pb Ha Hb Hpa Hpb Hid. simpl in Ha, Hb.
  repeat (apply elem_of_cons in Ha as [-> | Ha]);
    repeat (apply elem_of_cons in Hb as [-> | Hb]);
    try reflexivity;
    try (apply elem_of_nil in Ha; contradiction);
    try (apply elem_of_nil in Hb; contradiction);
    vm_compute in Hpa, Hpb;
    injection Hpa as <-; injection Hpb as <-; discriminate Hid.
Qed.

(** * Local delivery *)

Ltac by_spec :=
  match goal with
  | |- ?m ?w0 = Ok tt ?w0 ?t =>
      let H := fresh in
      let tr := fresh "tr" in
      cut (spec m w0 (fun _ tr => tr = t));
      [intros H; apply spec_elim in H as ([] & tr & -> & ->); reflexivity|]
  end.

Ltac finish_trace :=
  unfold notification, receiving_keepalives;
  repeat match goal with
         | H : Peer.dp_sink _ = _ |- _ => rewrite H
         end;
  unfold ltoh8; rewrite ?land_1_testbit; reflexivity.

(** C1.  A frame with a complete header, destination count 1, the
    destination ID present, a payload no longer than the device MTU, a
    source ID that [find_peer] resolves, received while the device has its own
    ID set and the destination ID (as the handler reads it) equal to it: the
    handler notifies the attached sink if there is one, looks the source up,
    calls the analyzer of the source peer on the payload, releases the slot
    and passes exactly the payload to the output function.  Nothing is
    submitted to the relay router. *)
Theorem local_delivery (host : byte_order) (w : world) (o : ptr)
    (r : Receiver.t) (peer_ptr : ptr) (peer : Peer.t) (device : Device.t)
    (flags f0 f1 n0 n1 d0 d1 : byte) (payload : list byte) (src : ptr) (sp : Peer.t) :
  handler_pre w o (flags :: f0 :: f1 :: n0 :: n1 :: d0 :: d1 :: payload)
    r peer_ptr peer device ->
  le16 n0 n1 = 1 ->
  data_len payload <= Device.device_mtu device ->
  find_peer (Peer.device peer) (le16 f0 f1) w
    = Ok (Some src) w [E_find_peer (Peer.device peer) (le16 f0 f1)] ->
  peers w !! src = Some sp ->
  Device.have_peer_id device <> 0 ->
  host16 host d0 d1 = Device.peer_id device ->
  receiver_recv_handler_send host o
    (flags :: f0 :: f1 :: n0 :: n1 :: d0 :: d1 :: payload) w
  = Ok tt w
      (notification peer flags ++
       [E_find_peer (Peer.device peer) (le16 f0 f1);
        E_FrameDeciderPeer_Analyze (Peer.decider_peer sp) payload;
        E_PacketPassInterface_Done o;
        E_output_func (Device.output_func device) (Device.output_func_user device)
          payload]).
Proof.
  intros [Hr Hpp Hp Hd Hsame Hreg Hlen] Hnum Hmtu Hsrc Hsp Hhave Hto.
  by_spec.
  unfold receiver_recv_handler_send, check_and_route, route, out.
  repeat step; finish_trace.
Qed.

Lemma local_delivery_witness :
  receiver_recv_handler_send LittleEndian 20 pk_local w_demo
  = Ok tt w_demo
      [E_DataProtoSink_Received 50 1; E_find_peer 1 1;
       E_FrameDeciderPeer_Analyze 60 [xaa; xbb];
       E_PacketPassInterface_Done 20;
       E_output_func 100 101 [xaa; xbb]].
Proof.
  apply (local_delivery LittleEndian w_demo 20 r20 10 peer10 dev_demo
           x01 x01 x00 x01 x00 x07 x00 [xaa; xbb] 10 peer10).
  - apply demo_pre_20. vm_compute. discriminate.
  - reflexivity.
  - vm_compute. discriminate.
  - vm_compute. reflexivity.
  - vm_compute. reflexivity.
  - vm_compute. discriminate.
  - reflexivity.
Defined.

(** * Relaying *)

Lemma find_peer_registered (w : world) (dev : ptr) (d : Device.t) (id : Z)
    (x : ptr) (px : Peer.t) :
  devices w !! dev = Some d ->
  Forall (fun node => is_Some (peers w !! node)) (Device.peers_list d) ->
  unique_ids w (Device.peers_list d) ->
  x ∈ Device.peers_list d -> peers w !! x = Some px -> Peer.peer_id px = id ->
  find_peer dev id w = Ok (Some x) w [E_find_peer dev id].
Proof.
  intros Hd Hv Hu Hx Hpx Hid.
  destruct (spec_elim _ _ _ (find_peer_spec w dev d id Hd Hv)) as (res & tr & Hrun & -> & Hf).
  rewrite Hrun. f_equal. eapply found_unique; eauto.
Qed.

Lemma demo_self_relay :
  receiver_recv_handler_send LittleEndian 20 pk_self_relay w_demo
  = Ok tt w_demo
      [E_DataProtoSink_Received 50 0; E_find_peer 1 1; E_find_peer 1 1;
       E_BLog BLOG_WARNING "relay destination cannot be the source" [];
       E_PacketPassInterface_Done 20].
Proof. vm_compute. reflexivity. Qed.

(** C2, as stated, fails: a relay-capable peer that names itself both as
    source and as destination satisfies every condition of the claim (the
    destination resolves to a known peer and is not the device's own ID),
    and nothing is submitted. *)
Lemma relay_to_any_known_peer_fails :
  ~ (forall (host : byte_order) (w : world) (o : ptr)
       (r : Receiver.t) (peer_ptr : ptr) (peer : Peer.t) (device : Device.t)
       (flags f0 f1 n0 n1 d0 d1 : byte) (payload : list byte) (dest : ptr),
       handler_pre w o (flags :: f0 :: f1 :: n0 :: n1 :: d0 :: d1 :: payload)
         r peer_ptr peer device ->
       peer_ptr ∈ Device.peers_list device ->
       unique_ids w (Device.peers_list device) ->
       le16 n0 n1 = 1 ->
       data_len payload <= Device.device_mtu device ->
       find_peer (Peer.device peer) (host16 host d0 d1) w
         = Ok (Some dest) w [E_find_peer (Peer.device peer) (host16 host d0 d1)] ->
       ~ (Device.have_peer_id device <> 0 /\ host16 host d0 d1 = Device.peer_id device) ->
       Peer.is_relay_client peer <> 0 ->
       le16 f0 f1 = Peer.peer_id peer ->
       exists tr,
         receiver_recv_handler_send host o
           (flags :: f0 :: f1 :: n0 :: n1 :: d0 :: d1 :: payload) w = Ok tt w tr /\
         List.filter is_submit tr
           = [E_DPRelayRouter_SubmitFrame (Peer.device peer) peer_ptr dest payload
                (Device.relay_flow_buffer_size device)
                (Device.relay_flow_inactivity_time device)] /\
         List.filter is_output tr = []).
Proof.
  intros H.
  destruct (H LittleEndian w_demo 20%positive r20 10%positive peer10 dev_demo
              x00 x01 x00 x01 x00 x01 x00 [xcc] 10%positive)
    as (tr & Hrun & Hsub & _).
  - apply demo_pre_20. vm_compute. discriminate.
  - vm_compute. apply list_elem_of_here.
  - apply demo_unique_ids.
  - reflexivity.
  - vm_compute. discriminate.
  - vm_compute. reflexivity.
  - vm_compute. intros [_ Heq]. discriminate Heq.
  - vm_compute. discriminate.
  - reflexivity.
  - change (x00 :: x01 :: x00 :: x01 :: x00 :: x01 :: x00 :: [xcc]) with pk_self_relay in Hrun.
    rewrite demo_self_relay in Hrun. injection Hrun as <-.
    discriminate Hsub.
Qed.

(** C2, amended.  A frame with destination count 1 and a payload within the
    device MTU, received from a relay client that is registered under a
    unique ID and names itself as the source, whose destination ID is not
    the device's own ID and resolves to a peer other than the sender: after
    the notification of the sink and the two lookups the slot is released
    and exactly one frame is submitted to the relay router, from the relay
    source of the sender to the relay sink of the destination peer, with the
    buffer size and inactivity time of the device.  The output function is
    not called. *)
Theorem relay_submission (host : byte_order) (w : world) (o : ptr)
    (r : Receiver.t) (peer_ptr : ptr) (peer : Peer.t) (device : Device.t)
    (flags f0 f1 n0 n1 d0 d1 : byte) (payload : list byte) (dest : ptr) :
  handler_pre w o (flags :: f0 :: f1 :: n0 :: n1 :: d0 :: d1 :: payload)
    r peer_ptr peer device ->
  peer_ptr ∈ Device.peers_list device ->
  unique_ids w (Device.peers_list device) ->
  le16 n0 n1 = 1 ->
  data_len payload <= Device.device_mtu device ->
  find_peer (Peer.device peer) (host16 host d0 d1) w
    = Ok (Some dest) w [E_find_peer (Peer.device peer) (host16 host d0 d1)] ->
  ~ (Device.have_peer_id device <> 0 /\ host16 host d0 d1 = Device.peer_id device) ->
  Peer.is_relay_client peer <> 0 ->
  le16 f0 f1 = Peer.peer_id peer ->
  dest <> peer_ptr ->
  receiver_recv_handler_send host o
    (flags :: f0 :: f1 :: n0 :: n1 :: d0 :: d1 :: payload) w
  = Ok tt w
      (notification peer flags ++
       [E_find_peer (Peer.device peer) (le16 f0 f1);
        E_find_peer (Peer.device peer) (host16 host d0 d1);
        E_PacketPassInterface_Done o;
        E_DPRelayRouter_SubmitFrame (Peer.device peer) peer_ptr dest payload
          (Device.relay_flow_buffer_size device)
          (Device.relay_flow_inactivity_time device)]).
Proof.
  intros [Hr Hpp Hp Hd Hsame Hreg Hlen] Hin Huniq Hnum Hmtu Hdest Hnotlocal Hrelay Hfrom Hne.
  pose proof (find_peer_registered w _ device (le16 f0 f1) peer_ptr peer
                Hd Hreg Huniq Hin Hp (eq_sym Hfrom)) as Hsrc.
  by_spec.
  unfold receiver_recv_handler_send, check_and_route, route, out.
  repeat step; try tauto; finish_trace.
Qed.

Lemma relay_submission_witness :
  receiver_recv_handler_send LittleEndian 20 pk_relay w_demo
  = Ok tt w_demo
      [E_DataProtoSink_Received 50 0; E_find_peer 1 1; E_find_peer 1 2;
       E_PacketPassInterface_Done 20;
       E_DPRelayRouter_SubmitFrame 1 10 11 [xcc] 8 3000].
Proof.
  apply (relay_submission LittleEndian w_demo 20 r20 10 peer10 dev_demo
           x00 x01 x00 x01 x00 x02 x00 [xcc] 11).
  - apply demo_pre_20. vm_compute. discriminate.
  - vm_compute. apply list_elem_of_here.
  - apply demo_unique_ids.
  - reflexivity.
  - vm_compute. discriminate.
  - vm_compute. reflexivity.
  - vm_compute. intros [_ Heq]. discriminate Heq.
  - vm_compute. discriminate.
  - reflexivity.
  - discriminate.
Defined.

(** * The release of the slot *)

Lemma demo_local :
  receiver_recv_handler_send LittleEndian 20 pk_local w_demo
  = Ok tt w_demo
      [E_DataProtoSink_Received 50 1; E_find_peer 1 1;
       E_FrameDeciderPeer_Analyze 60 [xaa; xbb];
       E_PacketPassInterface_Done 20;
       E_output_func 100 101 [xaa; xbb]].
Proof. vm_compute. reflexivity. Qed.

Ltac all_shapes packet :=
  destruct packet as [|?fl [|?f0 [|?f1 [|?n0 [|?n1 [|?d0 [|?d1 ?payload]]]]]]].

(** Before the label [out] the handler only logs, notifies the sink, looks
    peers up and calls the analyzer. *)
Lemma check_and_route_shape (host : byte_order) (w : world)
    (peer_ptr : ptr) (peer : Peer.t) (device : Device.t) (packet : list byte) :
  devices w !! Peer.device peer = Some device ->
  Forall (fun node => is_Some (peers w !! node)) (Device.peers_list device) ->
  spec (check_and_route host peer_ptr peer (Peer.device peer) device packet) w
    (fun l tr => forallb before_release tr = true /\ locals_ok l).
Proof.
  intros Hd Hreg.
  unfold check_and_route, route.
  all_shapes packet; repeat step;
    (split; [reflexivity|]); unfold locals_ok; simpl;
    repeat split; auto; try discriminate;
    (eexists; split; [reflexivity | congruence]).
Qed.

(** After the label [out]: the release first, then at most one delivery and
    at most one submission. *)
Lemma out_shape (w : world) (o : ptr) (r : Receiver.t) (device_ptr : ptr)
    (device odev : Device.t) (l : locals) :
  devices w !! Receiver.device r = Some odev ->
  locals_ok l ->
  spec (out o r device_ptr device l) w
    (fun _ tr =>
       exists after,
         tr = E_PacketPassInterface_Done o :: after /\
         forallb after_release after = true /\
         forallb submit_ok after = true /\
         List.filter is_Done after = [] /\
         List.filter is_received after = [] /\
         (relay_dest_peer l = None -> List.filter is_submit after = [])).
Proof.
  intros Hodev (Hlocal & Hexcl & Hrelay).
  destruct l as [dat loc src rel]. simpl in *.
  unfold out. cbn [data local src_peer relay_dest_peer].
  destruct rel as [d|].
  - destruct Hrelay as (s & -> & Hne).
    apply Pos.eqb_neq in Hne.
    destruct Hlocal as [-> | ->]; [|specialize (Hexcl eq_refl); discriminate].
    repeat step. eexists. split; [reflexivity|].
    cbn. rewrite Hne. repeat split; auto. discriminate.
  - destruct Hlocal as [-> | ->]; repeat step;
      (eexists; split; [reflexivity|]); cbn; repeat split; auto.
Qed.

Lemma filter_forallb_false {X} (f : X -> bool) (l : list X) :
  forallb (fun x => negb (f x)) l = true -> List.filter f l = [].
Proof.
  induction l as [|x l IH]; simpl; [reflexivity|].
  destruct (f x); simpl; [discriminate|]. exact IH.
Qed.

Lemma before_release_no_Done (tr : list event) :
  forallb before_release tr = true -> List.filter is_Done tr = [].
Proof.
  intros H. apply filter_forallb_false.
  rewrite forallb_forall in *. intros e He. specialize (H e He).
  destruct e; try reflexivity; discriminate H.
Qed.

(** The prelude of the handler, up to the call of the routing code. *)
Lemma handler_split (host : byte_order) (w : world) (o : ptr) (packet : list byte)
    (r : Receiver.t) (peer_ptr : ptr) (peer : Peer.t) (device : Device.t)
    (P : unit -> list event -> Prop) :
  handler_pre w o packet r peer_ptr peer device ->
  spec (check_and_route host peer_ptr peer (Peer.device peer) device packet) w
    (fun l tr1 => spec (out o r (Peer.device peer) device l) w
                    (fun u tr2 => P u (tr1 ++ tr2))) ->
  spec (receiver_recv_handler_send host o packet) w P.
Proof.
  intros [Hr Hpp Hp Hd Hsame Hreg Hlen] H.
  unfold receiver_recv_handler_send.
  repeat step.
  eapply spec_mono; [|exact H].
  intros l tr1 H1. eapply spec_mono; [|exact H1].
  intros u tr2 H2. exact H2.
Qed.

(** The shape of every trace of the handler. *)
Lemma handler_shape (host : byte_order) (w : world) (o : ptr) (packet : list byte)
    (r : Receiver.t) (peer_ptr : ptr) (peer : Peer.t) (device : Device.t) :
  handler_pre w o packet r peer_ptr peer device ->
  exists before after,
    receiver_recv_handler_send host o packet w
      = Ok tt w (before ++ E_PacketPassInterface_Done o :: after) /\
    forallb before_release before = true /\
    forallb after_release after = true /\
    List.filter is_Done after = [].
Proof.
  intros Hpre.
  cut (spec (receiver_recv_handler_send host o packet) w
         (fun _ tr => exists before after,
              tr = before ++ E_PacketPassInterface_Done o :: after /\
              forallb before_release before = true /\
              forallb after_release after = true /\
              List.filter is_Done after = [])).
  { intros H. apply spec_elim in H as ([] & tr & Hrun & before & after & -> & H).
    exists before, after. auto. }
  eapply handler_split; [exact Hpre|].
  destruct Hpre as [Hr Hpp Hp Hd Hsame Hreg Hlen].
  eapply spec_mono; [|apply check_and_route_shape; eassumption].
  intros l tr1 [Hbefore Hok].
  eapply spec_mono; [|eapply out_shape; [rewrite Hsame; exact Hd | exact Hok]].
  intros _ tr2 (after & -> & Hafter & _ & HnoDone & _).
  exists tr1, after. auto.
Qed.

(** C3, as stated, fails: on local delivery the slot is released before the
    payload is passed to the output function, so the release is not the last
    thing the handler does. *)
Lemma release_is_last_fails :
  ~ (forall (host : byte_order) (w : world) (o : ptr) (packet : list byte)
       (r : Receiver.t) (peer_ptr : ptr) (peer : Peer.t) (device : Device.t),
       handler_pre w o packet r peer_ptr peer device ->
       exists tr,
         receiver_recv_handler_send host o packet w = Ok tt w tr /\
         count is_Done tr = 1%nat /\
         last tr = Some (E_PacketPassInterface_Done o)).
Proof.
  intros H.
  destruct (H LittleEndian w_demo 20%positive pk_local r20 10%positive peer10 dev_demo)
    as (tr & Hrun & _ & Hlast).
  - apply demo_pre_20. vm_compute. discriminate.
  - rewrite demo_local in Hrun. injection Hrun as <-. discriminate Hlast.
Qed.

(** C3, amended.  Every call of the handler that respects its preconditions
    returns, and releases the slot exactly once: the calls before the
    release are diagnostics, the notification of the sink, lookups and the
    analyzer; the release comes before the delivery to the output function
    and the submission to the relay router, which are the only calls that
    can follow it. *)
Theorem slot_released_once (host : byte_order) (w : world) (o : ptr) (packet : list byte)
    (r : Receiver.t) (peer_ptr : ptr) (peer : Peer.t) (device : Device.t) :
  handler_pre w o packet r peer_ptr peer device ->
  exists before after,
    receiver_recv_handler_send host o packet w
      = Ok tt w (before ++ E_PacketPassInterface_Done o :: after) /\
    count is_Done (before ++ E_PacketPassInterface_Done o :: after) = 1%nat /\
    forallb before_release before = true /\
    forallb after_release after = true.
Proof.
  intros Hpre.
  destruct (handler_shape host w o packet r peer_ptr peer device Hpre)
    as (before & after & Hrun & Hbefore & Hafter & HnoDone).
  exists before, after. repeat split; auto.
  unfold count. rewrite List.filter_app. simpl.
  rewrite (before_release_no_Done before Hbefore), HnoDone. reflexivity.
Qed.

Lemma slot_released_once_witness :
  exists before after,
    receiver_recv_handler_send LittleEndian 20 pk_local w_demo
      = Ok tt w_demo (before ++ E_PacketPassInterface_Done 20 :: after) /\
    count is_Done (before ++ E_PacketPassInterface_Done 20 :: after) = 1%nat /\
    forallb before_release before = true /\
    forallb after_release after = true.
Proof.
  apply (slot_released_once LittleEndian w_demo 20 pk_local r20 10 peer10 dev_demo).
  apply demo_pre_20. vm_compute. discriminate.
Defined.

(** * Notification of the sink *)

Lemma spec_conj {A} (m : M A) (w : world) (P Q : A -> list event -> Prop) :
  spec m w P -> spec m w Q -> spec m w (fun a tr => P a tr /\ Q a tr).
Proof.
  unfold spec. destruct (m w); [tauto|]. intros [? ?] [? ?]. auto.
Qed.

Ltac case_goal_conds :=
  repeat match goal with
         | |- context [if ?c then _ else _] =>
             lazymatch c with
             | Z.testbit _ _ => fail
             | _ => case_cond c
             end
         end.

(** Of the code before [out], exactly the frames that pass steps 2 to 5
    reach the notification. *)
Lemma check_and_route_received (host : byte_order) (w : world)
    (peer_ptr : ptr) (peer : Peer.t) (device : Device.t) (packet : list byte)
    (sink : ptr) :
  devices w !! Peer.device peer = Some device ->
  Forall (fun node => is_Some (peers w !! node)) (Device.peers_list device) ->
  Peer.dp_sink peer = Some sink ->
  spec (check_and_route host peer_ptr peer (Peer.device peer) device packet) w
    (fun _ tr =>
       List.filter is_received tr
       = if passes_steps_2_to_5 (Device.device_mtu device) packet
         then [E_DataProtoSink_Received sink (receiving_keepalives (hd x00 packet))]
         else []).
Proof.
  intros Hd Hreg Hsink.
  unfold check_and_route, route. rewrite Hsink.
  all_shapes packet; repeat step;
    cbn [passes_steps_2_to_5 hd];
    unfold ltoh8, receiving_keepalives; rewrite ?land_1_testbit;
    case_goal_conds; try absurd_len; reflexivity.
Qed.

(** C4.  For a peer with an attached sink, [DataProtoSink_Received] is
    called exactly when the buffer passes steps 2 to 5 (header present,
    destination count 0 or 1, destination ID present when the count is 1,
    remaining payload within the device MTU), then exactly once and with
    bit 0 of the flags byte; whatever the routing code does afterwards
    (unknown source, relaying refused, unknown destination, relay to the
    source itself) does not change this, and a destination count other
    than 0 and 1 suppresses the call. *)
Theorem sink_notification (host : byte_order) (w : world) (o : ptr) (packet : list byte)
    (r : Receiver.t) (peer_ptr : ptr) (peer : Peer.t) (device : Device.t) (sink : ptr) :
  handler_pre w o packet r peer_ptr peer device ->
  Peer.dp_sink peer = Some sink ->
  exists tr,
    receiver_recv_handler_send host o packet w = Ok tt w tr /\
    List.filter is_received tr
    = if passes_steps_2_to_5 (Device.device_mtu device) packet
      then [E_DataProtoSink_Received sink (receiving_keepalives (hd x00 packet))]
      else [].
Proof.
  intros Hpre Hsink.
  cut (spec (receiver_recv_handler_send host o packet) w
         (fun _ tr =>
            List.filter is_received tr
            = if passes_steps_2_to_5 (Device.device_mtu device) packet
              then [E_DataProtoSink_Received sink (receiving_keepalives (hd x00 packet))]
              else [])).
  { intros H. apply spec_elim in H as ([] & tr & Hrun & H). eauto. }
  eapply handler_split; [exact Hpre|].
  destruct Hpre as [Hr Hpp Hp Hd Hsame Hreg Hlen].
  eapply spec_mono;
    [|apply spec_conj;
       [apply check_and_route_shape; eassumption
       |eapply check_and_route_received; eassumption]].
  intros l tr1 [[_ Hok] Hrecv].
  eapply spec_mono; [|eapply out_shape; [rewrite Hsame; exact Hd | exact Hok]].
  intros _ tr2 (after & -> & _ & _ & _ & Hnone & _).
  rewrite List.filter_app. simpl. rewrite Hnone, app_nil_r. exact Hrecv.
Qed.

Lemma sink_notification_witness :
  exists tr,
    receiver_recv_handler_send LittleEndian 20 pk_unknown_dst w_demo = Ok tt w_demo tr /\
    List.filter is_received tr = [E_DataProtoSink_Received 50 0].
Proof.
  apply (sink_notification LittleEndian w_demo 20 pk_unknown_dst r20 10 peer10 dev_demo 50).
  - apply demo_pre_20. vm_compute. discriminate.
  - reflexivity.
Defined.

(** * No relay back to the source *)

Lemma check_and_route_self_relay (host : byte_order) (w : world)
    (peer_ptr : ptr) (peer : Peer.t) (device : Device.t)
    (flags f0 f1 n0 n1 d0 d1 : byte) (payload : list byte) :
  devices w !! Peer.device peer = Some device ->
  Forall (fun node => is_Some (peers w !! node)) (Device.peers_list device) ->
  le16 f0 f1 = host16 host d0 d1 ->
  spec (check_and_route host peer_ptr peer (Peer.device peer) device
          (flags :: f0 :: f1 :: n0 :: n1 :: d0 :: d1 :: payload)) w
    (fun l _ => relay_dest_peer l = None).
Proof.
  intros Hd Hreg Heq.
  unfold check_and_route, route.
  repeat step; try reflexivity;
    exfalso;
    match goal with
    | H1 : found _ _ (le16 f0 f1) (Some ?a),
      H2 : found _ _ (host16 host d0 d1) (Some ?b) |- _ =>
        rewrite <- Heq in H2;
        pose proof (found_inj _ _ _ _ _ Hreg H1 H2)
    end;
    congruence.
Qed.

Lemma check_and_route_self_relay_any (host : byte_order) (w : world)
    (peer_ptr : ptr) (peer : Peer.t) (device : Device.t) (packet : list byte) :
  devices w !! Peer.device peer = Some device ->
  Forall (fun node => is_Some (peers w !! node)) (Device.peers_list device) ->
  spec (check_and_route host peer_ptr peer (Peer.device peer) device packet) w
    (fun l _ =>
       forall flags f0 f1 n0 n1 d0 d1 payload,
         packet = flags :: f0 :: f1 :: n0 :: n1 :: d0 :: d1 :: payload ->
         le16 f0 f1 = host16 host d0 d1 ->
         relay_dest_peer l = None).
Proof.
  intros Hd Hreg.
  all_shapes packet;
    try (eapply spec_mono; [|apply check_and_route_shape; eassumption];
         intros l tr _ flags' f0' f1' n0' n1' d0' d1' payload' Hpk _; discriminate Hpk).
  destruct (Z.eq_dec (le16 f0 f1) (host16 host d0 d1)) as [Heq | Hne].
  - eapply spec_mono; [|apply check_and_route_self_relay; eassumption].
    intros l tr Hl flags' f0' f1' n0' n1' d0' d1' payload' _ _. exact Hl.
  - eapply spec_mono; [|apply check_and_route_shape; eassumption].
    intros l tr _ flags' f0' f1' n0' n1' d0' d1' payload' Hpk Heq.
    injection Hpk as -> -> -> -> -> -> -> ->. contradiction.
Qed.

Lemma submit_ok_distinct (tr : list event) :
  forallb submit_ok tr = true ->
  forall router s d payload size time,
    E_DPRelayRouter_SubmitFrame router s d payload size time ∈ tr -> s <> d.
Proof.
  intros H router s d payload size time Hin.
  rewrite forallb_forall in H. apply list_elem_of_In in Hin.
  specialize (H _ Hin). simpl in H.
  apply negb_true_iff, Pos.eqb_neq in H. exact H.
Qed.

Lemma before_release_submit_ok (tr : list event) :
  forallb before_release tr = true -> forallb submit_ok tr = true.
Proof.
  rewrite !forallb_forall. intros H e He. specialize (H e He).
  destruct e; try reflexivity. discriminate H.
Qed.

Lemma before_release_no_submit (tr : list event) :
  forallb before_release tr = true -> List.filter is_submit tr = [].
Proof.
  intros H. apply filter_forallb_false.
  rewrite forallb_forall in *. intros e He. specialize (H e He).
  destruct e; try reflexivity. discriminate H.
Qed.

(** C6.  Whatever the frame, a submission to the relay router names a
    destination peer different from the source peer; and a frame whose
    source ID and destination ID, as the handler reads them, are equal is
    never submitted, whether or not the receiving peer is a relay client. *)
Theorem no_self_relay (host : byte_order) (w : world) (o : ptr) (packet : list byte)
    (r : Receiver.t) (peer_ptr : ptr) (peer : Peer.t) (device : Device.t) :
  handler_pre w o packet r peer_ptr peer device ->
  exists tr,
    receiver_recv_handler_send host o packet w = Ok tt w tr /\
    (forall router s d payload size time,
        E_DPRelayRouter_SubmitFrame router s d payload size time ∈ tr -> s <> d) /\
    (forall flags f0 f1 n0 n1 d0 d1 payload,
        packet = flags :: f0 :: f1 :: n0 :: n1 :: d0 :: d1 :: payload ->
        le16 f0 f1 = host16 host d0 d1 ->
        List.filter is_submit tr = []).
Proof.
  intros Hpre.
  cut (spec (receiver_recv_handler_send host o packet) w
         (fun _ tr =>
            forallb submit_ok tr = true /\
            (forall flags f0 f1 n0 n1 d0 d1 payload,
                packet = flags :: f0 :: f1 :: n0 :: n1 :: d0 :: d1 :: payload ->
                le16 f0 f1 = host16 host d0 d1 ->
                List.filter is_submit tr = []))).
  { intros H. apply spec_elim in H as ([] & tr & Hrun & Hok & Hself).
    exists tr. repeat split; auto. now apply submit_ok_distinct. }
  eapply handler_split; [exact Hpre|].
  destruct Hpre as [Hr Hpp Hp Hd Hsame Hreg Hlen].
  eapply spec_mono;
    [|apply spec_conj;
       [apply check_and_route_shape; eassumption
       |apply check_and_route_self_relay_any; eassumption]].
  intros l tr1 [[Hbefore Hok] Hself].
  eapply spec_mono; [|eapply out_shape; [rewrite Hsame; exact Hd | exact Hok]].
  intros _ tr2 (after & -> & _ & Hsub & _ & _ & Hnone).
  split.
  - rewrite forallb_app. rewrite (before_release_submit_ok _ Hbefore). simpl. exact Hsub.
  - intros flags f0 f1 n0 n1 d0 d1 payload Hpk Heq.
    rewrite List.filter_app, (before_release_no_submit _ Hbefore). simpl.
    apply Hnone. eapply Hself; eauto.
Qed.

Lemma no_self_relay_witness :
  exists tr,
    receiver_recv_handler_send LittleEndian 20 pk_self_relay w_demo = Ok tt w_demo tr /\
    List.filter is_submit tr = [].
Proof.
  destruct (no_self_relay LittleEndian w_demo 20 pk_self_relay r20 10 peer10 dev_demo)
    as (tr & Hrun & _ & Hself).
  - apply demo_pre_20. vm_compute. discriminate.
  - exists tr. split; [exact Hrun|].
    apply (Hself x00 x01 x00 x01 x00 x01 x00 [xcc]); reflexivity.
Defined.

(** * Frames without a destination *)

(** C7.  A frame with a complete header, destination count 0 and a payload
    within the device MTU: the handler notifies the attached sink, if any,
    and releases the slot, and does nothing else: no lookup of the source
    peer, no analyzer, no delivery, no relay submission, and no diagnostic
    either. *)
Theorem no_destination_no_routing (host : byte_order) (w : world) (o : ptr)
    (r : Receiver.t) (peer_ptr : ptr) (peer : Peer.t) (device : Device.t)
    (flags f0 f1 n0 n1 : byte) (payload : list byte) :
  handler_pre w o (flags :: f0 :: f1 :: n0 :: n1 :: payload) r peer_ptr peer device ->
  le16 n0 n1 = 0 ->
  data_len payload <= Device.device_mtu device ->
  receiver_recv_handler_send host o (flags :: f0 :: f1 :: n0 :: n1 :: payload) w
  = Ok tt w (notification peer flags ++ [E_PacketPassInterface_Done o]).
Proof.
  intros [Hr Hpp Hp Hd Hsame Hreg Hlen] Hnum Hmtu.
  by_spec.
  unfold receiver_recv_handler_send, check_and_route, route, out.
  repeat step; finish_trace.
Qed.

Lemma no_destination_no_routing_witness :
  receiver_recv_handler_send LittleEndian 20 pk_no_dest w_demo
  = Ok tt w_demo [E_DataProtoSink_Received 50 1; E_PacketPassInterface_Done 20].
Proof.
  apply (no_destination_no_routing LittleEndian w_demo 20 r20 10 peer10 dev_demo
           x01 x01 x00 x00 x00 [xaa]).
  - apply demo_pre_20. vm_compute. discriminate.
  - reflexivity.
  - vm_compute. discriminate.
Defined.

(** * Unknown peers *)

Lemma demo_unknown_dst_from_2 :
  receiver_recv_handler_send LittleEndian 21 pk_unknown_dst_from_2 w_demo
  = Ok tt w_demo
      [E_find_peer 1 2; E_BLog BLOG_WARNING "relaying not allowed" [];
       E_PacketPassInterface_Done 21].
Proof. vm_compute. reflexivity. Qed.

(** C8, as stated, fails for relay attempts: when the frame is not for the
    device and its destination ID is not registered, but the receiving peer
    is not a relay client, the handler stops at the permission check and
    the only diagnostic is a warning. *)
Lemma unknown_destination_info_fails :
  ~ (forall (host : byte_order) (w : world) (o : ptr)
       (r : Receiver.t) (peer_ptr : ptr) (peer : Peer.t) (device : Device.t)
       (flags f0 f1 n0 n1 d0 d1 : byte) (payload : list byte) (src : ptr),
       handler_pre w o (flags :: f0 :: f1 :: n0 :: n1 :: d0 :: d1 :: payload)
         r peer_ptr peer device ->
       le16 n0 n1 = 1 ->
       data_len payload <= Device.device_mtu device ->
       find_peer (Peer.device peer) (le16 f0 f1) w
         = Ok (Some src) w [E_find_peer (Peer.device peer) (le16 f0 f1)] ->
       ~ (Device.have_peer_id device <> 0 /\ host16 host d0 d1 = Device.peer_id device) ->
       find_peer (Peer.device peer) (host16 host d0 d1) w
         = Ok None w [E_find_peer (Peer.device peer) (host16 host d0 d1)] ->
       exists tr,
         receiver_recv_handler_send host o
           (flags :: f0 :: f1 :: n0 :: n1 :: d0 :: d1 :: payload) w = Ok tt w tr /\
         List.filter is_analyze tr = [] /\
         List.filter is_output tr = [] /\
         List.filter is_submit tr = [] /\
         count is_Done tr = 1%nat /\
         count (is_log BLOG_INFO) tr = 1%nat /\
         count (is_log BLOG_WARNING) tr = 0%nat).
Proof.
  intros H.
  destruct (H LittleEndian w_demo 21%positive r21 11%positive peer11 dev_demo
              x00 x02 x00 x01 x00 x09 x00 [] 11%positive)
    as (tr & Hrun & _ & _ & _ & _ & Hinfo & _).
  - apply demo_pre_21. vm_compute. discriminate.
  - reflexivity.
  - vm_compute. discriminate.
  - vm_compute. reflexivity.
  - vm_compute. intros [_ Heq]. discriminate Heq.
  - vm_compute. reflexivity.
  - change [x00; x02; x00; x01; x00; x09; x00] with pk_unknown_dst_from_2 in Hrun.
    rewrite demo_unknown_dst_from_2 in Hrun. injection Hrun as <-.
    discriminate Hinfo.
Qed.

(** C8, amended.  For a frame with destination count 1 and a payload within
    the device MTU: if the source ID is not registered, the handler logs
    "source peer not known" at informational level and releases the slot;
    if the frame is not for the device, the receiving peer is a relay client
    and is the peer the source ID resolves to, and the destination ID is not
    registered, the handler logs "relay destination peer not known" at
    informational level and releases the slot.  In both cases there is no
    analyzer call, no delivery, no relay submission and no warning. *)
Theorem unknown_peer_dropped (host : byte_order) (w : world) (o : ptr)
    (r : Receiver.t) (peer_ptr : ptr) (peer : Peer.t) (device : Device.t)
    (flags f0 f1 n0 n1 d0 d1 : byte) (payload : list byte) :
  handler_pre w o (flags :: f0 :: f1 :: n0 :: n1 :: d0 :: d1 :: payload)
    r peer_ptr peer device ->
  le16 n0 n1 = 1 ->
  data_len payload <= Device.device_mtu device ->
  (find_peer (Peer.device peer) (le16 f0 f1) w
     = Ok None w [E_find_peer (Peer.device peer) (le16 f0 f1)] ->
   receiver_recv_handler_send host o
     (flags :: f0 :: f1 :: n0 :: n1 :: d0 :: d1 :: payload) w
   = Ok tt w
       (notification peer flags ++
        [E_find_peer (Peer.device peer) (le16 f0 f1);
         E_BLog BLOG_INFO "source peer %d not known" [le16 f0 f1];
         E_PacketPassInterface_Done o]))
  /\
  (find_peer (Peer.device peer) (le16 f0 f1) w
     = Ok (Some peer_ptr) w [E_find_peer (Peer.device peer) (le16 f0 f1)] ->
   ~ (Device.have_peer_id device <> 0 /\ host16 host d0 d1 = Device.peer_id device) ->
   Peer.is_relay_client peer <> 0 ->
   find_peer (Peer.device peer) (host16 host d0 d1) w
     = Ok None w [E_find_peer (Peer.device peer) (host16 host d0 d1)] ->
   receiver_recv_handler_send host o
     (flags :: f0 :: f1 :: n0 :: n1 :: d0 :: d1 :: payload) w
   = Ok tt w
       (notification peer flags ++
        [E_find_peer (Peer.device peer) (le16 f0 f1);
         E_find_peer (Peer.device peer) (host16 host d0 d1);
         E_BLog BLOG_INFO "relay destination peer not known" [];
         E_PacketPassInterface_Done o])).
Proof.
  intros [Hr Hpp Hp Hd Hsame Hreg Hlen] Hnum Hmtu.
  split.
  - intros Hsrc.
    by_spec.
    unfold receiver_recv_handler_send, check_and_route, route, out.
    repeat step; finish_trace.
  - intros Hsrc Hnotlocal Hrelay Hdest.
    by_spec.
    unfold receiver_recv_handler_send, check_and_route, route, out.
    repeat step; try tauto; finish_trace.
Qed.

Lemma unknown_peer_dropped_witness :
  receiver_recv_handler_send LittleEndian 20 pk_unknown_src w_demo
  = Ok tt w_demo
      [E_DataProtoSink_Received 50 0; E_find_peer 1 9;
       E_BLog BLOG_INFO "source peer %d not known" [9];
       E_PacketPassInterface_Done 20]
  /\
  receiver_recv_handler_send LittleEndian 20 pk_unknown_dst w_demo
  = Ok tt w_demo
      [E_DataProtoSink_Received 50 0; E_find_peer 1 1; E_find_peer 1 9;
       E_BLog BLOG_INFO "relay destination peer not known" [];
       E_PacketPassInterface_Done 20].
Proof.
  split.
  - apply (unknown_peer_dropped LittleEndian w_demo 20 r20 10 peer10 dev_demo
             x00 x09 x00 x01 x00 x07 x00 []).
    + apply demo_pre_20. vm_compute. discriminate.
    + reflexivity.
    + vm_compute. discriminate.
    + vm_compute. reflexivity.
  - apply (unknown_peer_dropped LittleEndian w_demo 20 r20 10 peer10 dev_demo
             x00 x01 x00 x01 x00 x09 x00 []).
    + apply demo_pre_20. vm_compute. discriminate.
    + reflexivity.
    + vm_compute. discriminate.
    + vm_compute. reflexivity.
    + vm_compute. intros [_ Heq]. discriminate Heq.
    + vm_compute. discriminate.
    + vm_compute. reflexivity.
Defined.

(** * The peer registry *)

(** C9.  [find_peer] scans the peers list of the device and returns a
    registered peer whose ID is the one asked for when there is one, and
    nothing exactly when no registered peer has this ID.
    [DPReceivePeer_Init] appends the new peer at the end of the list whatever
    the IDs already registered: it makes no lookup and rejects nothing.  (The
    cost of the append belongs to the linked list, which is outside this
    model.) *)
Theorem registry_find_and_register (w : world) (dev : ptr) (d : Device.t) :
  devices w !! dev = Some d ->
  Forall (fun node => is_Some (peers w !! node)) (Device.peers_list d) ->
  (forall id,
      exists res,
        find_peer dev id w = Ok res w [E_find_peer dev id] /\
        (forall node, res = Some node ->
                      node ∈ Device.peers_list d /\
                      exists p, peers w !! node = Some p /\ Peer.peer_id p = id) /\
        (res = None <->
         forall m q, m ∈ Device.peers_list d -> peers w !! m = Some q ->
                     Peer.peer_id q <> id))
  /\
  (forall o id decider is_relay_client,
      is_relay_client = 0 \/ is_relay_client = 1 ->
      exists w',
        DPReceivePeer_Init o dev id decider is_relay_client w
          = Ok tt w' [E_DPRelaySource_Init o dev id (Device.reactor d);
                      E_DPRelaySink_Init o id] /\
        devices w' !! dev = Some (with_peers_list d (Device.peers_list d ++ [o])) /\
        peers w' !! o = Some (Peer.mk dev id decider is_relay_client None 0)).
Proof.
  intros Hd Hvalid. split.
  - intros id.
    destruct (spec_elim _ _ _ (find_peer_spec w dev d id Hd Hvalid))
      as (res & tr & Hrun & -> & Hfound).
    exists res. split; [exact Hrun|]. split.
    + intros node ->. split; [eapply found_elem; exact Hfound|].
      destruct Hfound as (_ & _ & p & _ & Hp & Hid & _). eauto.
    + split.
      * intros ->. exact Hfound.
      * intros Hnone. destruct res as [node|]; [|reflexivity].
        destruct Hfound as (before & after & p & Hl & Hp & Hid & _).
        exfalso. apply (Hnone node p); auto.
        rewrite Hl. apply elem_of_app. right. apply list_elem_of_here.
  - intros o id decider rc Hrc.
    unfold DPReceivePeer_Init, bind, get_device, ASSERT, call, set_peer, set_device.
    rewrite Hd. simpl.
    assert (Hb : (rc =? 0) || (rc =? 1) = true).
    { destruct Hrc as [-> | ->]; reflexivity. }
    rewrite Hb. simpl. eexists. split; [reflexivity|]. simpl. split.
    + apply lookup_insert_eq.
    + apply lookup_insert_eq.
Qed.

Lemma registry_find_and_register_witness :
  (forall id,
      exists res,
        find_peer 1 id w_demo = Ok res w_demo [E_find_peer 1 id] /\
        (forall node, res = Some node ->
                      node ∈ [10; 11; 12]%positive /\
                      exists p, peers w_demo !! node = Some p /\ Peer.peer_id p = id) /\
        (res = None <->
         forall m q, m ∈ [10; 11; 12]%positive -> peers w_demo !! m = Some q ->
                     Peer.peer_id q <> id))
  /\
  (forall o id decider is_relay_client,
      is_relay_client = 0 \/ is_relay_client = 1 ->
      exists w',
        DPReceivePeer_Init o 1 id decider is_relay_client w_demo
          = Ok tt w' [E_DPRelaySource_Init o 1 id 102; E_DPRelaySink_Init o id] /\
        devices w' !! 1%positive
          = Some (with_peers_list dev_demo ([10; 11; 12]%positive ++ [o])) /\
        peers w' !! o = Some (Peer.mk 1 id decider is_relay_client None 0)).
Proof.
  apply (registry_find_and_register w_demo 1 dev_demo).
  - vm_compute. reflexivity.
  - repeat constructor; eexists; vm_compute; reflexivity.
Defined.

(** * The handler does not write to the store *)

Section ReadOnly.
Context {A B : Type}.

Lemma read_only_ret (a : A) : read_only (ret a).
Proof. intros w a' w' tr H. unfold ret in H. congruence. Qed.

Lemma read_only_fault : read_only (@fault A).
Proof. intros w a' w' tr H. discriminate H. Qed.

Lemma read_only_bind (m : M A) (k : A -> M B) :
  read_only m -> (forall a, read_only (k a)) -> read_only (bind m k).
Proof.
  intros Hm Hk w b w' tr H. unfold bind in H.
  destruct (m w) as [|a w1 tr1] eqn:E1; [discriminate|].
  destruct (k a w1) as [|b' w2 tr2] eqn:E2; [discriminate|].
  injection H as Hb Hw Htr. subst.
  apply Hm in E1. subst w1. apply Hk in E2. exact E2.
Qed.

Lemma read_only_from_option (o : option A) : read_only (from_option o).
Proof. destruct o; [apply read_only_ret | apply read_only_fault]. Qed.
End ReadOnly.

Lemma read_only_call (e : event) : read_only (call e).
Proof. intros w a w' tr H. unfold call in H. congruence. Qed.

Lemma read_only_ASSERT (b : bool) : read_only (ASSERT b).
Proof. destruct b; [apply read_only_ret | apply read_only_fault]. Qed.

Lemma read_only_get_device (p : ptr) : read_only (get_device p).
Proof. intros w a w' tr H. unfold get_device in H. now apply read_only_from_option in H. Qed.

Lemma read_only_get_peer (p : ptr) : read_only (get_peer p).
Proof. intros w a w' tr H. unfold get_peer in H. now apply read_only_from_option in H. Qed.

Lemma read_only_get_receiver (p : ptr) : read_only (get_receiver p).
Proof. intros w a w' tr H. unfold get_receiver in H. now apply read_only_from_option in H. Qed.

Ltac ro :=
  repeat first
    [ progress cbv zeta
    | assumption
    | match goal with
      | H : forall o id, read_only (find_peer o id) |- read_only (find_peer _ _) =>
          apply H
      end
    | apply read_only_bind; [|intros ?]
    | apply read_only_ret
    | apply read_only_call
    | apply read_only_ASSERT
    | apply read_only_from_option
    | apply read_only_get_device
    | apply read_only_get_peer
    | apply read_only_get_receiver
    | match goal with
      | |- read_only (if ?c then _ else _) => destruct c
      | |- read_only (match ?x with _ => _ end) => destruct x
      end ].

Lemma read_only_find_peer_from (nodes : list ptr) (id : Z) :
  read_only (find_peer_from nodes id).
Proof.
  induction nodes as [|node rest IH]; simpl; ro.
Qed.

Lemma read_only_find_peer (o : ptr) (id : Z) : read_only (find_peer o id).
Proof.
  unfold find_peer. ro. apply read_only_find_peer_from.
Qed.

Lemma read_only_handler (host : byte_order) (o : ptr) (packet : list byte) :
  read_only (receiver_recv_handler_send host o packet).
Proof.
  pose proof read_only_find_peer as Hfind.
  unfold receiver_recv_handler_send, check_and_route, route, out, BLog, load8, load16.
  ro.
Qed.

Lemma handler_call_app (before after : list event) (o : ptr) :
  forallb before_release before = true ->
  forallb after_release after = true ->
  forallb handler_call (before ++ E_PacketPassInterface_Done o :: after) = true.
Proof.
  intros Hb Ha. rewrite forallb_app. simpl. apply andb_true_iff. split.
  - rewrite forallb_forall in *. intros e He. unfold handler_call.
    rewrite (Hb e He). reflexivity.
  - rewrite forallb_forall in *. intros e He. unfold handler_call.
    rewrite (Ha e He). apply orb_true_r.
Qed.

(** C10.  A call of the handler leaves the store as it found it: the
    device (MTUs, own ID and its presence flag, relay flow parameters, peers
    list with its order), every peer (ID, relay flag, attached sink,
    analyzer handle) and every receiver are the same after the call,
    whatever the buffer and whatever the outcome.  A call that respects the
    preconditions returns, and the only calls it makes are diagnostics,
    lookups, the notification of the sink, the analyzer, the release of the
    slot, the output function and the submission to the relay router. *)
Theorem handler_preserves_store (host : byte_order) (w : world) (o : ptr)
    (packet : list byte) :
  (forall a w' tr,
      receiver_recv_handler_send host o packet w = Ok a w' tr -> w' = w) /\
  (forall r peer_ptr peer device,
      handler_pre w o packet r peer_ptr peer device ->
      exists tr,
        receiver_recv_handler_send host o packet w = Ok tt w tr /\
        forallb handler_call tr = true).
Proof.
  split.
  - intros a w' tr H. exact (read_only_handler host o packet w a w' tr H).
  - intros r peer_ptr peer device Hpre.
    destruct (handler_shape host w o packet r peer_ptr peer device Hpre)
      as (before & after & Hrun & Hbefore & Hafter & _).
    eexists. split; [exact Hrun|]. now apply handler_call_app.
Qed.

Lemma handler_preserves_store_witness :
  exists tr w',
    receiver_recv_handler_send LittleEndian 20 pk_local w_demo = Ok tt w' tr /\
    w' = w_demo /\ forallb handler_call tr = true.
Proof.
  destruct (handler_preserves_store LittleEndian w_demo 20 pk_local) as [Hsame Hret].
  destruct (Hret r20 10%positive peer10 dev_demo) as (tr & Hrun & Hcalls).
  - apply demo_pre_20. vm_compute. discriminate.
  - exists tr, w_demo. split; [exact Hrun|]. split; [|exact Hcalls].
    exact (Hsame tt w_demo tr Hrun).
Defined.

(** * The byte order of the header fields *)

(** What the handler reads from the header, whatever the machine: the
    source ID and the destination count go through [ltoh16] and have their
    little-endian value. *)
Lemma header_fields_little_endian (host : byte_order) (f0 f1 n0 n1 : byte) :
  ltoh8 (byte_val f0) = byte_val f0 /\
  ltoh16 host (host16 host f0 f1) = le16 f0 f1 /\
  ltoh16 host (host16 host n0 n1) = le16 n0 n1.
Proof.
  split; [reflexivity|]. split; apply ltoh16_host16.
Qed.

(** The destination ID is read without [ltoh16]: on a little-endian machine
    this is its little-endian value. *)
Lemma dest_id_on_little_endian_host (d0 d1 : byte) :
  host16 LittleEndian d0 d1 = le16 d0 d1.
Proof. apply host16_little. Qed.

(** C5.  On a big-endian machine the destination ID is not decoded as a
    little-endian value.  The frame [pk_local] carries the destination bytes
    07 00, that is the ID 7 of the device; the handler reads them in host
    order as 1792, does not deliver the frame, and drops it as a relay to
    an unknown peer.  Flags, source ID and destination count of the same
    frame are decoded correctly. *)
Theorem dest_id_read_in_host_order :
  le16 x07 x00 = 7 /\
  host16 BigEndian x07 x00 = 1792 /\
  receiver_recv_handler_send BigEndian 20 pk_local w_demo
  = Ok tt w_demo
      [E_DataProtoSink_Received 50 1; E_find_peer 1 1; E_find_peer 1 1792;
       E_BLog BLOG_INFO "relay destination peer not known" [];
       E_PacketPassInterface_Done 20].
Proof.
  repeat split; vm_compute; reflexivity.
Qed.

(** * Every way through the handler *)

Lemma handled_with (w : world) (o peer_ptr : ptr) (peer : Peer.t) (device : Device.t)
    (packet : list byte) (n rest : list event) :
  n = notification peer (hd x00 packet) ->
  handled w o peer_ptr peer device packet (notification peer (hd x00 packet) ++ rest) ->
  handled w o peer_ptr peer device packet (n ++ rest).
Proof. intros ->. auto. Qed.

Ltac split_notification :=
  lazymatch goal with
  | |- handled _ _ _ _ _ _ (E_DataProtoSink_Received ?s ?b :: ?rest) =>
      apply (handled_with _ _ _ _ _ _ [E_DataProtoSink_Received s b] rest)
  | |- handled _ _ _ _ _ _ ?tr =>
      apply (handled_with _ _ _ _ _ _ [] tr)
  end;
  [ unfold notification, receiving_keepalives;
    match goal with H : Peer.dp_sink _ = _ |- _ => rewrite H end;
    cbn [hd]; unfold ltoh8; rewrite ?land_1_testbit; reflexivity
  | ].

Ltac side :=
  first [ eassumption | reflexivity | congruence
        | cbn [drop skipn]; rewrite ?skipn_O; len_lia ].

Lemma handler_cases (host : byte_order) (w : world) (o : ptr) (packet : list byte)
    (r : Receiver.t) (peer_ptr : ptr) (peer : Peer.t) (device : Device.t) :
  handler_pre w o packet r peer_ptr peer device ->
  exists tr,
    receiver_recv_handler_send host o packet w = Ok tt w tr /\
    handled w o peer_ptr peer device packet tr.
Proof.
  intros [Hr Hpp Hp Hd Hsame Hreg Hlen].
  cut (spec (receiver_recv_handler_send host o packet) w
         (fun _ tr => handled w o peer_ptr peer device packet tr)).
  { intros H. apply spec_elim in H as ([] & tr & Hrun & H). eauto. }
  unfold receiver_recv_handler_send, check_and_route, route, out.
  all_shapes packet; repeat step; cbn [app]; subst.
  all: try (apply Handled_malformed; unfold malformed_reasons;
            repeat first [apply list_elem_of_here | apply list_elem_of_further]; fail).
  all: split_notification.
  all: try (apply Handled_no_destination; fail).
  all: try (apply Handled_unknown_source; fail).
  all: try (eapply Handled_delivered; side; fail).
  all: try (apply Handled_relaying_not_allowed; side; fail).
  all: try (eapply Handled_foreign_source; side; fail).
  all: try (apply Handled_unknown_destination; side; fail).
  all: try (apply Handled_relay_to_source; side; fail).
  all: try (eapply Handled_relayed; side; fail).
Qed.

Lemma plain_pre (packet : list byte) :
  data_len packet <= 11 -> handler_pre w_plain 20 packet r20 10 peer_plain dev_plain.
Proof.
  intros Hlen. split; try (vm_compute; reflexivity).
  - repeat constructor; eexists; vm_compute; reflexivity.
  - exact Hlen.
Qed.

(** X1.  A call of the handler that respects its preconditions returns,
    leaves the store unchanged, and its trace is one of nine: a malformed
    frame (one warning, then the release, and no notification of the sink);
    a frame without destination; an unknown source; a local delivery; a
    relay refused because the receiving peer is not a relay client; a relay
    refused because the source is another peer; an unknown relay
    destination; a relay back to the source; a relay submission.  In the
    last eight the trace starts with the notification of the attached
    sink. *)
Theorem handler_outcomes (host : byte_order) (w : world) (o : ptr) (packet : list byte)
    (r : Receiver.t) (peer_ptr : ptr) (peer : Peer.t) (device : Device.t) :
  handler_pre w o packet r peer_ptr peer device ->
  exists tr,
    receiver_recv_handler_send host o packet w = Ok tt w tr /\
    handled w o peer_ptr peer device packet tr.
Proof. apply handler_cases. Qed.

Lemma handler_outcomes_witness :
  exists tr,
    receiver_recv_handler_send LittleEndian 20 pk_relay w_demo = Ok tt w_demo tr /\
    handled w_demo 20 10 peer10 dev_demo pk_relay tr.
Proof.
  apply (handler_outcomes LittleEndian w_demo 20 pk_relay r20 10 peer10 dev_demo).
  apply demo_pre_20. vm_compute. discriminate.
Defined.

(** * Malformed frames *)

(** X2.  A buffer shorter than the five bytes of the header is dropped with
    the warning "no dataproto header": the slot is released and nothing else
    happens, not even the notification of the sink. *)
Theorem drop_short_header (host : byte_order) (w : world) (o : ptr) (packet : list byte)
    (r : Receiver.t) (peer_ptr : ptr) (peer : Peer.t) (device : Device.t) :
  handler_pre w o packet r peer_ptr peer device ->
  data_len packet < sizeof_dataproto_header ->
  receiver_recv_handler_send host o packet w
  = Ok tt w [E_BLog BLOG_WARNING "no dataproto header" []; E_PacketPassInterface_Done o].
Proof.
  intros [Hr Hpp Hp Hd Hsame Hreg Hlen] Hshort.
  by_spec.
  unfold receiver_recv_handler_send, check_and_route, route, out.
  all_shapes packet; repeat step; reflexivity.
Qed.

Lemma drop_short_header_witness :
  receiver_recv_handler_send LittleEndian 20 pk_short w_demo
  = Ok tt w_demo [E_BLog BLOG_WARNING "no dataproto header" []; E_PacketPassInterface_Done 20].
Proof.
  apply (drop_short_header LittleEndian w_demo 20 pk_short r20 10 peer10 dev_demo).
  - apply demo_pre_20. vm_compute. discriminate.
  - reflexivity.
Defined.

(** X3.  A frame whose destination count is neither 0 nor 1 is dropped with
    the warning "wrong number of destinations", whatever follows the header;
    the sink is not notified although the header was read. *)
Theorem drop_wrong_count (host : byte_order) (w : world) (o : ptr)
    (r : Receiver.t) (peer_ptr : ptr) (peer : Peer.t) (device : Device.t)
    (flags f0 f1 n0 n1 : byte) (rest : list byte) :
  handler_pre w o (flags :: f0 :: f1 :: n0 :: n1 :: rest) r peer_ptr peer device ->
  le16 n0 n1 <> 0 -> le16 n0 n1 <> 1 ->
  receiver_recv_handler_send host o (flags :: f0 :: f1 :: n0 :: n1 :: rest) w
  = Ok tt w [E_BLog BLOG_WARNING "wrong number of destinations" [];
             E_PacketPassInterface_Done o].
Proof.
  intros [Hr Hpp Hp Hd Hsame Hreg Hlen] Hn0 Hn1.
  by_spec.
  unfold receiver_recv_handler_send, check_and_route, route, out.
  repeat step; reflexivity.
Qed.

Lemma drop_wrong_count_witness :
  receiver_recv_handler_send LittleEndian 20 pk_bad_count w_demo
  = Ok tt w_demo [E_BLog BLOG_WARNING "wrong number of destinations" [];
                  E_PacketPassInterface_Done 20].
Proof.
  apply (drop_wrong_count LittleEndian w_demo 20 r20 10 peer10 dev_demo
           x00 x01 x00 x02 x00 [x07; x00]).
  - apply demo_pre_20. vm_compute. discriminate.
  - vm_compute. discriminate.
  - vm_compute. discriminate.
Defined.

(** X4.  A frame with destination count 1 and fewer than two bytes after the
    header is dropped with the warning "missing destination", without
    notification of the sink. *)
Theorem drop_missing_destination (host : byte_order) (w : world) (o : ptr)
    (r : Receiver.t) (peer_ptr : ptr) (peer : Peer.t) (device : Device.t)
    (flags f0 f1 n0 n1 : byte) (rest : list byte) :
  handler_pre w o (flags :: f0 :: f1 :: n0 :: n1 :: rest) r peer_ptr peer device ->
  le16 n0 n1 = 1 ->
  data_len rest < sizeof_peerid_t ->
  receiver_recv_handler_send host o (flags :: f0 :: f1 :: n0 :: n1 :: rest) w
  = Ok tt w [E_BLog BLOG_WARNING "missing destination" []; E_PacketPassInterface_Done o].
Proof.
  intros [Hr Hpp Hp Hd Hsame Hreg Hlen] Hn Hrest.
  by_spec.
  unfold receiver_recv_handler_send, check_and_route, route, out.
  repeat step; reflexivity.
Qed.

Lemma drop_missing_destination_witness :
  receiver_recv_handler_send LittleEndian 20 pk_no_dest_id w_demo
  = Ok tt w_demo [E_BLog BLOG_WARNING "missing destination" [];
                  E_PacketPassInterface_Done 20].
Proof.
  apply (drop_missing_destination LittleEndian w_demo 20 r20 10 peer10 dev_demo
           x00 x01 x00 x01 x00 [x07]).
  - apply demo_pre_20. vm_compute. discriminate.
  - reflexivity.
  - reflexivity.
Defined.

(** X5.  A frame without destination whose payload is longer than the
    device MTU is dropped with the warning "frame too large", without
    notification of the sink.  Such a frame can respect the MTU of the
    receive interface, which leaves room for a destination ID. *)
Theorem drop_frame_too_large (host : byte_order) (w : world) (o : ptr)
    (r : Receiver.t) (peer_ptr : ptr) (peer : Peer.t) (device : Device.t)
    (flags f0 f1 n0 n1 : byte) (payload : list byte) :
  handler_pre w o (flags :: f0 :: f1 :: n0 :: n1 :: payload) r peer_ptr peer device ->
  le16 n0 n1 = 0 ->
  Device.device_mtu device < data_len payload ->
  receiver_recv_handler_send host o (flags :: f0 :: f1 :: n0 :: n1 :: payload) w
  = Ok tt w [E_BLog BLOG_WARNING "frame too large" []; E_PacketPassInterface_Done o].
Proof.
  intros [Hr Hpp Hp Hd Hsame Hreg Hlen] Hn Hlarge.
  by_spec.
  unfold receiver_recv_handler_send, check_and_route, route, out.
  repeat step; reflexivity.
Qed.

Lemma drop_frame_too_large_witness :
  receiver_recv_handler_send LittleEndian 20 pk_too_large w_demo
  = Ok tt w_demo [E_BLog BLOG_WARNING "frame too large" []; E_PacketPassInterface_Done 20].
Proof.
  apply (drop_frame_too_large LittleEndian w_demo 20 r20 10 peer10 dev_demo
           x00 x01 x00 x00 x00 [xaa; xbb; xcc; xdd; xee]).
  - apply demo_pre_20. vm_compute. discriminate.
  - reflexivity.
  - reflexivity.
Defined.

(** X6.  When the MTU of the receive interface is the device MTU plus the
    overhead of header and destination ID, as [DPReceiveDevice_Init] sets
    it, a frame with destination count 1 that respects it is never dropped
    as too large. *)
Theorem with_destination_never_too_large (host : byte_order) (w : world) (o : ptr)
    (r : Receiver.t) (peer_ptr : ptr) (peer : Peer.t) (device : Device.t)
    (flags f0 f1 n0 n1 : byte) (rest : list byte) :
  handler_pre w o (flags :: f0 :: f1 :: n0 :: n1 :: rest) r peer_ptr peer device ->
  Device.packet_mtu device = DATAPROTO_MAX_OVERHEAD + Device.device_mtu device ->
  le16 n0 n1 = 1 ->
  exists tr,
    receiver_recv_handler_send host o (flags :: f0 :: f1 :: n0 :: n1 :: rest) w
      = Ok tt w tr /\
    E_BLog BLOG_WARNING "frame too large" [] ∉ tr.
Proof.
  intros [Hr Hpp Hp Hd Hsame Hreg Hlen] Hmtu Hn.
  unfold DATAPROTO_MAX_OVERHEAD in Hmtu.
  cut (spec (receiver_recv_handler_send host o (flags :: f0 :: f1 :: n0 :: n1 :: rest)) w
         (fun _ tr => E_BLog BLOG_WARNING "frame too large" [] ∉ tr)).
  { intros H. apply spec_elim in H as ([] & tr & Hrun & H). eauto. }
  unfold receiver_recv_handler_send, check_and_route, route, out.
  destruct rest as [|d0 [|d1 payload]]; repeat step; cbn [app];
    intros Hin;
    repeat (apply elem_of_cons in Hin as [Hin | Hin]; [discriminate Hin|]);
    apply elem_of_nil in Hin; exact Hin.
Qed.

Lemma with_destination_never_too_large_witness :
  exists tr,
    receiver_recv_handler_send LittleEndian 20 pk_local w_demo = Ok tt w_demo tr /\
    E_BLog BLOG_WARNING "frame too large" [] ∉ tr.
Proof.
  apply (with_destination_never_too_large LittleEndian w_demo 20 r20 10 peer10 dev_demo
           x01 x01 x00 x01 x00 [x07; x00; xaa; xbb]).
  - apply demo_pre_20. vm_compute. discriminate.
  - reflexivity.
  - reflexivity.
Defined.

(** * Refused relays *)

(** X7.  A frame that is not for the device and arrives from a peer that is
    not a relay client is dropped with the warning "relaying not allowed";
    the destination is not even looked up. *)
Theorem drop_relaying_not_allowed (host : byte_order) (w : world) (o : ptr)
    (r : Receiver.t) (peer_ptr : ptr) (peer : Peer.t) (device : Device.t)
    (flags f0 f1 n0 n1 d0 d1 : byte) (payload : list byte) (src : ptr) :
  handler_pre w o (flags :: f0 :: f1 :: n0 :: n1 :: d0 :: d1 :: payload)
    r peer_ptr peer device ->
  le16 n0 n1 = 1 ->
  data_len payload <= Device.device_mtu device ->
  find_peer (Peer.device peer) (le16 f0 f1) w
    = Ok (Some src) w [E_find_peer (Peer.device peer) (le16 f0 f1)] ->
  ~ (Device.have_peer_id device <> 0 /\ host16 host d0 d1 = Device.peer_id device) ->
  Peer.is_relay_client peer = 0 ->
  receiver_recv_handler_send host o
    (flags :: f0 :: f1 :: n0 :: n1 :: d0 :: d1 :: payload) w
  = Ok tt w
      (notification peer flags ++
       [E_find_peer (Peer.device peer) (le16 f0 f1);
        E_BLog BLOG_WARNING "relaying not allowed" [];
        E_PacketPassInterface_Done o]).
Proof.
  intros [Hr Hpp Hp Hd Hsame Hreg Hlen] Hnum Hmtu Hsrc Hnotlocal Hrelay.
  by_spec.
  unfold receiver_recv_handler_send, check_and_route, route, out.
  repeat step; try tauto; finish_trace.
Qed.

Lemma drop_relaying_not_allowed_witness :
  receiver_recv_handler_send LittleEndian 21 pk_from_2_to_3 w_demo
  = Ok tt w_demo
      [E_find_peer 1 2; E_BLog BLOG_WARNING "relaying not allowed" [];
       E_PacketPassInterface_Done 21].
Proof.
  apply (drop_relaying_not_allowed LittleEndian w_demo 21 r21 11 peer11 dev_demo
           x00 x02 x00 x01 x00 x03 x00 [] 11).
  - apply demo_pre_21. vm_compute. discriminate.
  - reflexivity.
  - vm_compute. discriminate.
  - vm_compute. reflexivity.
  - vm_compute. intros [_ Heq]. discriminate Heq.
  - reflexivity.
Defined.

(** X8.  A relay client may only relay frames of its own: when the source ID
    of a frame that is not for the device resolves to another peer than the
    receiving one, the frame is dropped with the warning "relay source must
    be the sending peer", before any lookup of the destination. *)
Theorem drop_foreign_source (host : byte_order) (w : world) (o : ptr)
    (r : Receiver.t) (peer_ptr : ptr) (peer : Peer.t) (device : Device.t)
    (flags f0 f1 n0 n1 d0 d1 : byte) (payload : list byte) (src : ptr) :
  handler_pre w o (flags :: f0 :: f1 :: n0 :: n1 :: d0 :: d1 :: payload)
    r peer_ptr peer device ->
  le16 n0 n1 = 1 ->
  data_len payload <= Device.device_mtu device ->
  find_peer (Peer.device peer) (le16 f0 f1) w
    = Ok (Some src) w [E_find_peer (Peer.device peer) (le16 f0 f1)] ->
  ~ (Device.have_peer_id device <> 0 /\ host16 host d0 d1 = Device.peer_id device) ->
  Peer.is_relay_client peer <> 0 ->
  src <> peer_ptr ->
  receiver_recv_handler_send host o
    (flags :: f0 :: f1 :: n0 :: n1 :: d0 :: d1 :: payload) w
  = Ok tt w
      (notification peer flags ++
       [E_find_peer (Peer.device peer) (le16 f0 f1);
        E_BLog BLOG_WARNING "relay source must be the sending peer" [];
        E_PacketPassInterface_Done o]).
Proof.
  intros [Hr Hpp Hp Hd Hsame Hreg Hlen] Hnum Hmtu Hsrc Hnotlocal Hrelay Hne.
  by_spec.
  unfold receiver_recv_handler_send, check_and_route, route, out.
  repeat step; try tauto; finish_trace.
Qed.

Lemma drop_foreign_source_witness :
  receiver_recv_handler_send LittleEndian 20 pk_from_2_to_3 w_demo
  = Ok tt w_demo
      [E_DataProtoSink_Received 50 0; E_find_peer 1 2;
       E_BLog BLOG_WARNING "relay source must be the sending peer" [];
       E_PacketPassInterface_Done 20].
Proof.
  apply (drop_foreign_source LittleEndian w_demo 20 r20 10 peer10 dev_demo
           x00 x02 x00 x01 x00 x03 x00 [] 11).
  - apply demo_pre_20. vm_compute. discriminate.
  - reflexivity.
  - vm_compute. discriminate.
  - vm_compute. reflexivity.
  - vm_compute. intros [_ Heq]. discriminate Heq.
  - vm_compute. discriminate.
  - discriminate.
Defined.

(** X9.  A relay client that names itself as source and whose destination ID
    resolves to itself gets the warning "relay destination cannot be the
    source" after both lookups; nothing is submitted. *)
Theorem drop_relay_to_source (host : byte_order) (w : world) (o : ptr)
    (r : Receiver.t) (peer_ptr : ptr) (peer : Peer.t) (device : Device.t)
    (flags f0 f1 n0 n1 d0 d1 : byte) (payload : list byte) :
  handler_pre w o (flags :: f0 :: f1 :: n0 :: n1 :: d0 :: d1 :: payload)
    r peer_ptr peer device ->
  le16 n0 n1 = 1 ->
  data_len payload <= Device.device_mtu device ->
  find_peer (Peer.device peer) (le16 f0 f1) w
    = Ok (Some peer_ptr) w [E_find_peer (Peer.device peer) (le16 f0 f1)] ->
  ~ (Device.have_peer_id device <> 0 /\ host16 host d0 d1 = Device.peer_id device) ->
  Peer.is_relay_client peer <> 0 ->
  find_peer (Peer.device peer) (host16 host d0 d1) w
    = Ok (Some peer_ptr) w [E_find_peer (Peer.device peer) (host16 host d0 d1)] ->
  receiver_recv_handler_send host o
    (flags :: f0 :: f1 :: n0 :: n1 :: d0 :: d1 :: payload) w
  = Ok tt w
      (notification peer flags ++
       [E_find_peer (Peer.device peer) (le16 f0 f1);
        E_find_peer (Peer.device peer) (host16 host d0 d1);
        E_BLog BLOG_WARNING "relay destination cannot be the source" [];
        E_PacketPassInterface_Done o]).
Proof.
  intros [Hr Hpp Hp Hd Hsame Hreg Hlen] Hnum Hmtu Hsrc Hnotlocal Hrelay Hdest.
  by_spec.
  unfold receiver_recv_handler_send, check_and_route, route, out.
  repeat step; try tauto; finish_trace.
Qed.

Lemma drop_relay_to_source_witness :
  receiver_recv_handler_send LittleEndian 20 pk_self_relay w_demo
  = Ok tt w_demo
      [E_DataProtoSink_Received 50 0; E_find_peer 1 1; E_find_peer 1 1;
       E_BLog BLOG_WARNING "relay destination cannot be the source" [];
       E_PacketPassInterface_Done 20].
Proof.
  apply (drop_relay_to_source LittleEndian w_demo 20 r20 10 peer10 dev_demo
           x00 x01 x00 x01 x00 x01 x00 [xcc]).
  - apply demo_pre_20. vm_compute. discriminate.
  - reflexivity.
  - vm_compute. discriminate.
  - vm_compute. reflexivity.
  - vm_compute. intros [_ Heq]. discriminate Heq.
  - vm_compute. discriminate.
  - vm_compute. reflexivity.
Defined.

(** * What no call of the handler does *)

Lemma filter_notification (f : event -> bool) (peer : Peer.t) (flags : byte)
    (rest : list event) :
  (forall s b, f (E_DataProtoSink_Received s b) = false) ->
  List.filter f (notification peer flags ++ rest) = List.filter f rest.
Proof.
  intros Hf. unfold notification. destruct (Peer.dp_sink peer); [|reflexivity].
  simpl. now rewrite Hf.
Qed.

Lemma omap_notification (peer : Peer.t) (flags : byte) (rest : list event) :
  omap payload_of (notification peer flags ++ rest) = omap payload_of rest.
Proof.
  unfold notification. destruct (Peer.dp_sink peer); reflexivity.
Qed.

Lemma elem_of_notification (e : event) (peer : Peer.t) (flags : byte) :
  e ∈ notification peer flags -> is_received e = true.
Proof.
  unfold notification. destruct (Peer.dp_sink peer); intros Hin.
  - apply elem_of_cons in Hin as [-> | Hin]; [reflexivity|].
    apply elem_of_nil in Hin. contradiction.
  - apply elem_of_nil in Hin. contradiction.
Qed.

Ltac tr_simpl :=
  unfold count;
  rewrite ?filter_notification by reflexivity;
  rewrite ?omap_notification;
  cbn [List.filter app length is_blog is_output is_submit is_analyze is_received
       is_find_peer is_Done omap list_omap payload_of Nat.add].

(** X10.  Whatever the frame, the bytes handed to the analyzer, to the output
    function or to the relay router are the buffer without its first seven
    bytes (header and destination ID), and they are no more than the device
    MTU. *)
Theorem payloads_bounded (host : byte_order) (w : world) (o : ptr) (packet : list byte)
    (r : Receiver.t) (peer_ptr : ptr) (peer : Peer.t) (device : Device.t) :
  handler_pre w o packet r peer_ptr peer device ->
  exists tr,
    receiver_recv_handler_send host o packet w = Ok tt w tr /\
    Forall (fun d => d = drop 7 packet /\ data_len d <= Device.device_mtu device)
      (omap payload_of tr).
Proof.
  intros Hpre.
  destruct (handler_cases host w o packet r peer_ptr peer device Hpre)
    as (tr & Hrun & Hcase).
  exists tr. split; [exact Hrun|].
  destruct Hcase; tr_simpl; repeat constructor; auto.
Qed.

Lemma payloads_bounded_witness :
  exists tr,
    receiver_recv_handler_send LittleEndian 20 pk_local w_demo = Ok tt w_demo tr /\
    Forall (fun d => d = drop 7 pk_local /\ data_len d <= 4) (omap payload_of tr).
Proof.
  apply (payloads_bounded LittleEndian w_demo 20 pk_local r20 10 peer10 dev_demo).
  apply demo_pre_20. vm_compute. discriminate.
Defined.

(** X11.  A call of the handler does at most one of three things: log a
    diagnostic, deliver to the output function, submit to the relay router.
    The analyzer is called exactly when the frame is delivered. *)
Theorem one_outcome_per_frame (host : byte_order) (w : world) (o : ptr)
    (packet : list byte)
    (r : Receiver.t) (peer_ptr : ptr) (peer : Peer.t) (device : Device.t) :
  handler_pre w o packet r peer_ptr peer device ->
  exists tr,
    receiver_recv_handler_send host o packet w = Ok tt w tr /\
    (count is_blog tr + count is_output tr + count is_submit tr <= 1)%nat /\
    count is_analyze tr = count is_output tr.
Proof.
  intros Hpre.
  destruct (handler_cases host w o packet r peer_ptr peer device Hpre)
    as (tr & Hrun & Hcase).
  exists tr. split; [exact Hrun|].
  destruct Hcase; tr_simpl; split; (reflexivity || lia).
Qed.

Lemma one_outcome_per_frame_witness :
  exists tr,
    receiver_recv_handler_send LittleEndian 20 pk_relay w_demo = Ok tt w_demo tr /\
    (count is_blog tr + count is_output tr + count is_submit tr <= 1)%nat /\
    count is_analyze tr = count is_output tr.
Proof.
  apply (one_outcome_per_frame LittleEndian w_demo 20 pk_relay r20 10 peer10 dev_demo).
  apply demo_pre_20. vm_compute. discriminate.
Defined.

(** X12.  As long as the device has no ID of its own, no frame is delivered:
    the handler calls neither the analyzer nor the output function. *)
Theorem no_own_id_no_delivery (host : byte_order) (w : world) (o : ptr)
    (packet : list byte)
    (r : Receiver.t) (peer_ptr : ptr) (peer : Peer.t) (device : Device.t) :
  handler_pre w o packet r peer_ptr peer device ->
  Device.have_peer_id device = 0 ->
  exists tr,
    receiver_recv_handler_send host o packet w = Ok tt w tr /\
    List.filter is_output tr = [] /\ List.filter is_analyze tr = [].
Proof.
  intros Hpre Hnone.
  destruct (handler_cases host w o packet r peer_ptr peer device Hpre)
    as (tr & Hrun & Hcase).
  exists tr. split; [exact Hrun|].
  destruct Hcase; try contradiction; tr_simpl; split; reflexivity.
Qed.

Lemma no_own_id_no_delivery_witness :
  exists tr,
    receiver_recv_handler_send LittleEndian 20 pk_local w_plain = Ok tt w_plain tr /\
    List.filter is_output tr = [] /\ List.filter is_analyze tr = [].
Proof.
  apply (no_own_id_no_delivery LittleEndian w_plain 20 pk_local r20 10 peer_plain dev_plain).
  - apply plain_pre. vm_compute. discriminate.
  - reflexivity.
Defined.

(** X13.  While no sink is attached to the receiving peer, the handler never
    calls [DataProtoSink_Received]. *)
Theorem no_sink_no_notification (host : byte_order) (w : world) (o : ptr)
    (packet : list byte)
    (r : Receiver.t) (peer_ptr : ptr) (peer : Peer.t) (device : Device.t) :
  handler_pre w o packet r peer_ptr peer device ->
  Peer.dp_sink peer = None ->
  exists tr,
    receiver_recv_handler_send host o packet w = Ok tt w tr /\
    List.filter is_received tr = [].
Proof.
  intros Hpre Hnone.
  destruct (handler_cases host w o packet r peer_ptr peer device Hpre)
    as (tr & Hrun & Hcase).
  exists tr. split; [exact Hrun|].
  destruct Hcase; unfold notification; rewrite ?Hnone; reflexivity.
Qed.

Lemma no_sink_no_notification_witness :
  exists tr,
    receiver_recv_handler_send LittleEndian 20 pk_no_dest w_plain = Ok tt w_plain tr /\
    List.filter is_received tr = [].
Proof.
  apply (no_sink_no_notification LittleEndian w_plain 20 pk_no_dest r20 10 peer_plain dev_plain).
  - apply plain_pre. vm_compute. discriminate.
  - reflexivity.
Defined.

(** X14.  A peer that is not a relay client cannot make the device relay:
    whatever it sends, nothing is submitted to the relay router, and at most
    one lookup (of the source) is made. *)
Theorem not_relay_client_no_relay (host : byte_order) (w : world) (o : ptr)
    (packet : list byte)
    (r : Receiver.t) (peer_ptr : ptr) (peer : Peer.t) (device : Device.t) :
  handler_pre w o packet r peer_ptr peer device ->
  Peer.is_relay_client peer = 0 ->
  exists tr,
    receiver_recv_handler_send host o packet w = Ok tt w tr /\
    List.filter is_submit tr = [] /\ (count is_find_peer tr <= 1)%nat.
Proof.
  intros Hpre Hnone.
  destruct (handler_cases host w o packet r peer_ptr peer device Hpre)
    as (tr & Hrun & Hcase).
  exists tr. split; [exact Hrun|].
  destruct Hcase; try contradiction; tr_simpl; split; (reflexivity || lia).
Qed.

Lemma not_relay_client_no_relay_witness :
  exists tr,
    receiver_recv_handler_send LittleEndian 21 pk_from_2_to_3 w_demo = Ok tt w_demo tr /\
    List.filter is_submit tr = [] /\ (count is_find_peer tr <= 1)%nat.
Proof.
  apply (not_relay_client_no_relay LittleEndian w_demo 21 pk_from_2_to_3
           r21 11 peer11 dev_demo).
  - apply demo_pre_21. vm_compute. discriminate.
  - reflexivity.
Defined.

(** X15.  Whatever the frame, a submission to the relay router is made on
    the router of the receiving peer's device, from the relay source of the
    receiving peer itself, which is a relay client, to the relay sink of
    another, registered peer, with the buffer size and inactivity time of
    the device. *)
Theorem submission_from_receiving_peer (host : byte_order) (w : world) (o : ptr)
    (packet : list byte)
    (r : Receiver.t) (peer_ptr : ptr) (peer : Peer.t) (device : Device.t) :
  handler_pre w o packet r peer_ptr peer device ->
  exists tr,
    receiver_recv_handler_send host o packet w = Ok tt w tr /\
    forall router s d payload size time,
      E_DPRelayRouter_SubmitFrame router s d payload size time ∈ tr ->
      router = Peer.device peer /\ s = peer_ptr /\ d <> peer_ptr /\
      is_Some (peers w !! d) /\
      Peer.is_relay_client peer <> 0 /\
      size = Device.relay_flow_buffer_size device /\
      time = Device.relay_flow_inactivity_time device.
Proof.
  intros Hpre.
  destruct (handler_cases host w o packet r peer_ptr peer device Hpre)
    as (tr & Hrun & Hcase).
  exists tr. split; [exact Hrun|].
  intros router s d payload size time Hin.
  destruct Hcase;
    try (apply elem_of_app in Hin as [Hin | Hin];
         [apply elem_of_notification in Hin; discriminate Hin|]);
    repeat (apply elem_of_cons in Hin as [Hin | Hin]; [try discriminate Hin|]);
    try (apply elem_of_nil in Hin; contradiction).
  injection Hin as -> -> -> -> -> ->.
  repeat split; eauto.
Qed.

Lemma submission_from_receiving_peer_witness :
  exists tr,
    receiver_recv_handler_send LittleEndian 20 pk_relay w_demo = Ok tt w_demo tr /\
    forall router s d payload size time,
      E_DPRelayRouter_SubmitFrame router s d payload size time ∈ tr ->
      router = 1%positive /\ s = 10%positive /\ d <> 10%positive /\
      is_Some (peers w_demo !! d) /\
      Peer.is_relay_client peer10 <> 0 /\
      size = 8 /\ time = 3000.
Proof.
  apply (submission_from_receiving_peer LittleEndian w_demo 20 pk_relay
           r20 10 peer10 dev_demo).
  apply demo_pre_20. vm_compute. discriminate.
Defined.

(** * Inverting the computations *)

Section Inversion.
Context {A B : Type}.

Lemma bind_inv (m : M A) (k : A -> M B) w b w' tr :
  bind m k w = Ok b w' tr ->
  exists a w1 tr1 tr2, m w = Ok a w1 tr1 /\ k a w1 = Ok b w' tr2 /\ tr = tr1 ++ tr2.
Proof.
  unfold bind. destruct (m w) as [|a w1 tr1] eqn:E1; [discriminate|].
  destruct (k a w1) as [|b' w2 tr2] eqn:E2; [discriminate|].
  intros H. injection H as <- <- <-. eauto 10.
Qed.

Lemma ret_inv (a a' : A) w w' tr : ret a w = Ok a' w' tr -> a' = a /\ w' = w /\ tr = [].
Proof. unfold ret. intros H. injection H as <- <- <-. auto. Qed.

Lemma from_option_inv (o : option A) a w w' tr :
  from_option o w = Ok a w' tr -> o = Some a /\ w' = w /\ tr = [].
Proof.
  destruct o; simpl; [|discriminate]. intros H. apply ret_inv in H as (-> & -> & ->). auto.
Qed.
End Inversion.

Lemma ASSERT_inv (b : bool) a w w' tr :
  ASSERT b w = Ok a w' tr -> b = true /\ w' = w /\ tr = [].
Proof.
  destruct b; simpl; [|discriminate]. intros H. apply ret_inv in H as (_ & -> & ->). auto.
Qed.

Lemma call_inv e a w w' tr : call e w = Ok a w' tr -> w' = w /\ tr = [e].
Proof. unfold call. intros H. injection H as <- <-. auto. Qed.

Lemma get_device_inv p d w w' tr :
  get_device p w = Ok d w' tr -> devices w !! p = Some d /\ w' = w /\ tr = [].
Proof. apply from_option_inv. Qed.

Lemma get_peer_inv p x w w' tr :
  get_peer p w = Ok x w' tr -> peers w !! p = Some x /\ w' = w /\ tr = [].
Proof. apply from_option_inv. Qed.

Lemma get_receiver_inv p r w w' tr :
  get_receiver p w = Ok r w' tr -> receivers w !! p = Some r /\ w' = w /\ tr = [].
Proof. apply from_option_inv. Qed.

Ltac run_inv :=
  repeat match goal with
         | H : bind _ _ _ = Ok _ _ _ |- _ =>
             apply bind_inv in H as (? & ? & ? & ? & ? & H & ->)
         | H : get_device _ _ = Ok _ _ _ |- _ => apply get_device_inv in H as (? & -> & ->)
         | H : get_peer _ _ = Ok _ _ _ |- _ => apply get_peer_inv in H as (? & -> & ->)
         | H : get_receiver _ _ = Ok _ _ _ |- _ =>
             apply get_receiver_inv in H as (? & -> & ->)
         | H : ASSERT _ _ = Ok _ _ _ |- _ => apply ASSERT_inv in H as (? & -> & ->)
         | H : from_option _ _ = Ok _ _ _ |- _ => apply from_option_inv in H as (? & -> & ->)
         | H : call _ _ = Ok _ _ _ |- _ => apply call_inv in H as (-> & ->)
         | H : BLog _ _ _ _ = Ok _ _ _ |- _ => apply call_inv in H as (-> & ->)
         | H : ret _ _ = Ok _ _ _ |- _ => apply ret_inv in H as (-> & -> & ->)
         | H : set_device _ _ _ = Ok _ _ _ |- _ => injection H as <- <-
         | H : set_peer _ _ _ = Ok _ _ _ |- _ => injection H as <- <-
         | H : set_receiver _ _ _ = Ok _ _ _ |- _ => injection H as <- <-
         | H : free_device _ _ = Ok _ _ _ |- _ => injection H as <- <-
         | H : free_peer _ _ = Ok _ _ _ |- _ => injection H as <- <-
         | H : free_receiver _ _ = Ok _ _ _ |- _ => injection H as <- <-
         | H : (if ?b then _ else _) _ = Ok _ _ _ |- _ => destruct b eqn:?
         end;
  cbn [devices peers receivers] in *.


(** * The invariant *)

Lemma inv_world0 : inv world0.
Proof.
  split; simpl; intros; try (rewrite lookup_empty in *; discriminate).
Qed.

Lemma unused_None {A} (m : gmap positive A) (o : ptr) : unused m o = true -> m !! o = None.
Proof. unfold unused. destruct (m !! o); [discriminate|reflexivity]. Qed.

Lemma device_ok_with_peers_list (d : Device.t) (l : list ptr) :
  device_ok d -> NoDup l -> device_ok (with_peers_list d l).
Proof. intros (? & ? & ? & ? & ?) Hl. repeat split; simpl; auto; lia. Qed.

Lemma refs_empty (w : world) (pp : ptr) :
  inv w -> peers w !! pp = None -> refs w pp = ∅.
Proof.
  intros Hinv Hnone. apply map_empty. intros o.
  apply map_lookup_filter_None. right. intros r Hr Hpeer. simpl in Hpeer.
  destruct (inv_receiver w Hinv o r Hr) as (pp' & p & Hpp & Hp & _).
  congruence.
Qed.

Lemma inv_DeviceInit (w w' : world) ok o mtu f u re size time a tr :
  inv w -> devices w !! o = None ->
  DPReceiveDevice_Init ok o mtu f u re size time w = Ok a w' tr -> inv w'.
Proof.
  intros Hinv Hfresh H. unfold DPReceiveDevice_Init in H. run_inv; [|exact Hinv].
  destruct Hinv as [HD HR HP HC HV].
  split; cbn [devices peers receivers].
  - intros dev d Hl. apply lookup_insert_Some in Hl as [[<- <-] | [Hne Hl]]; [|eauto].
    repeat split; simpl; try lia; try (left; reflexivity); try apply NoDup_nil_2.
  - intros dev d node Hl Hin.
    apply lookup_insert_Some in Hl as [[<- <-] | [Hne Hl]]; [|eauto].
    simpl in Hin. apply elem_of_nil in Hin. contradiction.
  - intros node p Hp. destruct (HP node p Hp) as (Hrc & d & Hd & Hin).
    split; [exact Hrc|]. exists d. split; [|exact Hin].
    rewrite lookup_insert_ne; [exact Hd|]. congruence.
  - exact HC.
  - exact HV.
Qed.

Lemma inv_DeviceFree (w w' : world) o a tr :
  inv w -> DPReceiveDevice_Free o w = Ok a w' tr -> inv w'.
Proof.
  intros Hinv H. unfold DPReceiveDevice_Free in H. run_inv.
  match goal with H : bool_decide _ = true |- _ => apply bool_decide_eq_true in H; rename H into Hempty end.
  destruct Hinv as [HD HR HP HC HV].
  split; cbn [devices peers receivers].
  - intros dev d Hl. apply lookup_delete_Some in Hl as [_ Hl]. eauto.
  - intros dev d node Hl Hin. apply lookup_delete_Some in Hl as [_ Hl]. eauto.
  - intros node p Hp. destruct (HP node p Hp) as (Hrc & d & Hd & Hin).
    split; [exact Hrc|]. exists d. split; [|exact Hin].
    rewrite lookup_delete_ne; [exact Hd|].
    intros Heq. assert (d = x) by congruence. subst d.
    rewrite Hempty in Hin. apply elem_of_nil in Hin. contradiction.
  - exact HC.
  - exact HV.
Qed.

Lemma inv_SetPeerID (w w' : world) o id a tr :
  inv w -> DPReceiveDevice_SetPeerID o id w = Ok a w' tr -> inv w'.
Proof.
  intros Hinv H. unfold DPReceiveDevice_SetPeerID in H. run_inv.
  destruct Hinv as [HD HR HP HC HV].
  split; cbn [devices peers receivers].
  - intros dev d Hl. apply lookup_insert_Some in Hl as [[<- <-] | [Hne Hl]]; [|eauto].
    destruct (HD _ _ H0) as (? & ? & ? & ? & ?).
    repeat split; simpl; auto; lia.
  - intros dev d node Hl Hin.
    apply lookup_insert_Some in Hl as [[<- <-] | [Hne Hl]]; eauto.
  - intros node p Hp. destruct (HP node p Hp) as (Hrc & d & Hd & Hin).
    split; [exact Hrc|].
    destruct (decide (o = Peer.device p)) as [-> | Hne].
    + eexists. rewrite lookup_insert_eq. split; [reflexivity|].
      simpl. congruence.
    + exists d. rewrite lookup_insert_ne by exact Hne. auto.
  - exact HC.
  - exact HV.
Qed.

Lemma inv_PeerInit (w w' : world) o dev id dec rc a tr :
  inv w -> peers w !! o = None ->
  DPReceivePeer_Init o dev id dec rc w = Ok a w' tr -> inv w'.
Proof.
  intros Hinv Hfresh H. unfold DPReceivePeer_Init in H. run_inv.
  pose proof (refs_empty w o Hinv Hfresh) as Hrefs.
  destruct Hinv as [HD HR HP HC HV].
  assert (Hnotin : o ∉ Device.peers_list x).
  { intros Hin. destruct (HR _ _ _ H0 Hin) as (p & Hp & _). congruence. }
  split; cbn [devices peers receivers].
  - intros dev' d Hl. apply lookup_insert_Some in Hl as [[<- <-] | [Hne Hl]]; [|eauto].
    apply device_ok_with_peers_list; [eauto|].
    apply NoDup_app. split; [apply (HD _ _ H0)|]. split; [|apply NoDup_singleton].
    intros y Hy Hyo. apply list_elem_of_singleton in Hyo. subst y. contradiction.
  - intros dev' d node Hl Hin.
    apply lookup_insert_Some in Hl as [[<- <-] | [Hne Hl]].
    + simpl in Hin. apply elem_of_app in Hin as [Hin | Hin].
      * destruct (HR _ _ _ H0 Hin) as (p & Hp & Hdev).
        exists p. split; [|exact Hdev].
        rewrite lookup_insert_ne; [exact Hp|]. congruence.
      * apply list_elem_of_singleton in Hin. subst node.
        eexists. rewrite lookup_insert_eq. split; reflexivity.
    + destruct (HR _ _ _ Hl Hin) as (p & Hp & Hdev).
      exists p. split; [|exact Hdev].
      rewrite lookup_insert_ne; [exact Hp|]. congruence.
  - intros node p Hp.
    apply lookup_insert_Some in Hp as [[<- <-] | [Hne Hp]].
    + simpl. split.
      { apply orb_true_iff in H1 as [H1 | H1]; apply Z.eqb_eq in H1; auto. }
      eexists. rewrite lookup_insert_eq. split; [reflexivity|].
      simpl. apply elem_of_app. right. apply list_elem_of_here.
    + destruct (HP node p Hp) as (Hrc & d & Hd & Hin).
      split; [exact Hrc|].
      destruct (decide (dev = Peer.device p)) as [-> | Hne'].
      * eexists. rewrite lookup_insert_eq. split; [reflexivity|].
        simpl. apply elem_of_app. left. congruence.
      * exists d. rewrite lookup_insert_ne by exact Hne'. auto.
  - intros node p Hp. unfold refs. cbn [receivers].
    apply lookup_insert_Some in Hp as [[<- <-] | [Hne Hp]].
    + simpl. unfold refs in Hrefs. rewrite Hrefs, map_size_empty. reflexivity.
    + exact (HC node p Hp).
  - intros o' r Hr. destruct (HV o' r Hr) as (pp & p & Hpp & Hp & Hdev).
    exists pp, p. repeat split; auto.
    rewrite lookup_insert_ne; [exact Hp|]. congruence.
Qed.

Lemma inv_PeerFree (w w' : world) o a tr :
  inv w -> DPReceivePeer_Free o w = Ok a w' tr -> inv w'.
Proof.
  intros Hinv H. unfold DPReceivePeer_Free in H. run_inv.
  destruct Hinv as [HD HR HP HC HV].
  assert (Hrefs : refs w o = ∅).
  { apply map_size_empty_iff. pose proof (HC o x H0) as Hc.
    apply Z.eqb_eq in H1. lia. }
  split; cbn [devices peers receivers].
  - intros dev' d Hl. apply lookup_insert_Some in Hl as [[<- <-] | [Hne Hl]]; [|eauto].
    apply device_ok_with_peers_list; [eauto|].
    apply NoDup_filter. apply (HD _ _ H3).
  - intros dev' d node Hl Hin.
    apply lookup_insert_Some in Hl as [[<- <-] | [Hne Hl]].
    + simpl in Hin. apply list_elem_of_filter in Hin as [Hno Hin].
      destruct (HR _ _ _ H3 Hin) as (p & Hp & Hdev).
      exists p. split; [|exact Hdev].
      rewrite lookup_delete_ne; [exact Hp|]. congruence.
    + destruct (HR _ _ _ Hl Hin) as (p & Hp & Hdev).
      exists p. split; [|exact Hdev].
      rewrite lookup_delete_ne; [exact Hp|].
      intros Heq. assert (p = x) by congruence. subst p. congruence.
  - intros node p Hp. apply lookup_delete_Some in Hp as [Hne Hp].
    destruct (HP node p Hp) as (Hrc & d & Hd & Hin).
    split; [exact Hrc|].
    destruct (decide (Peer.device x = Peer.device p)) as [Heq | Hne'].
    + rewrite Heq. eexists. rewrite lookup_insert_eq. split; [reflexivity|].
      simpl. apply list_elem_of_filter. split; [congruence|].
      rewrite Heq in H3. congruence.
    + exists d. rewrite lookup_insert_ne by exact Hne'. auto.
  - intros node p Hp. apply lookup_delete_Some in Hp as [Hne Hp].
    exact (HC node p Hp).
  - intros o' r Hr. destruct (HV o' r Hr) as (pp & p & Hpp & Hp & Hdev).
    exists pp, p. repeat split; auto.
    rewrite lookup_delete_ne; [exact Hp|].
    intros Heq. subst pp.
    apply (map_filter_empty_not_lookup _ _ o' r Hrefs); [exact Hpp|exact Hr].
Qed.

Lemma inv_set_sink (w : world) (o : ptr) (p : Peer.t) (s : option ptr) :
  inv w -> peers w !! o = Some p ->
  inv (World (devices w) (<[o := with_dp_sink p s]> (peers w)) (receivers w)).
Proof.
  intros [HD HR HP HC HV] Hp.
  split; cbn [devices peers receivers].
  - exact HD.
  - intros dev d node Hl Hin. destruct (HR _ _ _ Hl Hin) as (q & Hq & Hdev).
    destruct (decide (o = node)) as [-> | Hne].
    + eexists. rewrite lookup_insert_eq. split; [reflexivity|]. simpl. congruence.
    + exists q. rewrite lookup_insert_ne by exact Hne. auto.
  - intros node q Hq. apply lookup_insert_Some in Hq as [[<- <-] | [Hne Hq]]; [|eauto].
    exact (HP _ _ Hp).
  - intros node q Hq. unfold refs. cbn [receivers].
    apply lookup_insert_Some in Hq as [[<- <-] | [Hne Hq]]; [|exact (HC _ _ Hq)].
    exact (HC _ _ Hp).
  - intros o' r Hr. destruct (HV o' r Hr) as (pp & q & Hpp & Hq & Hdev).
    destruct (decide (o = pp)) as [-> | Hne].
    + eexists _, _. rewrite lookup_insert_eq. repeat split; eauto. simpl. congruence.
    + exists pp, q. rewrite lookup_insert_ne by exact Hne. auto.
Qed.

Lemma inv_AttachSink (w w' : world) o s a tr :
  inv w -> DPReceivePeer_AttachSink o s w = Ok a w' tr -> inv w'.
Proof.
  intros Hinv H. unfold DPReceivePeer_AttachSink in H. run_inv.
  now apply inv_set_sink.
Qed.

Lemma inv_DetachSink (w w' : world) o a tr :
  inv w -> DPReceivePeer_DetachSink o w = Ok a w' tr -> inv w'.
Proof.
  intros Hinv H. unfold DPReceivePeer_DetachSink in H. run_inv.
  now apply inv_set_sink.
Qed.

Lemma inv_ReceiverInit (w w' : world) o peer a tr :
  inv w -> receivers w !! o = None ->
  DPReceiveReceiver_Init o peer w = Ok a w' tr -> inv w'.
Proof.
  intros Hinv Hfresh H. unfold DPReceiveReceiver_Init in H. run_inv.
  destruct Hinv as [HD HR HP HC HV].
  split; cbn [devices peers receivers].
  - exact HD.
  - intros dev d node Hl Hin. destruct (HR _ _ _ Hl Hin) as (q & Hq & Hdev).
    destruct (decide (peer = node)) as [-> | Hne].
    + eexists. rewrite lookup_insert_eq. split; [reflexivity|]. simpl. congruence.
    + exists q. rewrite lookup_insert_ne by exact Hne. auto.
  - intros node q Hq. apply lookup_insert_Some in Hq as [[<- <-] | [Hne Hq]]; [|eauto].
    exact (HP _ _ H0).
  - intros node q Hq. unfold refs. cbn [receivers].
    apply lookup_insert_Some in Hq as [[<- <-] | [Hne Hq]].
    + rewrite map_filter_insert_True by reflexivity.
      rewrite map_size_insert_None.
      * simpl. pose proof (HC _ _ H0) as Hc. unfold refs in Hc. lia.
      * apply map_lookup_filter_None. left. exact Hfresh.
    + rewrite map_filter_insert_False by (simpl; congruence).
      rewrite delete_id by exact Hfresh. exact (HC _ _ Hq).
  - intros o' r Hr.
    apply lookup_insert_Some in Hr as [[<- <-] | [Hne Hr]].
    + eexists _, _. rewrite lookup_insert_eq. repeat split; reflexivity.
    + destruct (HV o' r Hr) as (pp & q & Hpp & Hq & Hdev).
      destruct (decide (peer = pp)) as [-> | Hne'].
      * eexists _, _. rewrite lookup_insert_eq. repeat split; eauto. simpl. congruence.
      * exists pp, q. rewrite lookup_insert_ne by exact Hne'. auto.
Qed.

Lemma inv_ReceiverFree (w w' : world) o a tr :
  inv w -> DPReceiveReceiver_Free o w = Ok a w' tr -> inv w'.
Proof.
  intros Hinv H. unfold DPReceiveReceiver_Free in H. run_inv.
  destruct Hinv as [HD HR HP HC HV].
  rename x into r, x3 into peer, x2 into p.
  split; cbn [devices peers receivers].
  - exact HD.
  - intros dev d node Hl Hin. destruct (HR _ _ _ Hl Hin) as (q & Hq & Hdev).
    destruct (decide (peer = node)) as [-> | Hne].
    + eexists. rewrite lookup_insert_eq. split; [reflexivity|]. simpl. congruence.
    + exists q. rewrite lookup_insert_ne by exact Hne. auto.
  - intros node q Hq. apply lookup_insert_Some in Hq as [[<- <-] | [Hne Hq]]; [|eauto].
    exact (HP _ _ H2).
  - intros node q Hq. unfold refs. cbn [receivers].
    rewrite map_filter_delete.
    apply lookup_insert_Some in Hq as [[<- <-] | [Hne Hq]].
    + assert (Hin : filter (fun kr => Receiver.peer kr.2 = Some peer) (receivers w) !! o
                    = Some r).
      { apply map_lookup_filter_Some. split; [assumption|]. simpl. assumption. }
      rewrite map_size_delete_Some by eauto.
      assert (Hc : Peer.d_receivers_ctr p
                   = Z.of_nat (size (filter (fun kr => Receiver.peer kr.2 = Some peer)
                                       (receivers w)))) by (eapply HC; eauto).
      assert (size (filter (fun kr => Receiver.peer kr.2 = Some peer) (receivers w)) <> 0%nat).
      { eapply map_size_ne_0_lookup_2. eauto. }
      simpl. lia.
    + rewrite delete_id; [exact (HC _ _ Hq)|].
      apply map_lookup_filter_None. right. intros r' Hr' Hpeer. simpl in Hpeer.
      congruence.
  - intros o' r' Hr'. apply lookup_delete_Some in Hr' as [Hne Hr'].
    destruct (HV o' r' Hr') as (pp & q & Hpp & Hq & Hdev).
    destruct (decide (peer = pp)) as [-> | Hne'].
    + eexists _, _. rewrite lookup_insert_eq. repeat split; eauto. simpl. congruence.
    + exists pp, q. rewrite lookup_insert_ne by exact Hne'. auto.
Qed.

Lemma run_api_inv (c : api) (w w' : world) :
  inv w -> run_api c w = Some w' -> inv w'.
Proof.
  intros Hinv Hrun. unfold run_api in Hrun.
  destruct (storage_free c w) eqn:Hfree; [|discriminate].
  destruct c; unfold after in Hrun; simpl in Hfree;
    match type of Hrun with
    | match ?m with _ => _ end = _ => destruct m as [|a w1 tr] eqn:Hop; [discriminate|]
    end;
    injection Hrun as ->.
  - eapply inv_DeviceInit; eauto using unused_None.
  - eapply inv_DeviceFree; eauto.
  - eapply inv_SetPeerID; eauto.
  - eapply inv_PeerInit; eauto using unused_None.
  - eapply inv_PeerFree; eauto.
  - eapply inv_AttachSink; eauto.
  - eapply inv_DetachSink; eauto.
  - eapply inv_ReceiverInit; eauto using unused_None.
  - eapply inv_ReceiverFree; eauto.
  - apply read_only_handler in Hop. now subst.
Qed.

Lemma run_apis_inv (cs : list api) (w w' : world) :
  inv w -> run_apis cs w = Some w' -> inv w'.
Proof.
  revert w. induction cs as [|c cs IH]; intros w Hinv Hrun; simpl in Hrun.
  - injection Hrun as <-. exact Hinv.
  - destruct (run_api c w) as [w1|] eqn:Hc; [|discriminate].
    eapply IH; [|exact Hrun]. eapply run_api_inv; eauto.
Qed.

Lemma reachable_keeps_inv (w : world) : reachable w -> inv w.
Proof.
  intros [cs Hcs]. eapply run_apis_inv; [apply inv_world0 | exact Hcs].
Qed.

Lemma inv_handler_pre (w : world) (o : ptr) (r : Receiver.t) :
  inv w -> receivers w !! o = Some r ->
  exists peer_ptr peer device,
    Receiver.peer r = Some peer_ptr /\
    peers w !! peer_ptr = Some peer /\
    devices w !! Peer.device peer = Some device /\
    peer_ptr ∈ Device.peers_list device /\
    forall packet,
      data_len packet <= Device.packet_mtu device ->
      handler_pre w o packet r peer_ptr peer device.
Proof.
  intros [HD HR HP HC HV] Hr.
  destruct (HV o r Hr) as (pp & p & Hpp & Hp & Hdev).
  destruct (HP pp p Hp) as (_ & d & Hd & Hin).
  exists pp, p, d. repeat split; auto.
  apply Forall_forall. intros node Hnode.
  destruct (HR _ _ _ Hd Hnode) as (q & Hq & _). eauto.
Qed.

Lemma demo_reachable : reachable w_demo.
Proof. exists demo_calls. vm_compute. reflexivity. Qed.

(** X16.  Every store that calls of the module can build from nothing, each
    on storage that is not in use, satisfies [inv]: the devices have the
    parameters [DPReceiveDevice_Init] checked and computed; the peers list of
    a device has no duplicates and holds exactly the live peers of the
    device; the receiver counter of a peer is the number of live receivers
    that refer to it; the peer of a live receiver is live. *)
Theorem store_invariant (w : world) : reachable w -> inv w.
Proof. apply reachable_keeps_inv. Qed.

Lemma store_invariant_witness : inv w_demo.
Proof.
  apply (store_invariant w_demo). exists demo_calls. vm_compute. reflexivity.
Defined.

(** X17.  In such a store the receive handler of a live receiver never
    faults: for every buffer within the MTU of the receive interface it
    returns, leaves the store unchanged and has one of the nine outcomes. *)
Theorem receive_never_faults (w : world) (o : ptr) (r : Receiver.t) :
  reachable w ->
  receivers w !! o = Some r ->
  exists peer_ptr peer device,
    Receiver.peer r = Some peer_ptr /\
    peers w !! peer_ptr = Some peer /\
    devices w !! Peer.device peer = Some device /\
    forall host packet,
      data_len packet <= Device.packet_mtu device ->
      exists tr,
        receiver_recv_handler_send host o packet w = Ok tt w tr /\
        handled w o peer_ptr peer device packet tr.
Proof.
  intros Hreach Hr.
  destruct (inv_handler_pre w o r (reachable_keeps_inv w Hreach) Hr)
    as (pp & p & d & Hpp & Hp & Hd & _ & Hpre).
  exists pp, p, d. repeat split; auto.
  intros host packet Hlen. eapply handler_cases. apply Hpre. exact Hlen.
Qed.

(** X18.  In such a store [DPReceivePeer_Free] faults on a peer that a live
    receiver refers to or that has a sink attached, and
    [DPReceiveDevice_Free] faults on the device of a live peer: no object
    can be destroyed while another one still points to it. *)
Theorem frees_are_guarded (w : world) :
  reachable w ->
  (forall o r pp,
      receivers w !! o = Some r -> Receiver.peer r = Some pp ->
      DPReceivePeer_Free pp w = Fault) /\
  (forall node p s,
      peers w !! node = Some p -> Peer.dp_sink p = Some s ->
      DPReceivePeer_Free node w = Fault) /\
  (forall node p,
      peers w !! node = Some p ->
      DPReceiveDevice_Free (Peer.device p) w = Fault).
Proof.
  intros Hreach. pose proof (reachable_keeps_inv w Hreach) as [HD HR HP HC HV].
  split; [|split].
  - intros o r pp Hr Hpp.
    destruct (HV o r Hr) as (pp' & p & Hpp' & Hp & _).
    assert (pp' = pp) by congruence. subst pp'.
    assert (Hne : size (refs w pp) <> 0%nat).
    { apply (map_size_ne_0_lookup_2 _ o). exists r.
      apply map_lookup_filter_Some. split; [exact Hr|exact Hpp]. }
    pose proof (HC pp p Hp) as Hc.
    unfold DPReceivePeer_Free, bind, get_peer. rewrite Hp. simpl.
    destruct (Z.eqb_spec (Peer.d_receivers_ctr p) 0) as [Hz|Hz]; [lia|reflexivity].
  - intros node p s Hp Hs.
    unfold DPReceivePeer_Free, bind, get_peer. rewrite Hp. simpl.
    destruct (Peer.d_receivers_ctr p =? 0); [|reflexivity]. simpl.
    rewrite bool_decide_eq_false_2 by congruence. reflexivity.
  - intros node p Hp.
    destruct (HP node p Hp) as (_ & d & Hd & Hin).
    unfold DPReceiveDevice_Free, bind, get_device. rewrite Hd. simpl.
    rewrite bool_decide_eq_false_2; [reflexivity|].
    intros Hnil. rewrite Hnil in Hin. apply elem_of_nil in Hin. exact Hin.
Qed.

(** * Running the lifecycle functions *)

Lemma DeviceInit_run (w : world) ok o mtu f u re size time :
  0 <= mtu <= INT_MAX - DATAPROTO_MAX_OVERHEAD -> 0 < size ->
  DPReceiveDevice_Init ok o mtu f u re size time w
  = if ok then
      Ok 1 (World (<[o := Device.mk mtu f u re size time (DATAPROTO_MAX_OVERHEAD + mtu) 0 0 []]>
                     (devices w)) (peers w) (receivers w))
        [E_DPRelayRouter_Init o mtu re]
    else
      Ok 0 w [E_DPRelayRouter_Init o mtu re; E_BLog BLOG_ERROR "DPRelayRouter_Init failed" []].
Proof.
  intros [Hlo Hhi] Hsize.
  unfold DPReceiveDevice_Init, bind, ASSERT.
  apply Z.leb_le in Hlo, Hhi. apply Z.ltb_lt in Hsize.
  rewrite Hlo, Hhi, Hsize. simpl. destruct ok; reflexivity.
Qed.

Lemma DeviceFree_run (w : world) o d :
  devices w !! o = Some d -> Device.peers_list d = [] ->
  DPReceiveDevice_Free o w
  = Ok tt (World (delete o (devices w)) (peers w) (receivers w)) [E_DPRelayRouter_Free o].
Proof.
  intros Hd Hl. unfold DPReceiveDevice_Free, bind, get_device, ASSERT.
  rewrite Hd. simpl. rewrite bool_decide_eq_true_2 by exact Hl. reflexivity.
Qed.

Lemma PeerInit_run (w : world) o dev d id dec rc :
  devices w !! dev = Some d -> rc = 0 \/ rc = 1 ->
  DPReceivePeer_Init o dev id dec rc w
  = Ok tt (World (<[dev := with_peers_list d (Device.peers_list d ++ [o])]> (devices w))
             (<[o := Peer.mk dev id dec rc None 0]> (peers w)) (receivers w))
      [E_DPRelaySource_Init o dev id (Device.reactor d); E_DPRelaySink_Init o id].
Proof.
  intros Hd Hrc. unfold DPReceivePeer_Init, bind, get_device, ASSERT.
  rewrite Hd. simpl.
  assert (Hb : (rc =? 0) || (rc =? 1) = true) by (destruct Hrc as [-> | ->]; reflexivity).
  rewrite Hb. reflexivity.
Qed.

Lemma PeerFree_run (w : world) o p d :
  peers w !! o = Some p -> Peer.d_receivers_ctr p = 0 -> Peer.dp_sink p = None ->
  devices w !! Peer.device p = Some d ->
  DPReceivePeer_Free o w
  = Ok tt (World (<[Peer.device p :=
                     with_peers_list d (filter (fun q => q <> o) (Device.peers_list d))]>
                    (devices w))
             (delete o (peers w)) (receivers w))
      [E_DPRelaySink_Free o; E_DPRelaySource_Free o].
Proof.
  intros Hp Hctr Hsink Hd. unfold DPReceivePeer_Free, bind, get_peer, get_device, ASSERT.
  rewrite Hp. simpl. rewrite Hctr. simpl.
  rewrite bool_decide_eq_true_2 by exact Hsink. simpl.
  rewrite Hd. reflexivity.
Qed.

Lemma AttachSink_run (w : world) o p s :
  peers w !! o = Some p -> Peer.dp_sink p = None ->
  DPReceivePeer_AttachSink o (Some s) w
  = Ok tt (World (devices w) (<[o := with_dp_sink p (Some s)]> (peers w)) (receivers w))
      [E_DPRelaySink_Attach o s].
Proof.
  intros Hp Hsink. unfold DPReceivePeer_AttachSink, bind, get_peer, ASSERT.
  rewrite Hp. simpl. rewrite bool_decide_eq_true_2 by exact Hsink. reflexivity.
Qed.

Lemma DetachSink_run (w : world) o p s :
  peers w !! o = Some p -> Peer.dp_sink p = Some s ->
  DPReceivePeer_DetachSink o w
  = Ok tt (World (devices w) (<[o := with_dp_sink p None]> (peers w)) (receivers w))
      [E_DPRelaySink_Detach o].
Proof.
  intros Hp Hsink. unfold DPReceivePeer_DetachSink, bind, get_peer, ASSERT.
  rewrite Hp. simpl. rewrite bool_decide_eq_true_2 by congruence. reflexivity.
Qed.

Lemma ReceiverInit_run (w : world) o peer p d :
  peers w !! peer = Some p -> devices w !! Peer.device p = Some d ->
  DPReceiveReceiver_Init o peer w
  = Ok tt (World (devices w)
             (<[peer := with_receivers_ctr p (Peer.d_receivers_ctr p + 1)]> (peers w))
             (<[o := Receiver.mk (Some peer) (Peer.device p)]> (receivers w)))
      [E_PacketPassInterface_Init o (Device.packet_mtu d)].
Proof.
  intros Hp Hd. unfold DPReceiveReceiver_Init, bind, get_peer, get_device.
  rewrite Hp. simpl. rewrite Hd. reflexivity.
Qed.

Lemma ReceiverFree_run (w : world) o r peer p :
  receivers w !! o = Some r -> Receiver.peer r = Some peer -> peers w !! peer = Some p ->
  DPReceiveReceiver_Free o w
  = Ok tt (World (devices w)
             (<[peer := with_receivers_ctr p (Peer.d_receivers_ctr p - 1)]> (peers w))
             (delete o (receivers w)))
      [E_PacketPassInterface_Free o].
Proof.
  intros Hr Hpeer Hp. unfold DPReceiveReceiver_Free, bind, get_receiver, get_peer.
  rewrite Hr. simpl. rewrite Hpeer. simpl. rewrite Hp. reflexivity.
Qed.

Lemma find_peer_run (w : world) (dev : ptr) (d : Device.t) (id : Z) (res : option ptr) :
  devices w !! dev = Some d ->
  find_peer_from (Device.peers_list d) id w = Ok res w [] ->
  find_peer dev id w = Ok res w [E_find_peer dev id].
Proof.
  intros Hd Hrun. unfold find_peer, bind, call, get_device. rewrite Hd. simpl.
  rewrite Hrun. reflexivity.
Qed.

Lemma find_peer_found (w : world) (dev : ptr) (d : Device.t) (id : Z) (res : option ptr)
    (w' : world) (tr : list event) :
  devices w !! dev = Some d ->
  Forall (fun node => is_Some (peers w !! node)) (Device.peers_list d) ->
  find_peer dev id w = Ok res w' tr ->
  found w (Device.peers_list d) id res.
Proof.
  intros Hd Hv Hrun.
  destruct (spec_elim _ _ _ (find_peer_spec w dev d id Hd Hv)) as (res0 & tr0 & Hrun0 & _ & Hf).
  congruence.
Qed.

Lemma with_peers_list_same (d : Device.t) (l : list ptr) :
  with_peers_list (with_peers_list d l) (Device.peers_list d) = d.
Proof. destruct d. reflexivity. Qed.

Lemma filter_ne_notin (l : list ptr) (o : ptr) :
  o ∉ l -> filter (fun q => q <> o) l = l.
Proof.
  induction l as [|x l IH]; intros Hnotin; [reflexivity|].
  apply not_elem_of_cons in Hnotin as [Hne Hnotin].
  rewrite filter_cons_True by congruence. now rewrite IH.
Qed.

(** * The registry *)

Lemma found_snoc (w w' : world) (l : list ptr) (o : ptr) (pnew : Peer.t) (id : Z)
    (res : option ptr) :
  peers w' = <[o := pnew]> (peers w) ->
  o ∉ l ->
  found w l id res ->
  found w' (l ++ [o]) id
    (match res with
     | Some n => Some n
     | None => if Peer.peer_id pnew =? id then Some o else None
     end).
Proof.
  intros Hpeers Hnotin Hf.
  assert (Hold : forall m q, m ∈ l -> peers w' !! m = Some q -> peers w !! m = Some q).
  { intros m q Hm Hq. rewrite Hpeers, lookup_insert_ne in Hq; [exact Hq|].
    intros <-. contradiction. }
  destruct res as [n|].
  - destruct Hf as (b & a & p & -> & Hp & Hid & Hfirst).
    exists b, (a ++ [o]), p. repeat split; auto.
    + now rewrite <- app_assoc.
    + rewrite Hpeers, lookup_insert_ne; [exact Hp|].
      intros <-. apply Hnotin. apply elem_of_app. right. apply list_elem_of_here.
    + intros m q Hm Hq. apply (Hfirst m q Hm). apply Hold; [|exact Hq].
      apply elem_of_app. now left.
  - destruct (Z.eqb_spec (Peer.peer_id pnew) id) as [Heq | Hne].
    + exists l, [], pnew. repeat split; auto.
      * rewrite Hpeers. apply lookup_insert_eq.
      * intros m q Hm Hq. apply (Hf m q Hm). now apply Hold.
    + intros m q Hm Hq. apply elem_of_app in Hm as [Hm | Hm].
      * apply (Hf m q Hm). now apply Hold.
      * apply list_elem_of_singleton in Hm. subst m.
        rewrite Hpeers, lookup_insert_eq in Hq. congruence.
Qed.

Lemma registry_fresh (w : world) (l : list ptr) (o : ptr) :
  Forall (fun node => is_Some (peers w !! node)) l -> peers w !! o = None -> o ∉ l.
Proof.
  intros Hv Hfresh Hin. rewrite Forall_forall in Hv.
  destruct (Hv o Hin) as [p Hp]. congruence.
Qed.

Lemma registry_valid_after_register (w : world) (l : list ptr) (o : ptr) (pnew : Peer.t) :
  Forall (fun node => is_Some (peers w !! node)) l ->
  Forall (fun node => is_Some (<[o := pnew]> (peers w) !! node)) (l ++ [o]).
Proof.
  intros Hv. apply Forall_app. split.
  - eapply Forall_impl; [exact Hv|]. intros node [p Hp].
    destruct (decide (o = node)) as [-> | Hne].
    + rewrite lookup_insert_eq. eauto.
    + rewrite lookup_insert_ne by exact Hne. eauto.
  - constructor; [|constructor]. rewrite lookup_insert_eq. eauto.
Qed.

(** X19.  Lookup after registration.  After [DPReceivePeer_Init] of a new
    peer with ID [id], [find_peer] returns for every ID what it returned
    before when that was a peer, and otherwise the new peer when the ID is
    [id] and nothing when it is not.  In particular a peer registered under
    an ID that is already taken is never found. *)
Theorem lookup_after_register (w : world) (o dev : ptr) (d : Device.t)
    (id : Z) (dec : ptr) (rc : Z) (id' : Z) (res : option ptr) :
  devices w !! dev = Some d ->
  Forall (fun node => is_Some (peers w !! node)) (Device.peers_list d) ->
  peers w !! o = None ->
  rc = 0 \/ rc = 1 ->
  find_peer dev id' w = Ok res w [E_find_peer dev id'] ->
  exists w',
    DPReceivePeer_Init o dev id dec rc w
      = Ok tt w' [E_DPRelaySource_Init o dev id (Device.reactor d);
                  E_DPRelaySink_Init o id] /\
    find_peer dev id' w'
      = Ok (match res with
            | Some n => Some n
            | None => if id =? id' then Some o else None
            end) w' [E_find_peer dev id'].
Proof.
  intros Hd Hv Hfresh Hrc Hfind.
  eexists. split; [apply PeerInit_run; assumption|].
  pose proof (find_peer_found w dev d id' res _ _ Hd Hv Hfind) as Hf.
  eapply find_peer_run.
  - cbn [devices]. apply lookup_insert_eq.
  - cbn [Device.peers_list with_peers_list].
    apply found_run.
    + cbn [peers]. now apply registry_valid_after_register.
    + apply (found_snoc w _ (Device.peers_list d) o
               (Peer.mk dev id dec rc None 0) id' res);
        [reflexivity | now apply (registry_fresh w) | exact Hf].
Qed.

(** X20.  If the IDs of the registered peers are unique and [find_peer] does
    not find [id], they are still unique after a peer with this ID is
    registered: a caller that looks the ID up first keeps the registry
    free of duplicates. *)
Theorem register_keeps_ids_unique (w : world) (o dev : ptr) (d : Device.t)
    (id : Z) (dec : ptr) (rc : Z) :
  devices w !! dev = Some d ->
  Forall (fun node => is_Some (peers w !! node)) (Device.peers_list d) ->
  peers w !! o = None ->
  rc = 0 \/ rc = 1 ->
  unique_ids w (Device.peers_list d) ->
  find_peer dev id w = Ok None w [E_find_peer dev id] ->
  exists w' d',
    DPReceivePeer_Init o dev id dec rc w
      = Ok tt w' [E_DPRelaySource_Init o dev id (Device.reactor d);
                  E_DPRelaySink_Init o id] /\
    devices w' !! dev = Some d' /\
    Device.peers_list d' = Device.peers_list d ++ [o] /\
    unique_ids w' (Device.peers_list d').
Proof.
  intros Hd Hv Hfresh Hrc Huniq Hfind.
  pose proof (find_peer_found w dev d id None _ _ Hd Hv Hfind) as Hf. simpl in Hf.
  pose proof (registry_fresh w _ o Hv Hfresh) as Hnotin.
  eexists _, _. split; [apply PeerInit_run; assumption|].
  split; [cbn [devices]; apply lookup_insert_eq|].
  split; [reflexivity|].
  cbn [Device.peers_list with_peers_list].
  intros a b pa pb Ha Hb Hpa Hpb Hid. cbn [peers] in Hpa, Hpb.
  apply elem_of_app in Ha as [Ha | Ha]; apply elem_of_app in Hb as [Hb | Hb];
    try (apply list_elem_of_singleton in Ha; subst a);
    try (apply list_elem_of_singleton in Hb; subst b);
    try reflexivity.
  - rewrite lookup_insert_ne in Hpa by congruence.
    rewrite lookup_insert_ne in Hpb by congruence. eauto.
  - rewrite lookup_insert_ne in Hpa by congruence.
    rewrite lookup_insert_eq in Hpb. injection Hpb as <-. simpl in Hid.
    exfalso. exact (Hf a pa Ha Hpa Hid).
  - rewrite lookup_insert_eq in Hpa. injection Hpa as <-. simpl in Hid.
    rewrite lookup_insert_ne in Hpb by congruence.
    exfalso. exact (Hf b pb Hb Hpb (eq_sym Hid)).
Qed.

(** X21.  [DPReceivePeer_Free] undoes [DPReceivePeer_Init]: freeing a peer
    right after its initialisation gives back the store as it was, peers
    list included. *)
Theorem peer_init_free_round_trip (w : world) (o dev : ptr) (d : Device.t)
    (id : Z) (dec : ptr) (rc : Z) :
  devices w !! dev = Some d ->
  Forall (fun node => is_Some (peers w !! node)) (Device.peers_list d) ->
  peers w !! o = None ->
  rc = 0 \/ rc = 1 ->
  exists w1,
    DPReceivePeer_Init o dev id dec rc w
      = Ok tt w1 [E_DPRelaySource_Init o dev id (Device.reactor d);
                  E_DPRelaySink_Init o id] /\
    DPReceivePeer_Free o w1 = Ok tt w [E_DPRelaySink_Free o; E_DPRelaySource_Free o].
Proof.
  intros Hd Hv Hfresh Hrc.
  pose proof (registry_fresh w _ o Hv Hfresh) as Hnotin.
  eexists. split; [apply PeerInit_run; assumption|].
  erewrite PeerFree_run;
    [| cbn [peers]; apply lookup_insert_eq | reflexivity | reflexivity
     | cbn [devices Peer.device]; apply lookup_insert_eq ].
  f_equal. cbn [devices peers receivers Peer.device Device.peers_list with_peers_list].
  destruct w as [D P R]. cbn [devices peers receivers] in *. f_equal.
  - rewrite insert_insert_eq.
    rewrite filter_app, (filter_ne_notin _ _ Hnotin).
    rewrite filter_cons_False, filter_nil, app_nil_r by (intros H; now apply H).
    rewrite with_peers_list_same. now apply insert_id.
  - now apply delete_insert_id.
Qed.

Lemma found_filter (w w' : world) (l : list ptr) (o : ptr) (id : Z) (res : option ptr) :
  peers w' = delete o (peers w) ->
  res <> Some o ->
  found w l id res ->
  found w' (filter (fun q => q <> o) l) id res.
Proof.
  intros Hpeers Hres Hf.
  assert (Hold : forall m q, peers w' !! m = Some q -> peers w !! m = Some q).
  { intros m q Hq. rewrite Hpeers in Hq. now apply lookup_delete_Some in Hq as [_ Hq]. }
  destruct res as [n|].
  - destruct Hf as (b & a & p & -> & Hp & Hid & Hfirst).
    assert (Hne : n <> o) by congruence.
    exists (filter (fun q => q <> o) b), (filter (fun q => q <> o) a), p.
    repeat split; auto.
    + rewrite filter_app, filter_cons_True by exact Hne. reflexivity.
    + rewrite Hpeers, lookup_delete_ne; [exact Hp|]. congruence.
    + intros m q Hm Hq. apply list_elem_of_filter in Hm as [_ Hm]. eauto.
  - intros m q Hm Hq. apply list_elem_of_filter in Hm as [_ Hm]. eauto.
Qed.

Lemma registry_valid_after_unregister (w : world) (l : list ptr) (o : ptr) :
  Forall (fun node => is_Some (peers w !! node)) l ->
  Forall (fun node => is_Some (delete o (peers w) !! node)) (filter (fun q => q <> o) l).
Proof.
  intros Hv. apply Forall_forall. intros node Hin.
  apply list_elem_of_filter in Hin as [Hne Hin].
  rewrite Forall_forall in Hv. destruct (Hv node Hin) as [p Hp].
  exists p. rewrite lookup_delete_ne; [exact Hp|]. congruence.
Qed.

(** X22.  Lookup after removal.  A peer without receivers and without sink can
    be freed; afterwards it is not in the store, [find_peer] never returns
    it, and every lookup that returned another peer, or none, still returns
    the same. *)
Theorem lookup_after_unregister (w : world) (o : ptr) (p : Peer.t) (d : Device.t) :
  peers w !! o = Some p ->
  Peer.d_receivers_ctr p = 0 ->
  Peer.dp_sink p = None ->
  devices w !! Peer.device p = Some d ->
  Forall (fun node => is_Some (peers w !! node)) (Device.peers_list d) ->
  exists w',
    DPReceivePeer_Free o w = Ok tt w' [E_DPRelaySink_Free o; E_DPRelaySource_Free o] /\
    peers w' !! o = None /\
    forall id,
      exists res',
        find_peer (Peer.device p) id w' = Ok res' w' [E_find_peer (Peer.device p) id] /\
        res' <> Some o /\
        forall res,
          find_peer (Peer.device p) id w = Ok res w [E_find_peer (Peer.device p) id] ->
          res <> Some o -> res' = res.
Proof.
  intros Hp Hctr Hsink Hd Hv.
  set (l' := filter (fun q => q <> o) (Device.peers_list d)).
  set (w' := World (<[Peer.device p := with_peers_list d l']> (devices w))
               (delete o (peers w)) (receivers w)).
  exists w'. split; [eapply PeerFree_run; eassumption|].
  split; [apply lookup_delete_eq|].
  intros id.
  assert (Hv' : Forall (fun node => is_Some (peers w' !! node))
                  (Device.peers_list (with_peers_list d l'))).
  { apply registry_valid_after_unregister. exact Hv. }
  assert (Hd' : devices w' !! Peer.device p = Some (with_peers_list d l')).
  { apply lookup_insert_eq. }
  destruct (spec_elim _ _ _ (find_peer_spec w' _ _ id Hd' Hv'))
    as (res' & tr & Hrun & -> & Hf').
  exists res'. split; [exact Hrun|]. split.
  - intros ->. destruct Hf' as (_ & _ & q & _ & Hq & _).
    unfold w' in Hq. cbn [peers] in Hq. rewrite lookup_delete_eq in Hq. discriminate.
  - intros res Hfind Hres.
    pose proof (find_peer_found w _ d id res _ _ Hd Hv Hfind) as Hf.
    apply (found_inj w' (Device.peers_list (with_peers_list d l')) id res' res Hv' Hf').
    apply (found_filter w w' (Device.peers_list d) o id res); [reflexivity | exact Hres | exact Hf].
Qed.

Lemma with_dp_sink_same (p : Peer.t) (s : option ptr) :
  with_dp_sink (with_dp_sink p s) (Peer.dp_sink p) = p.
Proof. destruct p. reflexivity. Qed.

Lemma with_receivers_ctr_same (p : Peer.t) (n : Z) :
  with_receivers_ctr (with_receivers_ctr p n) (Peer.d_receivers_ctr p) = p.
Proof. destruct p. reflexivity. Qed.

(** X23.  [DPReceivePeer_DetachSink] undoes [DPReceivePeer_AttachSink]: the
    store is as before.  Attaching a second sink, attaching a null sink and
    detaching when no sink is attached fault. *)
Theorem sink_attach_detach (w : world) (o : ptr) (p : Peer.t) (s s' : ptr) :
  peers w !! o = Some p ->
  Peer.dp_sink p = None ->
  exists w1,
    DPReceivePeer_AttachSink o (Some s) w = Ok tt w1 [E_DPRelaySink_Attach o s] /\
    DPReceivePeer_DetachSink o w1 = Ok tt w [E_DPRelaySink_Detach o] /\
    DPReceivePeer_AttachSink o (Some s') w1 = Fault /\
    DPReceivePeer_DetachSink o w = Fault /\
    DPReceivePeer_AttachSink o None w = Fault.
Proof.
  intros Hp Hnone.
  eexists. split; [eapply AttachSink_run; eassumption|].
  split; [|split; [|split]].
  - erewrite DetachSink_run; [| cbn [peers]; apply lookup_insert_eq | reflexivity].
    f_equal. destruct w as [D P R]. cbn [devices peers receivers] in *. f_equal.
    rewrite insert_insert_eq. rewrite <- Hnone at 1. rewrite with_dp_sink_same.
    now apply insert_id.
  - unfold DPReceivePeer_AttachSink, bind, get_peer. cbn [peers].
    rewrite lookup_insert_eq. reflexivity.
  - unfold DPReceivePeer_DetachSink, bind, get_peer. rewrite Hp. simpl.
    rewrite bool_decide_eq_false_2; [reflexivity|]. intros H. now apply H.
  - unfold DPReceivePeer_AttachSink, bind, get_peer. rewrite Hp. simpl.
    rewrite bool_decide_eq_true_2 by exact Hnone. reflexivity.
Qed.

(** X24.  [DPReceiveReceiver_Init] adds the receiver and increments the
    receiver counter of its peer; [DPReceiveReceiver_Free] undoes both and
    gives back the store as it was. *)
Theorem receiver_init_free_round_trip (w : world) (o peer : ptr) (p : Peer.t)
    (d : Device.t) :
  peers w !! peer = Some p ->
  devices w !! Peer.device p = Some d ->
  receivers w !! o = None ->
  exists w1,
    DPReceiveReceiver_Init o peer w
      = Ok tt w1 [E_PacketPassInterface_Init o (Device.packet_mtu d)] /\
    (exists p1, peers w1 !! peer = Some p1 /\
                Peer.d_receivers_ctr p1 = Peer.d_receivers_ctr p + 1) /\
    DPReceiveReceiver_Free o w1 = Ok tt w [E_PacketPassInterface_Free o].
Proof.
  intros Hp Hd Hfresh.
  eexists. split; [eapply ReceiverInit_run; eassumption|].
  split.
  { eexists. cbn [peers]. rewrite lookup_insert_eq. split; reflexivity. }
  erewrite ReceiverFree_run;
    [| cbn [receivers]; apply lookup_insert_eq | reflexivity
     | cbn [peers]; apply lookup_insert_eq ].
  f_equal. destruct w as [D P R]. cbn [devices peers receivers] in *. f_equal.
  - rewrite insert_insert_eq. cbn [Peer.d_receivers_ctr with_receivers_ctr].
    replace (Peer.d_receivers_ctr p + 1 - 1) with (Peer.d_receivers_ctr p) by lia.
    rewrite with_receivers_ctr_same. now apply insert_id.
  - now apply delete_insert_id.
Qed.

(** X25.  With a device MTU between 0 and [INT_MAX] minus the overhead and a
    positive buffer size, [DPReceiveDevice_Init] returns 1 and creates a
    device without own ID and without peers, whose packet MTU is the device
    MTU plus the overhead and does not exceed [INT_MAX];
    [DPReceiveDevice_Free] then gives back the store as it was.  When the
    relay router cannot be initialised, [DPReceiveDevice_Init] logs an error,
    returns 0 and leaves the store unchanged. *)
Theorem device_init_free_round_trip (w : world) (o : ptr) (mtu : Z) (f u re : ptr)
    (size time : Z) :
  devices w !! o = None ->
  0 <= mtu <= INT_MAX - DATAPROTO_MAX_OVERHEAD ->
  0 < size ->
  exists w1 d,
    DPReceiveDevice_Init true o mtu f u re size time w
      = Ok 1 w1 [E_DPRelayRouter_Init o mtu re] /\
    devices w1 !! o = Some d /\
    Device.packet_mtu d = DATAPROTO_MAX_OVERHEAD + mtu /\
    Device.packet_mtu d <= INT_MAX /\
    Device.have_peer_id d = 0 /\
    Device.peers_list d = [] /\
    DPReceiveDevice_Free o w1 = Ok tt w [E_DPRelayRouter_Free o] /\
    DPReceiveDevice_Init false o mtu f u re size time w
      = Ok 0 w [E_DPRelayRouter_Init o mtu re;
                E_BLog BLOG_ERROR "DPRelayRouter_Init failed" []].
Proof.
  intros Hfresh Hmtu Hsize.
  eexists _, _. split; [rewrite DeviceInit_run by assumption; reflexivity|].
  split; [cbn [devices]; apply lookup_insert_eq|].
  cbn [Device.packet_mtu Device.have_peer_id Device.peers_list].
  split; [reflexivity|]. split; [lia|]. split; [reflexivity|]. split; [reflexivity|].
  split.
  - erewrite DeviceFree_run; [| cbn [devices]; apply lookup_insert_eq | reflexivity].
    f_equal. destruct w as [D P R]. cbn [devices peers receivers] in *. f_equal.
    now apply delete_insert_id.
  - rewrite DeviceInit_run by assumption. reflexivity.
Qed.

(** * The lifecycle properties on the first configuration *)

Lemma receive_never_faults_witness :
  exists peer_ptr peer device,
    Receiver.peer r20 = Some peer_ptr /\
    peers w_demo !! peer_ptr = Some peer /\
    devices w_demo !! Peer.device peer = Some device /\
    forall host packet,
      data_len packet <= Device.packet_mtu device ->
      exists tr,
        receiver_recv_handler_send host 20 packet w_demo = Ok tt w_demo tr /\
        handled w_demo 20 peer_ptr peer device packet tr.
Proof.
  apply (receive_never_faults w_demo 20 r20).
  - exists demo_calls. vm_compute. reflexivity.
  - vm_compute. reflexivity.
Defined.

Lemma frees_are_guarded_witness :
  (forall o r pp,
      receivers w_demo !! o = Some r -> Receiver.peer r = Some pp ->
      DPReceivePeer_Free pp w_demo = Fault) /\
  (forall node p s,
      peers w_demo !! node = Some p -> Peer.dp_sink p = Some s ->
      DPReceivePeer_Free node w_demo = Fault) /\
  (forall node p,
      peers w_demo !! node = Some p ->
      DPReceiveDevice_Free (Peer.device p) w_demo = Fault).
Proof.
  apply (frees_are_guarded w_demo).
  exists demo_calls. vm_compute. reflexivity.
Defined.

Lemma demo_registry_valid :
  Forall (fun node => is_Some (peers w_demo !! node)) (Device.peers_list dev_demo).
Proof. repeat constructor; eexists; vm_compute; reflexivity. Qed.

Lemma lookup_after_register_witness :
  exists w',
    DPReceivePeer_Init 13 1 9 63 0 w_demo
      = Ok tt w' [E_DPRelaySource_Init 13 1 9 102; E_DPRelaySink_Init 13 9] /\
    find_peer 1 9 w' = Ok (Some 13%positive) w' [E_find_peer 1 9].
Proof.
  apply (lookup_after_register w_demo 13 1 dev_demo 9 63 0 9 None).
  - vm_compute. reflexivity.
  - apply demo_registry_valid.
  - vm_compute. reflexivity.
  - left. reflexivity.
  - vm_compute. reflexivity.
Defined.

Lemma register_keeps_ids_unique_witness :
  exists w' d',
    DPReceivePeer_Init 13 1 9 63 0 w_demo
      = Ok tt w' [E_DPRelaySource_Init 13 1 9 102; E_DPRelaySink_Init 13 9] /\
    devices w' !! 1%positive = Some d' /\
    Device.peers_list d' = [10; 11; 12; 13]%positive /\
    unique_ids w' (Device.peers_list d').
Proof.
  apply (register_keeps_ids_unique w_demo 13 1 dev_demo 9 63 0).
  - vm_compute. reflexivity.
  - apply demo_registry_valid.
  - vm_compute. reflexivity.
  - left. reflexivity.
  - apply demo_unique_ids.
  - vm_compute. reflexivity.
Defined.

Lemma peer_init_free_round_trip_witness :
  exists w1,
    DPReceivePeer_Init 13 1 9 63 0 w_demo
      = Ok tt w1 [E_DPRelaySource_Init 13 1 9 102; E_DPRelaySink_Init 13 9] /\
    DPReceivePeer_Free 13 w1 = Ok tt w_demo [E_DPRelaySink_Free 13; E_DPRelaySource_Free 13].
Proof.
  apply (peer_init_free_round_trip w_demo 13 1 dev_demo 9 63 0).
  - vm_compute. reflexivity.
  - apply demo_registry_valid.
  - vm_compute. reflexivity.
  - left. reflexivity.
Defined.

Lemma lookup_after_unregister_witness :
  exists w',
    DPReceivePeer_Free 12 w_demo
      = Ok tt w' [E_DPRelaySink_Free 12; E_DPRelaySource_Free 12] /\
    peers w' !! 12%positive = None /\
    forall id,
      exists res',
        find_peer 1 id w' = Ok res' w' [E_find_peer 1 id] /\
        res' <> Some 12%positive /\
        forall res,
          find_peer 1 id w_demo = Ok res w_demo [E_find_peer 1 id] ->
          res <> Some 12%positive -> res' = res.
Proof.
  apply (lookup_after_unregister w_demo 12 peer12 dev_demo).
  - vm_compute. reflexivity.
  - reflexivity.
  - reflexivity.
  - vm_compute. reflexivity.
  - apply demo_registry_valid.
Defined.

Lemma sink_attach_detach_witness :
  exists w1,
    DPReceivePeer_AttachSink 11 (Some 51%positive) w_demo
      = Ok tt w1 [E_DPRelaySink_Attach 11 51] /\
    DPReceivePeer_DetachSink 11 w1 = Ok tt w_demo [E_DPRelaySink_Detach 11] /\
    DPReceivePeer_AttachSink 11 (Some 52%positive) w1 = Fault /\
    DPReceivePeer_DetachSink 11 w_demo = Fault /\
    DPReceivePeer_AttachSink 11 None w_demo = Fault.
Proof.
  apply (sink_attach_detach w_demo 11 peer11 51 52).
  - vm_compute. reflexivity.
  - reflexivity.
Defined.

Lemma receiver_init_free_round_trip_witness :
  exists w1,
    DPReceiveReceiver_Init 22 12 w_demo = Ok tt w1 [E_PacketPassInterface_Init 22 11] /\
    (exists p1, peers w1 !! 12%positive = Some p1 /\ Peer.d_receivers_ctr p1 = 0 + 1) /\
    DPReceiveReceiver_Free 22 w1 = Ok tt w_demo [E_PacketPassInterface_Free 22].
Proof.
  apply (receiver_init_free_round_trip w_demo 22 12 peer12 dev_demo).
  - vm_compute. reflexivity.
  - vm_compute. reflexivity.
  - vm_compute. reflexivity.
Defined.

Lemma device_init_free_round_trip_witness :
  exists w1 d,
    DPReceiveDevice_Init true 1 4 100 101 102 8 3000 world0
      = Ok 1 w1 [E_DPRelayRouter_Init 1 4 102] /\
    devices w1 !! 1%positive = Some d /\
    Device.packet_mtu d = DATAPROTO_MAX_OVERHEAD + 4 /\
    Device.packet_mtu d <= INT_MAX /\
    Device.have_peer_id d = 0 /\
    Device.peers_list d = [] /\
    DPReceiveDevice_Free 1 w1 = Ok tt world0 [E_DPRelayRouter_Free 1] /\
    DPReceiveDevice_Init false 1 4 100 101 102 8 3000 world0
      = Ok 0 world0 [E_DPRelayRouter_Init 1 4 102;
                     E_BLog BLOG_ERROR "DPRelayRouter_Init failed" []].
Proof.
  apply (device_init_free_round_trip world0 1 4 100 101 102 8 3000).
  - reflexivity.
  - vm_compute. split; discriminate.
  - reflexivity.
Defined.

(** * The wpa_supplicant backend: parsing *)

(** X26.  [parse_hex_digit] accepts exactly the decimal digits and the
    letters A to F in either case, with their values: the digits 0 to 9, the
    letters 10 to 15. *)
Theorem parse_hex_digit_spec (d : ascii) (v : Z) :
  Wpa.parse_hex_digit d = Some v <->
  let c := Z.of_N (N_of_ascii d) in
  (48 <= c <= 57 /\ v = c - 48) \/
  (65 <= c <= 70 /\ v = c - 55) \/
  (97 <= c <= 102 /\ v = c - 87).
Proof.
  destruct d as [b0 b1 b2 b3 b4 b5 b6 b7].
  destruct b0, b1, b2, b3, b4, b5, b6, b7; cbn; unfold Wpa.out_return; split;
    solve [ intros H; first [discriminate H | injection H as <-; lia]
          | intros H; first [f_equal; lia | exfalso; lia] ].
Qed.

(** Printing a byte with [%02X] and reading the two digits back. *)
Lemma parse_print_02X (b : Z) :
  0 <= b < 256 ->
  Wpa.parse_hex_digit (Wpa.hex_digit (b / 16)) = Some (b / 16) /\
  Wpa.parse_hex_digit (Wpa.hex_digit (b mod 16)) = Some (b mod 16) /\
  Z.lor (Z.shiftl (b / 16) 4) (b mod 16) mod 256 = b.
Proof.
  intros Hb.
  assert (Hall : forallb (fun b =>
            match Wpa.parse_hex_digit (Wpa.hex_digit (b / 16)),
                  Wpa.parse_hex_digit (Wpa.hex_digit (b mod 16)) with
            | Some h, Some l =>
                (h =? b / 16) && (l =? b mod 16) &&
                (Z.lor (Z.shiftl (b / 16) 4) (b mod 16) mod 256 =? b)
            | _, _ => false
            end) (map Z.of_nat (seq 0 256)) = true) by (vm_compute; reflexivity).
  rewrite forallb_forall in Hall.
  specialize (Hall b).
  destruct (Wpa.parse_hex_digit (Wpa.hex_digit (b / 16))) as [h|];
    destruct (Wpa.parse_hex_digit (Wpa.hex_digit (b mod 16))) as [l|];
    try (exfalso; assert (false = true) by
           (apply Hall; apply in_map_iff; exists (Z.to_nat b); split;
            [lia | apply in_seq; lia]); discriminate).
  assert (H : (h =? b / 16) && (l =? b mod 16) &&
              (Z.lor (Z.shiftl (b / 16) 4) (b mod 16) mod 256 =? b) = true).
  { apply Hall. apply in_map_iff. exists (Z.to_nat b). split; [lia | apply in_seq; lia]. }
  apply andb_prop in H as [H H3]. apply andb_prop in H as [H1 H2].
  apply Z.eqb_eq in H1, H2, H3. subst. auto.
Qed.

Lemma parse_bssid_step (k : nat) (b : Z) (data : list ascii) :
  0 <= b < 256 ->
  Wpa.parse_bssid (S (S k)) (Wpa.print_02X b ++ ":"%char :: data)
  = match Wpa.parse_bssid (S k) data with
    | Some (bssid, data) => Some (b :: bssid, data)
    | None => None
    end.
Proof.
  intros Hb. destruct (parse_print_02X b Hb) as (H1 & H2 & H3).
  unfold Wpa.print_02X.
  change (Wpa.parse_bssid (S (S k))
            ([Wpa.hex_digit (b / 16); Wpa.hex_digit (b mod 16)] ++ ":"%char :: data))
    with (match Wpa.parse_hex_digit (Wpa.hex_digit (b / 16)),
                Wpa.parse_hex_digit (Wpa.hex_digit (b mod 16)) with
          | Some d1, Some d2 =>
              match Wpa.parse_bssid (S k) data with
              | Some (bssid, data) =>
                  Some (Z.lor (Z.shiftl d1 4) d2 mod 256 :: bssid, data)
              | None => None
              end
          | _, _ => None
          end).
  rewrite H1, H2, H3. reflexivity.
Qed.

Lemma parse_bssid_last (b : Z) (data : list ascii) :
  0 <= b < 256 ->
  Wpa.parse_bssid 1 (Wpa.print_02X b ++ data) = Some ([b], data).
Proof.
  intros Hb. destruct (parse_print_02X b Hb) as (H1 & H2 & H3).
  unfold Wpa.print_02X.
  change (Wpa.parse_bssid 1
            ([Wpa.hex_digit (b / 16); Wpa.hex_digit (b mod 16)] ++ data))
    with (match Wpa.parse_hex_digit (Wpa.hex_digit (b / 16)),
                Wpa.parse_hex_digit (Wpa.hex_digit (b mod 16)) with
          | Some d1, Some d2 => Some ([Z.lor (Z.shiftl d1 4) d2 mod 256], data)
          | _, _ => None
          end).
  rewrite H1, H2, H3. reflexivity.
Qed.

(** X27.  The BSSID that [func_getvar] prints is read back by the loop of
    [parse_trying]: for six bytes, parsing the printed form, whatever comes
    after it, gives the six bytes and what comes after. *)
Theorem print_parse_bssid (id : list Z) (data : list ascii) :
  length id = 6%nat ->
  Forall (fun b => 0 <= b < 256) id ->
  Wpa.parse_bssid 6 (Wpa.print_bssid id ++ data) = Some (id, data).
Proof.
  intros Hlen Hid.
  destruct id as [|b0 [|b1 [|b2 [|b3 [|b4 [|b5 [|]]]]]]]; try discriminate Hlen.
  repeat match goal with H : Forall _ (_ :: _) |- _ => apply Forall_cons in H as [? H] end.
  unfold Wpa.print_bssid.
  change ([b0; b1; b2; b3; b4; b5] !!! 0%nat) with b0.
  change ([b0; b1; b2; b3; b4; b5] !!! 1%nat) with b1.
  change ([b0; b1; b2; b3; b4; b5] !!! 2%nat) with b2.
  change ([b0; b1; b2; b3; b4; b5] !!! 3%nat) with b3.
  change ([b0; b1; b2; b3; b4; b5] !!! 4%nat) with b4.
  change ([b0; b1; b2; b3; b4; b5] !!! 5%nat) with b5.
  repeat rewrite <- ?app_assoc, <- ?app_comm_cons.
  rewrite !parse_bssid_step by assumption.
  rewrite parse_bssid_last by assumption.
  reflexivity.
Qed.

Lemma print_parse_bssid_witness :
  Wpa.parse_bssid 6 (Wpa.print_bssid Wpa.id_demo ++ Wpa.tail_demo)
  = Some (Wpa.id_demo, Wpa.tail_demo).
Proof.
  apply print_parse_bssid.
  - reflexivity.
  - repeat constructor; lia.
Defined.

(** The last quote of data that end with a quote-free tail. *)
Lemma last_quote_tail (s tail : list ascii) (k : nat) :
  "'"%char ∉ tail ->
  (k <= length tail)%nat ->
  Wpa.last_quote (length s + 1 + k) (s ++ "'"%char :: tail) = Some (length s).
Proof.
  intros Htail. induction k as [|k IH]; intros Hk.
  - replace (length s + 1 + 0)%nat with (S (length s)) by lia.
    cbn [Wpa.last_quote].
    rewrite lookup_app_r by lia. rewrite Nat.sub_diag. reflexivity.
  - replace (length s + 1 + S k)%nat with (S (length s + 1 + k)) by lia.
    cbn [Wpa.last_quote].
    rewrite lookup_app_r by lia.
    replace (length s + 1 + k - length s)%nat with (S k) by lia.
    change (("'"%char :: tail) !! S k) with (tail !! k).
    destruct (lookup_lt_is_Some_2 tail k ltac:(lia)) as [c Hc]. rewrite Hc.
    destruct (Ascii.eqb c "'") eqn:E.
    + apply Ascii.eqb_eq in E. subst c.
      exfalso. apply Htail. eapply list_elem_of_lookup_2; eassumption.
    + rewrite <- IH by lia. reflexivity.
Qed.

Lemma last_quote_found (s tail : list ascii) :
  "'"%char ∉ tail ->
  Wpa.last_quote (length (s ++ "'"%char :: tail)) (s ++ "'"%char :: tail)
  = Some (length s).
Proof.
  intros Htail.
  replace (length (s ++ "'"%char :: tail)) with (length s + 1 + length tail)%nat
    by (rewrite length_app; cbn; lia).
  apply last_quote_tail; [assumption | lia].
Qed.

Lemma last_quote_none (i : nat) (data : list ascii) :
  "'"%char ∉ data -> (i <= length data)%nat -> Wpa.last_quote i data = None.
Proof.
  intros Hd. induction i as [|i IH]; intros Hi; [reflexivity|].
  cbn [Wpa.last_quote].
  destruct (lookup_lt_is_Some_2 data i ltac:(lia)) as [c Hc]. rewrite Hc.
  destruct (Ascii.eqb c "'") eqn:E.
  - apply Ascii.eqb_eq in E. subst c.
    exfalso. apply Hd. eapply list_elem_of_lookup_2; eassumption.
  - apply IH. lia.
Qed.

(** What the contract of [data_begins_with] gives on data that begin with
    the string, and on data that do not. *)
Lemma begins_with_prefix (f : list ascii -> string -> nat) (s : string)
    (data : list ascii) :
  Wpa.begins_with_contract f ->
  f (String.list_ascii_of_string s ++ data) s = String.length s.
Proof.
  intros Hf. rewrite Hf. destruct (decide _) as [|n]; [reflexivity|].
  exfalso. apply n. apply prefix_app_r. reflexivity.
Qed.

Lemma begins_with_other (f : list ascii -> string -> nat) (s : string)
    (data : list ascii) :
  Wpa.begins_with_contract f ->
  ~ String.list_ascii_of_string s `prefix_of` data ->
  f data s = 0%nat.
Proof.
  intros Hf Hn. rewrite Hf. destruct (decide _) as [Hp|]; [contradiction | reflexivity].
Qed.

Lemma prefix_length_contract : Wpa.begins_with_contract Wpa.prefix_length.
Proof. intros data s. reflexivity. Qed.

Lemma drop_string_app (s : string) (data : list ascii) :
  drop (String.length s) (String.list_ascii_of_string s ++ data) = data.
Proof.
  replace (String.length s) with (length (String.list_ascii_of_string s)).
  - apply drop_app_length.
  - induction s as [|c s IH]; cbn; [reflexivity | now rewrite IH].
Qed.

Lemma parse_trying_bssid_line (f : list ascii -> string -> nat) (id : list Z)
    (ssid tail : list ascii) :
  Wpa.begins_with_contract f ->
  length id = 6%nat ->
  Forall (fun b => 0 <= b < 256) id ->
  "'"%char ∉ tail ->
  Wpa.parse_trying f (Wpa.trying_line id ssid tail) = Some (id, ssid).
Proof.
  intros Hf Hlen Hid Htail. unfold Wpa.parse_trying, Wpa.trying_line.
  rewrite begins_with_prefix by assumption.
  cbn [String.length]. rewrite (drop_string_app "Trying to associate with ").
  rewrite print_parse_bssid by assumption.
  rewrite begins_with_prefix by assumption.
  cbn [String.length]. rewrite (drop_string_app " (SSID='").
  rewrite last_quote_found by assumption.
  rewrite take_app_length. reflexivity.
Qed.

Lemma parse_trying_ssid_line (f : list ascii -> string -> nat) (ssid tail : list ascii) :
  Wpa.begins_with_contract f ->
  "'"%char ∉ tail ->
  Wpa.parse_trying f (Wpa.trying_nobssid_line ssid tail) = None /\
  Wpa.parse_trying_nobssid f (Wpa.trying_nobssid_line ssid tail) = Some ssid.
Proof.
  intros Hf Htail. unfold Wpa.trying_nobssid_line. split.
  - unfold Wpa.parse_trying.
    change (String.list_ascii_of_string "Trying to associate with SSID '")
      with (String.list_ascii_of_string "Trying to associate with " ++
            String.list_ascii_of_string "SSID '").
    rewrite <- app_assoc.
    rewrite begins_with_prefix by assumption.
    cbn [String.length]. rewrite (drop_string_app "Trying to associate with ").
    reflexivity.
  - unfold Wpa.parse_trying_nobssid.
    rewrite begins_with_prefix by assumption.
    cbn [String.length]. rewrite (drop_string_app "Trying to associate with SSID '").
    rewrite last_quote_found by assumption.
    rewrite take_app_length. reflexivity.
Qed.

(** X28.  The two forms of the line that announces an association.  In the
    form with a BSSID the six bytes are those printed in the line, and in
    both forms the SSID is what stands between the opening quote and the
    last quote of the line, quotes of its own included.  The form without
    BSSID is refused by [parse_trying], so that the handler falls back on
    [parse_trying_nobssid]. *)
Theorem trying_lines_parsed (f : list ascii -> string -> nat) (id : list Z)
    (ssid tail : list ascii) :
  Wpa.begins_with_contract f ->
  length id = 6%nat ->
  Forall (fun b => 0 <= b < 256) id ->
  "'"%char ∉ tail ->
  Wpa.parse_trying f (Wpa.trying_line id ssid tail) = Some (id, ssid) /\
  Wpa.parse_trying f (Wpa.trying_nobssid_line ssid tail) = None /\
  Wpa.parse_trying_nobssid f (Wpa.trying_nobssid_line ssid tail) = Some ssid.
Proof.
  intros Hf Hlen Hid Htail. split.
  - apply parse_trying_bssid_line; assumption.
  - apply parse_trying_ssid_line; assumption.
Qed.

Lemma no_quote_in (s : string) :
  forallb (fun c => negb (Ascii.eqb c "'")) (String.list_ascii_of_string s) = true ->
  "'"%char ∉ String.list_ascii_of_string s.
Proof.
  intros H Hin. rewrite forallb_forall in H.
  apply list_elem_of_In in Hin. apply H in Hin.
  rewrite Ascii.eqb_refl in Hin. discriminate Hin.
Qed.

Lemma trying_lines_parsed_witness :
  Wpa.parse_trying Wpa.prefix_length
    (Wpa.trying_line Wpa.id_demo Wpa.ssid_demo Wpa.tail_demo)
  = Some (Wpa.id_demo, Wpa.ssid_demo) /\
  Wpa.parse_trying Wpa.prefix_length
    (Wpa.trying_nobssid_line Wpa.ssid_demo Wpa.tail_demo) = None /\
  Wpa.parse_trying_nobssid Wpa.prefix_length
    (Wpa.trying_nobssid_line Wpa.ssid_demo Wpa.tail_demo) = Some Wpa.ssid_demo.
Proof.
  apply trying_lines_parsed.
  - exact prefix_length_contract.
  - reflexivity.
  - repeat constructor; lia.
  - apply no_quote_in. reflexivity.
Defined.

(** * The wpa_supplicant backend: the state of the instance *)

Lemma framework_up_app (u : bool) (tr1 tr2 : list Wpa.event) :
  Wpa.framework_up u (tr1 ++ tr2)
  = match Wpa.framework_up u tr1 with
    | Some u' => Wpa.framework_up u' tr2
    | None => None
    end.
Proof.
  revert u. induction tr1 as [|e tr1 IH]; intros u; [reflexivity|].
  destruct e; cbn; try apply IH; destruct u; try reflexivity; apply IH.
Qed.

Lemma buffers_app (n : nat) (tr1 tr2 : list Wpa.event) :
  Wpa.buffers n (tr1 ++ tr2)
  = match Wpa.buffers n tr1 with
    | Some n' => Wpa.buffers n' tr2
    | None => None
    end.
Proof.
  revert n. induction tr1 as [|e tr1 IH]; intros n; [reflexivity|].
  destruct e as [| | | | | | | | |sz []| | | |]; cbn; try apply IH.
  destruct n; [reflexivity | apply IH].
Qed.

Ltac wpa_unfold :=
  unfold Wpa.process_pipe_handler_send, Wpa.init_info, Wpa.free_info,
    Wpa.process_handler_terminated, Wpa.instance_free, Wpa.free_info,
    Wpa.process_error, Wpa.ModuleLog, Wpa.func_getvar,
    Wpa.ASSERT, Wpa.call, Wpa.get, Wpa.set, mbind, mret, Wpa.W_bind, Wpa.W_ret,
    Wpa.is_up, Wpa.buffers_of, Wpa.inst_ok in *.

Ltac wpa_case :=
  match goal with
  | H : ?x = 0 |- context [?x =? 0] => rewrite H; cbn
  | H : ?x <> 0 |- context [?x =? 0] =>
      rewrite (proj2 (Z.eqb_neq x 0) H); cbn
  | |- context [?x =? 0] =>
      let E := fresh "E" in
      destruct (x =? 0) eqn:E;
      [apply Z.eqb_eq in E | apply Z.eqb_neq in E]; cbn
  | |- context [if ?c then _ else _] => destruct c eqn:?; cbn
  | |- context [match ?c with O => _ | S _ => _ end] => destruct c eqn:?; cbn
  end.

(** One line: the handler returns and keeps the invariant, the pipe, the
    agreement with the framework and the count of buffers. *)
Lemma handler_step (f : list ascii -> string -> nat) (alloc_ok : bool)
    (data : list ascii) (o : Wpa.instance) :
  Wpa.inst_ok o ->
  Wpa.have_pipe o <> 0 ->
  data <> [] ->
  exists o' tr,
    Wpa.process_pipe_handler_send f alloc_ok data o = Some (tt, o', tr) /\
    Wpa.inst_ok o' /\
    Wpa.have_pipe o' = Wpa.have_pipe o /\
    Wpa.dying o' = Wpa.dying o /\
    Wpa.framework_up (Wpa.is_up o) tr = Some (Wpa.is_up o') /\
    Wpa.buffers (Wpa.buffers_of o) tr = Some (Wpa.buffers_of o').
Proof.
  intros [Hup Hinfo] Hpipe Hdata.
  assert (Hlen : (0 <? Z.of_nat (length data)) = true).
  { destruct data; [contradiction | cbn; reflexivity]. }
  destruct o as [dy u hp hi hb bs ss]. cbn in *.
  wpa_unfold. cbn.
  rewrite (proj2 (Z.eqb_neq hp 0) Hpipe). cbn. rewrite Hlen. cbn.
  destruct (Wpa.parse_trying f data) as [[bssid ssid]|];
    [|destruct (Wpa.parse_trying_nobssid f data) as [ssid|]];
    repeat wpa_case;
    eexists _, _; (split; [reflexivity|]); cbn;
    repeat wpa_case;
    repeat split; try reflexivity; try congruence; try lia; intros; cbn in *;
    try congruence; try lia; eauto.
Qed.

Lemma lines_run (f : list ascii -> string -> nat) (lines : list (bool * list ascii))
    (o : Wpa.instance) :
  Wpa.inst_ok o ->
  Wpa.have_pipe o <> 0 ->
  Forall (fun l => l.2 <> []) lines ->
  exists o' tr,
    Wpa.process_lines f lines o = Some (tt, o', tr) /\
    Wpa.inst_ok o' /\
    Wpa.have_pipe o' = Wpa.have_pipe o /\
    Wpa.dying o' = Wpa.dying o /\
    Wpa.framework_up (Wpa.is_up o) tr = Some (Wpa.is_up o') /\
    Wpa.buffers (Wpa.buffers_of o) tr = Some (Wpa.buffers_of o').
Proof.
  intros Hok Hpipe Hlines. revert o Hok Hpipe.
  induction Hlines as [|[ok data] lines Hdata _ IH]; intros o Hok Hpipe.
  - exists o, []. repeat split; try reflexivity; apply Hok.
  - destruct (handler_step f ok data o Hok Hpipe Hdata)
      as (o1 & tr1 & Hrun1 & Hok1 & Hp1 & Hd1 & Hu1 & Hb1).
    destruct (IH o1 Hok1 ltac:(congruence))
      as (o2 & tr2 & Hrun2 & Hok2 & Hp2 & Hd2 & Hu2 & Hb2).
    exists o2, (tr1 ++ tr2).
    split.
    { cbn [Wpa.process_lines]. unfold mbind, Wpa.W_bind.
      rewrite Hrun1, Hrun2. reflexivity. }
    split; [assumption|].
    split; [congruence|]. split; [congruence|].
    rewrite framework_up_app, Hu1, buffers_app, Hb1. auto.
Qed.

Lemma getvar_returns (init_ok : bool) (name : string) (o : Wpa.instance) :
  Wpa.inst_ok o ->
  Wpa.is_up o = true ->
  exists res tr, Wpa.func_getvar init_ok name o = Some (res, o, tr).
Proof.
  intros [Hup Hinfo] Hu.
  destruct o as [dy u hp hi hb bs ss]. cbn in *.
  unfold Wpa.is_up in Hu. cbn in Hu.
  assert (u <> 0) by (intros ->; discriminate Hu).
  assert (hi <> 0) by auto.
  destruct (Hinfo ltac:(assumption)) as [s ->].
  wpa_unfold. cbn.
  repeat wpa_case; eexists _, _; reflexivity.
Qed.

Lemma terminated_frees (normally status : Z) (o : Wpa.instance) :
  exists o' tr,
    Wpa.process_handler_terminated normally status o = Some (tt, o', tr) /\
    Wpa.buffers (Wpa.buffers_of o) tr = Some 0%nat /\
    last tr = Some Wpa.E_NCDModuleInst_Backend_Dead.
Proof.
  destruct o as [dy u hp hi hb bs ss].
  wpa_unfold. cbn.
  repeat wpa_case; eexists _, _; (split; [reflexivity|]); cbn;
    repeat wpa_case; split; try reflexivity; congruence.
Qed.

(** X29.  The life of an instance.  From a state in which a module that is
    up has its information, and with the pipe open, the line handler
    returns on every sequence of non-empty lines, whatever the lines and
    whatever the allocator does.  It keeps that invariant; it calls
    [NCDModuleInst_Backend_Up] only when the module is down and
    [NCDModuleInst_Backend_Down] only when it is up, and the framework ends
    in the state the field [up] tells; it frees no buffer it does not hold,
    and holds one buffer exactly when [have_info] is set.  When the module is
    up in the end, [func_getvar] returns for every name without changing the
    instance.  When the process terminates, every buffer allocated since the
    start has been freed, and the last call is
    [NCDModuleInst_Backend_Dead]. *)
Theorem instance_life (f : list ascii -> string -> nat)
    (lines : list (bool * list ascii)) (o : Wpa.instance) :
  Wpa.inst_ok o ->
  Wpa.have_pipe o <> 0 ->
  Forall (fun l => l.2 <> []) lines ->
  exists o' tr,
    Wpa.process_lines f lines o = Some (tt, o', tr) /\
    Wpa.inst_ok o' /\
    Wpa.framework_up (Wpa.is_up o) tr = Some (Wpa.is_up o') /\
    Wpa.buffers (Wpa.buffers_of o) tr = Some (Wpa.buffers_of o') /\
    (Wpa.is_up o' = true ->
     forall init_ok name,
       exists res tr', Wpa.func_getvar init_ok name o' = Some (res, o', tr')) /\
    (forall normally status,
       exists o'' tr',
         Wpa.process_handler_terminated normally status o' = Some (tt, o'', tr') /\
         Wpa.buffers (Wpa.buffers_of o) (tr ++ tr') = Some 0%nat /\
         last (tr ++ tr') = Some Wpa.E_NCDModuleInst_Backend_Dead).
Proof.
  intros Hok Hpipe Hlines.
  destruct (lines_run f lines o Hok Hpipe Hlines)
    as (o' & tr & Hrun & Hok' & _ & _ & Hu & Hb).
  exists o', tr. repeat (split; [assumption|]). split.
  - intros Hup init_ok name. apply getvar_returns; assumption.
  - intros normally status.
    destruct (terminated_frees normally status o') as (o'' & tr' & Ht & Hb' & Hl).
    exists o'', tr'. split; [assumption|]. split.
    + rewrite buffers_app, Hb. assumption.
    + destruct tr' as [|e tr']; [discriminate Hl|].
      rewrite last_app. rewrite Hl. reflexivity.
Qed.

Lemma instance_life_witness :
  exists o' tr,
    Wpa.process_lines Wpa.prefix_length
      [(true, Wpa.line_trying); (true, Wpa.line_connected);
       (true, Wpa.line_disconnected); (false, Wpa.line_trying_nobssid)] Wpa.o_new
    = Some (tt, o', tr) /\
    Wpa.inst_ok o' /\
    Wpa.framework_up (Wpa.is_up Wpa.o_new) tr = Some (Wpa.is_up o') /\
    Wpa.buffers (Wpa.buffers_of Wpa.o_new) tr = Some (Wpa.buffers_of o') /\
    (Wpa.is_up o' = true ->
     forall init_ok name,
       exists res tr', Wpa.func_getvar init_ok name o' = Some (res, o', tr')) /\
    (forall normally status,
       exists o'' tr',
         Wpa.process_handler_terminated normally status o' = Some (tt, o'', tr') /\
         Wpa.buffers (Wpa.buffers_of Wpa.o_new) (tr ++ tr') = Some 0%nat /\
         last (tr ++ tr') = Some Wpa.E_NCDModuleInst_Backend_Dead).
Proof.
  apply instance_life.
  - split; cbn; intros H; [contradiction | contradiction].
  - cbn. lia.
  - repeat constructor; cbn; discriminate.
Defined.

Lemma connected_not_trying (f : list ascii -> string -> nat) (tail : list ascii) :
  Wpa.begins_with_contract f ->
  Wpa.parse_trying f (Wpa.connected_line tail) = None /\
  Wpa.parse_trying_nobssid f (Wpa.connected_line tail) = None /\
  f (Wpa.connected_line tail) Wpa.EVENT_STRING_CONNECTED = 20%nat.
Proof.
  intros Hf. unfold Wpa.parse_trying, Wpa.parse_trying_nobssid, Wpa.connected_line.
  rewrite !(begins_with_other f _ _ Hf), begins_with_prefix by
    first [assumption | intros [k Hk]; discriminate Hk].
  auto.
Qed.

Lemma line_not_empty (s : string) (data : list ascii) :
  s <> EmptyString ->
  (0 <? Z.of_nat (length (String.list_ascii_of_string s ++ data))) = true.
Proof. destruct s; [contradiction | reflexivity]. Qed.

(** X30.  An association from the line to the variables.  On an instance
    that is neither dying nor up, a line that announces an association
    followed by a line that starts with [CTRL-EVENT-CONNECTED] brings the
    module up: the old information is freed, the new one allocated, and
    [NCDModuleInst_Backend_Up] is the last call.  Afterwards the variable
    [bssid] is the BSSID of the line in capital digits, or [none] when the
    line had no BSSID, and the variable [ssid] is the SSID of the line up to
    its first NUL character. *)
Theorem association_reported (f : list ascii -> string -> nat) (o : Wpa.instance)
    (id : list Z) (ssid tail tail' : list ascii) (alloc_ok' : bool) :
  Wpa.begins_with_contract f ->
  Wpa.have_pipe o <> 0 ->
  Wpa.dying o = 0 ->
  Wpa.up o = 0 ->
  length id = 6%nat ->
  Forall (fun b => 0 <= b < 256) id ->
  "'"%char ∉ tail ->
  (exists o',
     Wpa.process_lines f
       [(true, Wpa.trying_line id ssid tail); (alloc_ok', Wpa.connected_line tail')] o
       = Some (tt, o', Wpa.association_trace o ssid) /\
     Wpa.func_getvar true "bssid" o'
       = Some (Some (Wpa.print_bssid id), o',
               [Wpa.E_NCDValue_InitString (Wpa.print_bssid id)]) /\
     Wpa.func_getvar true "ssid" o'
       = Some (Some (Wpa.c_string ssid), o',
               [Wpa.E_NCDValue_InitString (Wpa.c_string ssid)])) /\
  (exists o',
     Wpa.process_lines f
       [(true, Wpa.trying_nobssid_line ssid tail);
        (alloc_ok', Wpa.connected_line tail')] o
       = Some (tt, o', Wpa.association_trace o ssid) /\
     Wpa.func_getvar true "bssid" o'
       = Some (Some (String.list_ascii_of_string "none"), o',
               [Wpa.E_NCDValue_InitString (String.list_ascii_of_string "none")]) /\
     Wpa.func_getvar true "ssid" o'
       = Some (Some (Wpa.c_string ssid), o',
               [Wpa.E_NCDValue_InitString (Wpa.c_string ssid)])).
Proof.
  intros Hf Hpipe Hdying Hup Hlen Hid Htail.
  destruct (connected_not_trying f tail' Hf) as (Hc1 & Hc2 & Hc3).
  destruct (parse_trying_ssid_line f ssid tail Hf Htail) as [Hs1 Hs2].
  pose proof (parse_trying_bssid_line f id ssid tail Hf Hlen Hid Htail) as Hb.
  assert (Hid6 : take 6 id = id) by (apply take_ge; lia).
  assert (Hn1 : (0 <? Z.of_nat (length (Wpa.trying_line id ssid tail))) = true)
    by (apply line_not_empty; discriminate).
  assert (Hn2 : (0 <? Z.of_nat (length (Wpa.trying_nobssid_line ssid tail))) = true)
    by (apply line_not_empty; discriminate).
  assert (Hn3 : (0 <? Z.of_nat (length (Wpa.connected_line tail'))) = true)
    by (apply line_not_empty; discriminate).
  destruct o as [dy u hp hi hb bs ss]. cbn in Hpipe, Hdying, Hup. subst dy u.
  unfold Wpa.association_trace. cbn [Wpa.have_info].
  split.
  - cbn [Wpa.process_lines]. unfold Wpa.process_pipe_handler_send.
    rewrite Hb, Hc1, Hc2, Hc3, Hn1, Hn3.
    wpa_unfold. cbn. rewrite Hid6.
    repeat wpa_case; eexists; (split; [reflexivity|]); cbn; repeat wpa_case; auto.
  - cbn [Wpa.process_lines]. unfold Wpa.process_pipe_handler_send.
    rewrite Hs1, Hs2, Hc1, Hc2, Hc3, Hn2, Hn3.
    wpa_unfold. cbn.
    repeat wpa_case; eexists; (split; [reflexivity|]); cbn; repeat wpa_case; auto.
Qed.

Lemma association_reported_witness :
  (exists o',
     Wpa.process_lines Wpa.prefix_length
       [(true, Wpa.trying_line Wpa.id_demo Wpa.ssid_demo Wpa.tail_demo);
        (false, Wpa.connected_line Wpa.tail_demo)] Wpa.o_new
       = Some (tt, o', Wpa.association_trace Wpa.o_new Wpa.ssid_demo) /\
     Wpa.func_getvar true "bssid" o'
       = Some (Some (Wpa.print_bssid Wpa.id_demo), o',
               [Wpa.E_NCDValue_InitString (Wpa.print_bssid Wpa.id_demo)]) /\
     Wpa.func_getvar true "ssid" o'
       = Some (Some (Wpa.c_string Wpa.ssid_demo), o',
               [Wpa.E_NCDValue_InitString (Wpa.c_string Wpa.ssid_demo)])) /\
  (exists o',
     Wpa.process_lines Wpa.prefix_length
       [(true, Wpa.trying_nobssid_line Wpa.ssid_demo Wpa.tail_demo);
        (false, Wpa.connected_line Wpa.tail_demo)] Wpa.o_new
       = Some (tt, o', Wpa.association_trace Wpa.o_new Wpa.ssid_demo) /\
     Wpa.func_getvar true "bssid" o'
       = Some (Some (String.list_ascii_of_string "none"), o',
               [Wpa.E_NCDValue_InitString (String.list_ascii_of_string "none")]) /\
     Wpa.func_getvar true "ssid" o'
       = Some (Some (Wpa.c_string Wpa.ssid_demo), o',
               [Wpa.E_NCDValue_InitString (Wpa.c_string Wpa.ssid_demo)])).
Proof.
  apply (association_reported Wpa.prefix_length Wpa.o_new Wpa.id_demo Wpa.ssid_demo
           Wpa.tail_demo Wpa.tail_demo false).
  - exact prefix_length_contract.
  - cbn. lia.
  - reflexivity.
  - reflexivity.
  - reflexivity.
  - repeat constructor; lia.
  - apply no_quote_in. reflexivity.
Defined.
